(** * PocketChat: relation store, conversation index and message stream

    A shallow embedding of the three client services of the chat client
    ([relation-service.ts], [conversation-service.ts], [chat-service.ts])
    together with the interfaces they exchange, the file-name utilities
    ([file.utils.ts]) and the relation action button that calls the
    relation service, and the properties of the relation state machine and
    of its reconciliation with real-time events.

    JavaScript strings are [string], the bytes of their UTF-8 encoding;
    arrays are [list], [Array.find] is
    [List.find], [Array.some] is [existsb], [Array.filter] is [filter] and
    [Array.map] is [map].  An [async] method is a computation in the monad
    [M]: it threads the whole client-plus-backend state and either returns
    a value or throws a JavaScript error.  State written before a [throw]
    stays written, as in JavaScript. *)

From Stdlib Require Import List String Ascii Bool Arith Lia.
From Stdlib Require Import DecimalString.
From Stdlib Require Import Sorted.
Import ListNotations.
Open Scope string_scope.
Open Scope list_scope.

(** ** Interfaces *)

(** Modelled from the spec: [IAuthUser] ([iauth-user.ts] is not among the
    sources); its fields are those the services read and write: [id],
    [email], [username] and the optional [avatar]. *)
Record IAuthUser := mkUser {
  user_id : string;
  email : string;
  username : string;
  avatar : option string
}.

(** [RelationType] of [irelation.ts]. *)
Inductive RelationType := friend | blocked | pending_sent | pending_received.

(** [ComputedRelationType = RelationType | 'no_relation']. *)
Inductive ComputedRelationType :=
| stored (t : RelationType)
| no_relation.

Coercion stored : RelationType >-> ComputedRelationType.

(** The [expand] object of a relation record. *)
Record RelationExpand := mkRelationExpand {
  expand_from_user : option IAuthUser;
  expand_to_user : option IAuthUser
}.

(** [IRelation]: a directed edge [from_user -> to_user].  Timestamps are
    ISO strings in the source, compared only by order; they are natural
    numbers here. *)
Record IRelation := mkRelation {
  rel_id : string;
  from_user : string;
  to_user : string;
  rel_type : RelationType;
  rel_created : nat;
  rel_updated : nat;
  rel_expand : option RelationExpand
}.

(** [IRelationStatus]. *)
Record IRelationStatus := mkStatus {
  status_type : ComputedRelationType;
  isInitiatedByMe : bool;
  relation : option IRelation
}.

(** [IConversation]; [conv_expand] is [expand?.participants]. *)
Record IConversation := mkConversation {
  conv_id : string;
  participants : list string;
  conv_created : nat;
  conv_updated : nat;
  conv_expand : option (list IAuthUser)
}.

Inductive FileType := image | video | audio | document.

(** [IMessage]; [msg_expand] is [expand?.user]. *)
Record IMessage := mkMessage {
  msg_id : string;
  msg_text : option string;
  msg_user : string;
  msg_conversation : option string;
  msg_file : option string;
  msg_fileType : option FileType;
  msg_fileName : option string;
  msg_fileSize : option nat;
  msg_thumbnail : option string;
  msg_created : nat;
  msg_updated : nat;
  msg_expand : option IAuthUser;
  msg_collectionId : option string;
  msg_collectionName : option string
}.

(** A thrown JavaScript error: [message], and [data.message] for the
    backend client's response errors. *)
Record JsError := mkError {
  data_message : option string;
  message : string
}.

(** [new Error(msg)]. *)
Definition Error (msg : string) : JsError := mkError None msg.

(** ** Constants ([app.constants.ts]) *)

Module RELATION_ERRORS.
Definition not_authenticated := "User not authenticated".
Definition cannot_relate_self := "Cannot perform action on yourself".
Definition already_blocked := "User is already blocked".
End RELATION_ERRORS.

(** ** Error utilities ([error.utils.ts]) *)

(** JavaScript truthiness of a string. *)
Definition truthy (s : string) : bool :=
  match s with EmptyString => false | _ => true end.

Definition extractErrorMessage (error : JsError) (defaultMessage : string) : string :=
  match data_message error with
  | Some m => if truthy m then m
              else if truthy (message error) then message error else defaultMessage
  | None => if truthy (message error) then message error else defaultMessage
  end.

(** [handleError] also logs to the console, which no service observes. *)
Definition handleError (context : string) (error : JsError) (defaultMessage : string) : string :=
  extractErrorMessage error defaultMessage.

(** ** The backend collaborator *)

Inductive Collection := Users | Relations | Conversations | Messages.

(** One request sent to the backend. *)
Inductive Call :=
| GetList (c : Collection)
| GetOne (c : Collection) (id : string)
| Create (c : Collection)
| Update (c : Collection) (id : string)
| Delete (c : Collection) (id : string).

(** Modelled from the spec: the backend of section 6 (the PocketBase server
    is not part of the repository).  It stores the records of the four
    collections, stamps writes with its clock, names created records from
    a counter, records the requests it receives in [db_log], and fails the
    next request with a transport error whenever the head of [db_faults]
    is [true]. *)
Record Backend := mkBackend {
  db_users : list IAuthUser;
  db_relations : list IRelation;
  db_conversations : list IConversation;
  db_messages : list IMessage;
  db_clock : nat;
  db_nextId : nat;
  db_faults : list bool;
  db_log : list Call
}.

(** ** Client state *)

(** The signals of [RelationService]; [relationsHistory] is a ghost
    field: every value written to [relationsSignal], newest first. *)
Record RelationStore := mkRelationStore {
  relationsSignal : list IRelation;
  rel_loadingSignal : bool;
  rel_errorSignal : option string;
  processingIds : list string;
  relationsHistory : list (list IRelation)
}.

Record ConversationStore := mkConversationStore {
  conversationsSignal : list IConversation;
  conv_loadingSignal : bool;
  conv_errorSignal : option string
}.

Record ChatStore := mkChatStore {
  messagesSignal : list IMessage;
  chat_loadingSignal : bool;
  chat_errorSignal : option string
}.

Record World := mkWorld {
  authUser : option IAuthUser;      (* AuthService.user() *)
  relationService : RelationStore;
  conversationService : ConversationStore;
  chatService : ChatStore;
  pb : Backend
}.

(** ** The monad of service methods *)

Inductive Result (A : Type) :=
| Ok (a : A)
| Throw (e : JsError).

Arguments Ok {A} a.
Arguments Throw {A} e.

Definition M (A : Type) : Type := World -> Result A * World.

Definition ret {A} (a : A) : M A := fun w => (Ok a, w).

Definition bind {A B} (m : M A) (f : A -> M B) : M B :=
  fun w => match m w with
           | (Ok a, w') => f a w'
           | (Throw e, w') => (Throw e, w')
           end.

Definition throw {A} (e : JsError) : M A := fun w => (Throw e, w).

(** [try { m } catch (error) { h error }]. *)
Definition try_catch {A} (m : M A) (h : JsError -> M A) : M A :=
  fun w => match m w with
           | (Ok a, w') => (Ok a, w')
           | (Throw e, w') => h e w'
           end.

(** [try { m } finally { fin }]. *)
Definition try_finally {A} (m : M A) (fin : M unit) : M A :=
  fun w => match m w with
           | (r, w') => match fin w' with
                        | (Ok _, w'') => (r, w'')
                        | (Throw e, w'') => (Throw e, w'')
                        end
           end.

Declare Scope js_scope.
Delimit Scope js_scope with js.
Notation "x <- m ;; k" := (bind m (fun x => k))
  (at level 100, m at next level, right associativity) : js_scope.
Notation "m ;; k" := (bind m (fun _ => k))
  (at level 100, right associativity) : js_scope.
Open Scope js_scope.

Definition gets {A} (f : World -> A) : M A := fun w => (Ok (f w), w).
Definition modify (f : World -> World) : M unit := fun w => (Ok tt, f w).

(** *** Field updates *)

Definition with_relationService (f : RelationStore -> RelationStore) (w : World) : World :=
  mkWorld (authUser w) (f (relationService w)) (conversationService w) (chatService w) (pb w).

Definition with_conversationService (f : ConversationStore -> ConversationStore) (w : World) : World :=
  mkWorld (authUser w) (relationService w) (f (conversationService w)) (chatService w) (pb w).

Definition with_chatService (f : ChatStore -> ChatStore) (w : World) : World :=
  mkWorld (authUser w) (relationService w) (conversationService w) (f (chatService w)) (pb w).

Definition with_pb (f : Backend -> Backend) (w : World) : World :=
  mkWorld (authUser w) (relationService w) (conversationService w) (chatService w) (f (pb w)).

(** [relationsSignal.set(v)]: the write is also pushed on the history. *)
Definition set_relations (v : list IRelation) (s : RelationStore) : RelationStore :=
  mkRelationStore v (rel_loadingSignal s) (rel_errorSignal s) (processingIds s)
                  (v :: relationsHistory s).

Definition set_rel_loading (b : bool) (s : RelationStore) : RelationStore :=
  mkRelationStore (relationsSignal s) b (rel_errorSignal s) (processingIds s)
                  (relationsHistory s).

Definition set_rel_error (e : option string) (s : RelationStore) : RelationStore :=
  mkRelationStore (relationsSignal s) (rel_loadingSignal s) e (processingIds s)
                  (relationsHistory s).

Definition set_processingIds (p : list string) (s : RelationStore) : RelationStore :=
  mkRelationStore (relationsSignal s) (rel_loadingSignal s) (rel_errorSignal s) p
                  (relationsHistory s).

Definition set_conversations (v : list IConversation) (s : ConversationStore) : ConversationStore :=
  mkConversationStore v (conv_loadingSignal s) (conv_errorSignal s).

Definition set_conv_loading (b : bool) (s : ConversationStore) : ConversationStore :=
  mkConversationStore (conversationsSignal s) b (conv_errorSignal s).

Definition set_conv_error (e : option string) (s : ConversationStore) : ConversationStore :=
  mkConversationStore (conversationsSignal s) (conv_loadingSignal s) e.

Definition set_messages (v : list IMessage) (s : ChatStore) : ChatStore :=
  mkChatStore v (chat_loadingSignal s) (chat_errorSignal s).

Definition set_chat_loading (b : bool) (s : ChatStore) : ChatStore :=
  mkChatStore (messagesSignal s) b (chat_errorSignal s).

Definition set_chat_error (e : option string) (s : ChatStore) : ChatStore :=
  mkChatStore (messagesSignal s) (chat_loadingSignal s) e.

(** *** Signals *)

Definition user : M (option IAuthUser) := gets authUser.

Definition relations : M (list IRelation) :=
  gets (fun w => relationsSignal (relationService w)).

Definition relations_update (f : list IRelation -> list IRelation) : M unit :=
  modify (with_relationService (fun s => set_relations (f (relationsSignal s)) s)).

Definition conversations : M (list IConversation) :=
  gets (fun w => conversationsSignal (conversationService w)).

Definition conversations_update (f : list IConversation -> list IConversation) : M unit :=
  modify (with_conversationService (fun s => set_conversations (f (conversationsSignal s)) s)).

Definition messages : M (list IMessage) :=
  gets (fun w => messagesSignal (chatService w)).

Definition messages_update (f : list IMessage -> list IMessage) : M unit :=
  modify (with_chatService (fun s => set_messages (f (messagesSignal s)) s)).

(** ** Backend requests

    Modelled from the spec (section 6): list/query with a filter, a sort
    key, pagination and optional expansion; get-one; create; update;
    delete.  A filter expression is the predicate it denotes. *)

(** Modelled from the spec: the error of a failed backend call
    ([TransportFailure], section 7), with the client library's default
    message. *)
Definition transportFailure : JsError :=
  mkError None "Something went wrong while processing your request.".

(** Modelled from the spec: the backend's answer for an identifier it
    does not hold ([NotFound], section 7). *)
Definition notFound : JsError :=
  mkError (Some "The requested resource wasn't found.")
          "The requested resource wasn't found.".

Definition set_db_relations (v : list IRelation) (b : Backend) : Backend :=
  mkBackend (db_users b) v (db_conversations b) (db_messages b)
            (db_clock b) (db_nextId b) (db_faults b) (db_log b).

Definition set_db_conversations (v : list IConversation) (b : Backend) : Backend :=
  mkBackend (db_users b) (db_relations b) v (db_messages b)
            (db_clock b) (db_nextId b) (db_faults b) (db_log b).

Definition set_db_messages (v : list IMessage) (b : Backend) : Backend :=
  mkBackend (db_users b) (db_relations b) (db_conversations b) v
            (db_clock b) (db_nextId b) (db_faults b) (db_log b).

(** A write advances the clock; a create also uses up one identifier. *)
Definition tick (b : Backend) : Backend :=
  mkBackend (db_users b) (db_relations b) (db_conversations b) (db_messages b)
            (S (db_clock b)) (db_nextId b) (db_faults b) (db_log b).

Definition next_id (b : Backend) : Backend :=
  mkBackend (db_users b) (db_relations b) (db_conversations b) (db_messages b)
            (db_clock b) (S (db_nextId b)) (db_faults b) (db_log b).

Definition arrive (c : Call) (b : Backend) : Backend :=
  mkBackend (db_users b) (db_relations b) (db_conversations b) (db_messages b)
            (db_clock b) (db_nextId b) (tl (db_faults b)) (db_log b ++ [c]).

Definition fresh_id (b : Backend) : string :=
  "rec" ++ NilEmpty.string_of_uint (Nat.to_uint (db_nextId b)).

(** Modelled from the spec: every request is logged and takes the next
    entry of the fault schedule; an exhausted schedule means no further
    failure. *)
Definition request (c : Call) : M unit :=
  fun w =>
    let w' := with_pb (arrive c) w in
    match db_faults (pb w) with
    | true :: _ => (Throw transportFailure, w')
    | _ => (Ok tt, w')
    end.

Definition backend {A} (f : Backend -> A) : M A := gets (fun w => f (pb w)).

(** Modelled from the spec: the sort key of a list request, as a stable
    insertion sort; [before a b] holds when [a] may precede [b]. *)
Fixpoint insert_sorted {A} (before : A -> A -> bool) (x : A) (l : list A) : list A :=
  match l with
  | [] => [x]
  | y :: t => if before x y then x :: l else y :: insert_sorted before x t
  end.

(** Modelled from the spec: a list request without sort key answers in
    stored order. *)
Definition sort_by {A} (before : option (A -> A -> bool)) (l : list A) : list A :=
  match before with
  | Some b => fold_right (insert_sorted b) [] l
  | None => l
  end.

(** Modelled from the spec: pagination (page, page size). *)
Definition page_of {A} (page perPage : nat) (l : list A) : list A :=
  firstn perPage (skipn ((page - 1) * perPage) l).

Definition find_user (b : Backend) (id : string) : option IAuthUser :=
  find (fun u => user_id u =? id) (db_users b).

(** Modelled from the spec: expansion of the reference fields of a
    relation, [expand: 'from_user,to_user']; a user the backend does not
    hold is left out. *)
Definition expand_relation (b : Backend) (r : IRelation) : IRelation :=
  let e := match find_user b (from_user r), find_user b (to_user r) with
           | None, None => None
           | f, t => Some (mkRelationExpand f t)
           end in
  mkRelation (rel_id r) (from_user r) (to_user r) (rel_type r)
             (rel_created r) (rel_updated r) e.

Definition with_expand (expand : bool) (b : Backend) (r : IRelation) : IRelation :=
  if expand then expand_relation b r else r.

Fixpoint found_users (b : Backend) (ids : list string) : list IAuthUser :=
  match ids with
  | [] => []
  | i :: t => match find_user b i with
              | Some u => u :: found_users b t
              | None => found_users b t
              end
  end.

(** Modelled from the spec: expansion of the participants of a
    conversation, [expand: 'participants']. *)
Definition expand_conversation (b : Backend) (c : IConversation) : IConversation :=
  let e := match found_users b (participants c) with
           | [] => None
           | us => Some us
           end in
  mkConversation (conv_id c) (participants c) (conv_created c) (conv_updated c) e.

Definition set_rel_type (t : RelationType) (now : nat) (r : IRelation) : IRelation :=
  mkRelation (rel_id r) (from_user r) (to_user r) t (rel_created r) now (rel_expand r).

Definition set_conv_updated (now : nat) (c : IConversation) : IConversation :=
  mkConversation (conv_id c) (participants c) (conv_created c) now (conv_expand c).

(** Modelled from the spec: the requests on the [relations] collection,
    [pb.collection('relations')]. *)
Module relations_collection.

Definition getList (filter_ : IRelation -> bool)
           (sort : option (IRelation -> IRelation -> bool))
           (page perPage : nat) (expand : bool) : M (list IRelation) :=
  request (GetList Relations) ;;
  b <- backend id ;;
  ret (map (with_expand expand b)
           (page_of page perPage (sort_by sort (filter filter_ (db_relations b))))).

Definition getOne (id_ : string) (expand : bool) : M IRelation :=
  request (GetOne Relations id_) ;;
  b <- backend id ;;
  match find (fun r => rel_id r =? id_) (db_relations b) with
  | Some r => ret (with_expand expand b r)
  | None => throw notFound
  end.

Definition create (from to : string) (t : RelationType) (expand : bool) : M IRelation :=
  request (Create Relations) ;;
  b <- backend id ;;
  let r := mkRelation (fresh_id b) from to t (db_clock b) (db_clock b) None in
  modify (with_pb (fun b => next_id (tick (set_db_relations (db_relations b ++ [r]) b)))) ;;
  ret (with_expand expand b r).

Definition update (id_ : string) (t : RelationType) (expand : bool) : M IRelation :=
  request (Update Relations id_) ;;
  b <- backend id ;;
  match find (fun r => rel_id r =? id_) (db_relations b) with
  | Some r =>
      let upd := set_rel_type t (db_clock b) in
      modify (with_pb (fun b =>
        tick (set_db_relations
                (map (fun x => if rel_id x =? id_ then upd x else x) (db_relations b)) b))) ;;
      ret (with_expand expand b (upd r))
  | None => throw notFound
  end.

Definition delete (id_ : string) : M unit :=
  request (Delete Relations id_) ;;
  b <- backend id ;;
  if existsb (fun r => rel_id r =? id_) (db_relations b)
  then modify (with_pb (fun b =>
         tick (set_db_relations
                 (filter (fun x => negb (rel_id x =? id_)) (db_relations b)) b)))
  else throw notFound.

End relations_collection.

(** Modelled from the spec: the requests on the [conversations]
    collection. *)
Module conversations_collection.

Definition getList (filter_ : IConversation -> bool)
           (sort : option (IConversation -> IConversation -> bool))
           (page perPage : nat) : M (list IConversation) :=
  request (GetList Conversations) ;;
  b <- backend id ;;
  ret (map (expand_conversation b)
           (page_of page perPage (sort_by sort (filter filter_ (db_conversations b))))).

Definition getOne (id_ : string) : M IConversation :=
  request (GetOne Conversations id_) ;;
  b <- backend id ;;
  match find (fun c => conv_id c =? id_) (db_conversations b) with
  | Some c => ret (expand_conversation b c)
  | None => throw notFound
  end.

Definition create (ps : list string) : M IConversation :=
  request (Create Conversations) ;;
  b <- backend id ;;
  let c := mkConversation (fresh_id b) ps (db_clock b) (db_clock b) None in
  modify (with_pb (fun b => next_id (tick (set_db_conversations (db_conversations b ++ [c]) b)))) ;;
  ret (expand_conversation b c).

(** [update(id, { updated })]: the record's [updated] stamp is bumped. *)
Definition update (id_ : string) : M IConversation :=
  request (Update Conversations id_) ;;
  b <- backend id ;;
  match find (fun c => conv_id c =? id_) (db_conversations b) with
  | Some c =>
      let upd := set_conv_updated (db_clock b) in
      modify (with_pb (fun b =>
        tick (set_db_conversations
                (map (fun x => if conv_id x =? id_ then upd x else x) (db_conversations b)) b))) ;;
      ret (upd c)
  | None => throw notFound
  end.

End conversations_collection.

(** Modelled from the spec: the requests on the [messages] collection. *)
Module messages_collection.

(** [create({ text, user, conversation })]. *)
Definition create (text user_ conversation : string) : M IMessage :=
  request (Create Messages) ;;
  b <- backend id ;;
  let m := mkMessage (fresh_id b) (Some text) user_ (Some conversation)
                     None None None None None (db_clock b) (db_clock b)
                     None None None in
  modify (with_pb (fun b => next_id (tick (set_db_messages (db_messages b ++ [m]) b)))) ;;
  ret m.

(** [expand: 'user']. *)
Definition expand_message (b : Backend) (m : IMessage) : IMessage :=
  mkMessage (msg_id m) (msg_text m) (msg_user m) (msg_conversation m)
            (msg_file m) (msg_fileType m) (msg_fileName m) (msg_fileSize m)
            (msg_thumbnail m) (msg_created m) (msg_updated m)
            (find_user b (msg_user m))
            (msg_collectionId m) (msg_collectionName m).

Definition getList (filter_ : IMessage -> bool)
           (sort : option (IMessage -> IMessage -> bool))
           (page perPage : nat) : M (list IMessage) :=
  request (GetList Messages) ;;
  b <- backend id ;;
  ret (map (expand_message b)
           (page_of page perPage (sort_by sort (filter filter_ (db_messages b))))).

(** [update(id, { text })]. *)
Definition update (id_ : string) (text : string) : M IMessage :=
  request (Update Messages id_) ;;
  b <- backend id ;;
  match find (fun m => msg_id m =? id_) (db_messages b) with
  | Some m =>
      let upd := fun x : IMessage =>
        mkMessage (msg_id x) (Some text) (msg_user x) (msg_conversation x)
                  (msg_file x) (msg_fileType x) (msg_fileName x) (msg_fileSize x)
                  (msg_thumbnail x) (msg_created x) (db_clock b) (msg_expand x)
                  (msg_collectionId x) (msg_collectionName x) in
      modify (with_pb (fun b =>
        tick (set_db_messages
                (map (fun x => if msg_id x =? id_ then upd x else x) (db_messages b)) b))) ;;
      ret (upd m)
  | None => throw notFound
  end.

Definition delete (id_ : string) : M unit :=
  request (Delete Messages id_) ;;
  b <- backend id ;;
  if existsb (fun m => msg_id m =? id_) (db_messages b)
  then modify (with_pb (fun b =>
         tick (set_db_messages
                 (filter (fun x => negb (msg_id x =? id_)) (db_messages b)) b)))
  else throw notFound.

End messages_collection.

(** Modelled from the spec: the requests on the [users] collection. *)
Module users_collection.

Definition getOne (id_ : string) : M IAuthUser :=
  request (GetOne Users id_) ;;
  b <- backend id ;;
  match find_user b id_ with
  | Some u => ret u
  | None => throw notFound
  end.

Definition getList (filter_ : IAuthUser -> bool) (page perPage : nat)
  : M (list IAuthUser) :=
  request (GetList Users) ;;
  b <- backend id ;;
  ret (page_of page perPage (filter filter_ (db_users b))).

End users_collection.

(** ** [RelationService] ([relation-service.ts]) *)

Definition RelationType_eqb (a b : RelationType) : bool :=
  match a, b with
  | friend, friend | blocked, blocked
  | pending_sent, pending_sent | pending_received, pending_received => true
  | _, _ => false
  end.

(** [===] on computed relation types. *)
Definition type_eqb (a b : ComputedRelationType) : bool :=
  match a, b with
  | stored x, stored y => RelationType_eqb x y
  | no_relation, no_relation => true
  | _, _ => false
  end.

(** The text of a computed type in a template string. *)
Definition type_name (t : ComputedRelationType) : string :=
  match t with
  | stored friend => "friend"
  | stored blocked => "blocked"
  | stored pending_sent => "pending_sent"
  | stored pending_received => "pending_received"
  | no_relation => "no_relation"
  end.

Inductive Action := create | update | delete.

Definition set_relation_fields (t : RelationType) (upd : nat)
           (e : option RelationExpand) (r : IRelation) : IRelation :=
  mkRelation (rel_id r) (from_user r) (to_user r) t (rel_created r) upd e.

(** [!record.expand?.from_user || !record.expand?.to_user]. *)
Definition lacks_expand (record : IRelation) : bool :=
  match rel_expand record with
  | Some e => match expand_from_user e, expand_to_user e with
              | Some _, Some _ => false
              | _, _ => true
              end
  | None => true
  end.

(** [sort: '-created']. *)
Definition created_desc (a b : IRelation) : bool :=
  (rel_created b <=? rel_created a)%nat.

Module RelationService.

Definition errorSignal_set (e : option string) : M unit :=
  modify (with_relationService (set_rel_error e)).

Definition loadingSignal_set (b : bool) : M unit :=
  modify (with_relationService (set_rel_loading b)).

(** The [catch] block shared by the mutating methods. *)
Definition rethrow {A} (context defaultMessage : string) (error : JsError) : M A :=
  let errorMessage := handleError context error defaultMessage in
  errorSignal_set (Some errorMessage) ;;
  throw (Error errorMessage).

Definition fetchRelations : M unit :=
  currentUser <- user ;;
  match currentUser with
  | None => ret tt
  | Some me =>
      try_finally
        (try_catch
           (loadingSignal_set true ;;
            errorSignal_set None ;;
            items <- relations_collection.getList
                       (fun r => (from_user r =? user_id me) || (to_user r =? user_id me))
                       (Some created_desc) 1 1000 true ;;
            relations_update (fun _ => items))
           (fun error =>
              errorSignal_set
                (Some (handleError "RelationService.fetchRelations" error
                                   "Failed to fetch relations"))))
        (loadingSignal_set false)
  end.

(** The status computed from a collection, as seen by [me]. *)
Definition statusIn (me : string) (rels : list IRelation) (userId : string) : IRelationStatus :=
  match find (fun r => (from_user r =? me) && (to_user r =? userId)) rels with
  | Some outgoing => mkStatus (rel_type outgoing) true (Some outgoing)
  | None =>
      match find (fun r => (from_user r =? userId) && (to_user r =? me)) rels with
      | Some incoming =>
          let type := if RelationType_eqb (rel_type incoming) pending_sent
                      then pending_received else rel_type incoming in
          mkStatus type false (Some incoming)
      | None => mkStatus no_relation false None
      end
  end.

(** [getRelationStatus] is synchronous and reads two signals. *)
Definition getRelationStatus (userId : string) (w : World) : IRelationStatus :=
  match authUser w with
  | None => mkStatus no_relation false None
  | Some currentUser =>
      statusIn (user_id currentUser) (relationsSignal (relationService w)) userId
  end.

Definition isBlockedByMe (userId : string) (w : World) : bool :=
  let status := getRelationStatus userId w in
  type_eqb (status_type status) blocked && isInitiatedByMe status.

Definition isBlockedBy (userId : string) (w : World) : bool :=
  let status := getRelationStatus userId w in
  type_eqb (status_type status) blocked && negb (isInitiatedByMe status).

Definition areFriends (userId : string) (w : World) : bool :=
  type_eqb (status_type (getRelationStatus userId w)) friend.

Definition getRelationStatusFromDB (userId : string) : M IRelationStatus :=
  currentUser <- user ;;
  match currentUser with
  | None => ret (mkStatus no_relation false None)
  | Some me =>
      try_catch
        (outgoingList <- relations_collection.getList
                           (fun r => (from_user r =? user_id me) && (to_user r =? userId))
                           None 1 1 false ;;
         match outgoingList with
         | outgoing :: _ => ret (mkStatus (rel_type outgoing) true (Some outgoing))
         | [] =>
             incomingList <- relations_collection.getList
                               (fun r => (from_user r =? userId) && (to_user r =? user_id me))
                               None 1 1 false ;;
             match incomingList with
             | incoming :: _ =>
                 let type := if RelationType_eqb (rel_type incoming) pending_sent
                             then pending_received else rel_type incoming in
                 ret (mkStatus type false (Some incoming))
             | [] => ret (mkStatus no_relation false None)
             end
         end)
        (fun _ => ret (mkStatus no_relation false None))
  end.

Definition sendFriendRequest (targetUserId : string) : M IRelation :=
  currentUser <- user ;;
  match currentUser with
  | None => throw (Error RELATION_ERRORS.not_authenticated)
  | Some me =>
      if user_id me =? targetUserId
      then throw (Error RELATION_ERRORS.cannot_relate_self)
      else
        status <- gets (getRelationStatus targetUserId) ;;
        if negb (type_eqb (status_type status) no_relation)
        then throw (Error ("Cannot send request: user status is "
                           ++ type_name (status_type status)))
        else
          try_catch
            (relation <- relations_collection.create (user_id me) targetUserId
                           pending_sent true ;;
             relations_update (fun prev => prev ++ [relation]) ;;
             ret relation)
            (rethrow "RelationService.sendFriendRequest" "Failed to send friend request")
  end.

Definition acceptFriendRequest (targetUserId : string) : M unit :=
  currentUser <- user ;;
  match currentUser with
  | None => throw (Error RELATION_ERRORS.not_authenticated)
  | Some me =>
      status <- gets (getRelationStatus targetUserId) ;;
      match relation status with
      | Some rel =>
          if negb (type_eqb (status_type status) pending_received)
          then throw (Error "No pending friend request from this user")
          else
            try_catch
              (let incomingRelationId := rel_id rel in
               updatedRelation <- relations_collection.update incomingRelationId friend true ;;
               relations_update
                 (map (fun r => if rel_id r =? incomingRelationId then updatedRelation else r)) ;;
               rels <- relations ;;
               match find (fun r => (from_user r =? user_id me) && (to_user r =? targetUserId))
                          rels with
               | Some outgoingRelation =>
                   _ <- relations_collection.update (rel_id outgoingRelation) friend true ;;
                   ret tt
               | None =>
                   _ <- relations_collection.create (user_id me) targetUserId friend true ;;
                   ret tt
               end ;;
               fetchRelations)
              (rethrow "RelationService.acceptFriendRequest"
                 "Failed to accept friend request. This may be due to insufficient backend permissions.")
      | None => throw (Error "No pending friend request from this user")
      end
  end.

Definition removeFriend (targetUserId : string) : M unit :=
  currentUser <- user ;;
  match currentUser with
  | None => throw (Error RELATION_ERRORS.not_authenticated)
  | Some me =>
      status <- gets (getRelationStatus targetUserId) ;;
      match relation status with
      | Some rel =>
          if negb (type_eqb (status_type status) friend)
          then throw (Error "User is not your friend")
          else
            try_catch
              (relations_collection.delete (rel_id rel) ;;
               rels <- relations ;;
               let reciprocal :=
                 find (fun r => (from_user r =? targetUserId) && (to_user r =? user_id me)
                                && RelationType_eqb (rel_type r) friend) rels in
               match reciprocal with
               | Some rc => relations_collection.delete (rel_id rc)
               | None => ret tt
               end ;;
               relations_update
                 (filter (fun r =>
                    negb (((rel_id r =? rel_id rel)
                           || match reciprocal with
                              | Some rc => rel_id r =? rel_id rc
                              | None => false
                              end)
                          && RelationType_eqb (rel_type r) friend))))
              (rethrow "RelationService.removeFriend" "Failed to remove friend")
      | None => throw (Error "User is not your friend")
      end
  end.

Definition blockUser (targetUserId : string) : M IRelation :=
  currentUser <- user ;;
  match currentUser with
  | None => throw (Error RELATION_ERRORS.not_authenticated)
  | Some me =>
      if user_id me =? targetUserId
      then throw (Error RELATION_ERRORS.cannot_relate_self)
      else
        try_catch
          (friends <- gets (areFriends targetUserId) ;;
           (if friends then removeFriend targetUserId else ret tt) ;;
           status <- gets (getRelationStatus targetUserId) ;;
           if type_eqb (status_type status) blocked && isInitiatedByMe status
           then throw (Error RELATION_ERRORS.already_blocked)
           else
             blockedRelation <-
               (if type_eqb (status_type status) blocked && negb (isInitiatedByMe status)
                then relations_collection.create (user_id me) targetUserId blocked true
                else match relation status with
                     | Some rel => relations_collection.update (rel_id rel) blocked false
                     | None => relations_collection.create (user_id me) targetUserId blocked true
                     end) ;;
             match relation status with
             | Some rel =>
                 relations_update
                   (map (fun r => if rel_id r =? rel_id rel then blockedRelation else r))
             | None => relations_update (fun prev => prev ++ [blockedRelation])
             end ;;
             ret blockedRelation)
          (rethrow "RelationService.blockUser" "Failed to block user")
  end.

Definition processingIds_has (id_ : string) (w : World) : bool :=
  existsb (String.eqb id_) (processingIds (relationService w)).

Definition processingIds_add (id_ : string) : M unit :=
  modify (with_relationService (fun s =>
    if existsb (String.eqb id_) (processingIds s) then s
    else set_processingIds (processingIds s ++ [id_]) s)).

Definition processingIds_delete (id_ : string) : M unit :=
  modify (with_relationService (fun s =>
    set_processingIds (filter (fun x => negb (x =? id_)) (processingIds s)) s)).

(** The record of the event is re-read with its expansion when that is
    missing; a failed re-read keeps the event's record. *)
Definition refetch (record : IRelation) : M IRelation :=
  if lacks_expand record
  then try_catch (relations_collection.getOne (rel_id record) true)
                 (fun _ => ret record)
  else ret record.

Definition handleRelationCreate (record : IRelation) : M unit :=
  busy <- gets (processingIds_has (rel_id record)) ;;
  if busy then ret tt
  else
    processingIds_add (rel_id record) ;;
    fun w =>
      (* [record] is reassigned inside [try]; [finally] reads it again *)
      match refetch record w with
      | (Ok record', w1) =>
          try_finally
            (rels <- relations ;;
             let exists_ := existsb (fun r => rel_id r =? rel_id record') rels in
             if negb exists_
             then relations_update (fun prev => prev ++ [record'])
             else ret tt)
            (processingIds_delete (rel_id record')) w1
      | (Throw e, w1) =>
          try_finally (throw e) (processingIds_delete (rel_id record)) w1
      end.

Definition handleRelationUpdate (record : IRelation) : M unit :=
  record <- refetch record ;;
  relations_update
    (map (fun r =>
       if rel_id r =? rel_id record
       then set_relation_fields (rel_type record) (rel_updated record)
              (match rel_expand record with Some e => Some e | None => rel_expand r end) r
       else r)).

Definition handleRelationDelete (record : IRelation) : M unit :=
  relations_update (filter (fun r => negb (rel_id r =? rel_id record))).

(** The callback given to [subscribe] by [subscribeToRelations];
    [currentUser] is the user captured when subscribing. *)
Definition onRelationEvent (currentUser : IAuthUser) (action : Action)
           (record : IRelation) : M unit :=
  if negb (from_user record =? user_id currentUser)
     && negb (to_user record =? user_id currentUser)
  then ret tt
  else match action with
       | create => handleRelationCreate record
       | update => handleRelationUpdate record
       | delete => handleRelationDelete record
       end.

(** The computed signals. *)
Definition friends (w : World) : list IRelation :=
  match authUser w with
  | None => []
  | Some currentUser =>
      filter (fun r => RelationType_eqb (rel_type r) friend
                       && ((from_user r =? user_id currentUser)
                           || (to_user r =? user_id currentUser)))
             (relationsSignal (relationService w))
  end.

Definition pendingRequestsSent (w : World) : list IRelation :=
  match authUser w with
  | None => []
  | Some currentUser =>
      filter (fun r => (from_user r =? user_id currentUser)
                       && RelationType_eqb (rel_type r) pending_sent)
             (relationsSignal (relationService w))
  end.

Definition pendingRequestsReceived (w : World) : list IRelation :=
  match authUser w with
  | None => []
  | Some currentUser =>
      filter (fun r => negb (from_user r =? user_id currentUser)
                       && (to_user r =? user_id currentUser)
                       && RelationType_eqb (rel_type r) pending_sent)
             (relationsSignal (relationService w))
  end.

Definition pendingRequestCount (w : World) : nat :=
  List.length (pendingRequestsReceived w).

Definition blockedUsers (w : World) : list IRelation :=
  match authUser w with
  | None => []
  | Some currentUser =>
      filter (fun r => (from_user r =? user_id currentUser)
                       && RelationType_eqb (rel_type r) blocked)
             (relationsSignal (relationService w))
  end.

Definition rejectFriendRequest (targetUserId : string) : M unit :=
  currentUser <- user ;;
  match currentUser with
  | None => throw (Error RELATION_ERRORS.not_authenticated)
  | Some _ =>
      status <- gets (getRelationStatus targetUserId) ;;
      match relation status with
      | Some rel =>
          if negb (type_eqb (status_type status) pending_received)
          then throw (Error "No pending friend request from this user")
          else try_catch
            (relations_collection.delete (rel_id rel) ;;
             relations_update (filter (fun r => negb (rel_id r =? rel_id rel))))
            (rethrow "RelationService.rejectFriendRequest" "Failed to reject friend request")
      | None => throw (Error "No pending friend request from this user")
      end
  end.

Definition cancelFriendRequest (targetUserId : string) : M unit :=
  currentUser <- user ;;
  match currentUser with
  | None => throw (Error RELATION_ERRORS.not_authenticated)
  | Some _ =>
      status <- gets (getRelationStatus targetUserId) ;;
      match relation status with
      | Some rel =>
          if negb (type_eqb (status_type status) pending_sent)
          then throw (Error "No outgoing friend request to this user")
          else try_catch
            (relations_collection.delete (rel_id rel) ;;
             relations_update (filter (fun r => negb (rel_id r =? rel_id rel))))
            (rethrow "RelationService.cancelFriendRequest" "Failed to cancel friend request")
      | None => throw (Error "No outgoing friend request to this user")
      end
  end.

Definition unblockUser (targetUserId : string) : M unit :=
  currentUser <- user ;;
  match currentUser with
  | None => throw (Error RELATION_ERRORS.not_authenticated)
  | Some _ =>
      status <- gets (getRelationStatus targetUserId) ;;
      match relation status with
      | Some rel =>
          if negb (type_eqb (status_type status) blocked)
             || negb (isInitiatedByMe status)
          then throw (Error "User is not blocked by you")
          else try_catch
            (relations_collection.delete (rel_id rel) ;;
             relations_update (filter (fun r => negb (rel_id r =? rel_id rel))))
            (rethrow "RelationService.unblockUser" "Failed to unblock user")
      | None => throw (Error "User is not blocked by you")
      end
  end.

End RelationService.

(** ** [String.prototype.trim]

    A JavaScript string is represented by the bytes of its UTF-8
    encoding.  [trim] removes, at both ends, the white space and the line
    terminators of ECMAScript: U+0009 to U+000D, U+0020, U+00A0, U+1680,
    U+2000 to U+200A, U+2028, U+2029, U+202F, U+205F, U+3000 and U+FEFF. *)

(** The one-byte ones: TAB, LF, VT, FF, CR and SPACE. *)
Definition is_space (c : ascii) : bool :=
  let n := nat_of_ascii c in
  (((9 <=? n) && (n <=? 13)) || (n =? 32))%nat.

(** The two-byte one: U+00A0 is C2 A0. *)
Definition is_space2 (c1 c2 : ascii) : bool :=
  ((nat_of_ascii c1 =? 194) && (nat_of_ascii c2 =? 160))%nat.

(** The three-byte ones: U+1680 is E1 9A 80; U+2000 to U+200A are
    E2 80 80 to E2 80 8A; U+2028 and U+2029 are E2 80 A8 and E2 80 A9;
    U+202F is E2 80 AF; U+205F is E2 81 9F; U+3000 is E3 80 80; U+FEFF is
    EF BB BF. *)
Definition is_space3 (c1 c2 c3 : ascii) : bool :=
  let n1 := nat_of_ascii c1 in
  let n2 := nat_of_ascii c2 in
  let n3 := nat_of_ascii c3 in
  (((n1 =? 225) && (n2 =? 154) && (n3 =? 128))
   || ((n1 =? 226) && (n2 =? 128)
       && (((128 <=? n3) && (n3 <=? 138)) || (n3 =? 168) || (n3 =? 169) || (n3 =? 175)))
   || ((n1 =? 226) && (n2 =? 129) && (n3 =? 159))
   || ((n1 =? 227) && (n2 =? 128) && (n3 =? 128))
   || ((n1 =? 239) && (n2 =? 187) && (n3 =? 191)))%nat.

Fixpoint trimStart (s : string) : string :=
  match s with
  | EmptyString => EmptyString
  | String c1 t1 =>
      if is_space c1 then trimStart t1
      else match t1 with
           | EmptyString => s
           | String c2 t2 =>
               if is_space2 c1 c2 then trimStart t2
               else match t2 with
                    | EmptyString => s
                    | String c3 t3 => if is_space3 c1 c2 c3 then trimStart t3 else s
                    end
           end
  end.

(** A string is white space only when [trimStart] leaves nothing of it;
    no white-space character starts with a continuation byte, so the test
    never succeeds in the middle of a character. *)
Fixpoint trimEnd (s : string) : string :=
  match s with
  | EmptyString => EmptyString
  | String c t =>
      match trimStart s with
      | EmptyString => EmptyString
      | _ => String c (trimEnd t)
      end
  end.

Definition trim (s : string) : string := trimEnd (trimStart s).

(** ** [ConversationService] ([conversation-service.ts]) *)

(** [Array.includes], and the backend's "contains element" filter [~] on a
    multi-valued field. *)
Definition includes (id_ : string) (l : list string) : bool :=
  existsb (String.eqb id_) l.

(** [sort: '-updated']. *)
Definition updated_desc (a b : IConversation) : bool :=
  (conv_updated b <=? conv_updated a)%nat.

(** The filter of the friendship query: a [friend] record in either
    direction between [me] and [other]. *)
Definition friendship_filter (me other : string) (r : IRelation) : bool :=
  ((from_user r =? me) && (to_user r =? other) && RelationType_eqb (rel_type r) friend)
  || ((from_user r =? other) && (to_user r =? me) && RelationType_eqb (rel_type r) friend).

(** [error?.message || fallback]. *)
Definition message_or (error : JsError) (fallback : string) : string :=
  if truthy (message error) then message error else fallback.

Module ConversationService.

Definition errorSignal_set (e : option string) : M unit :=
  modify (with_conversationService (set_conv_error e)).

Definition loadingSignal_set (b : bool) : M unit :=
  modify (with_conversationService (set_conv_loading b)).

Definition getOtherParticipant (conversation : IConversation) (w : World)
  : option IAuthUser :=
  match authUser w, conv_expand conversation with
  | Some currentUser, Some ps =>
      find (fun p => negb (user_id p =? user_id currentUser)) ps
  | _, _ => None
  end.

(** The [for ... of] loop of [fetchConversations]; [filteredConversations]
    is the array being filled. *)
Fixpoint filterConversations (currentUser : IAuthUser) (items : list IConversation)
         (filteredConversations : list IConversation) : M (list IConversation) :=
  match items with
  | [] => ret filteredConversations
  | conversation :: rest =>
      otherParticipant <- gets (getOtherParticipant conversation) ;;
      match otherParticipant with
      | None => filterConversations currentUser rest filteredConversations
      | Some other =>
          blockedByMe <- gets (RelationService.isBlockedByMe (user_id other)) ;;
          if blockedByMe
          then filterConversations currentUser rest filteredConversations
          else
            blockedBy <- gets (RelationService.isBlockedBy (user_id other)) ;;
            if blockedBy
            then filterConversations currentUser rest filteredConversations
            else
              kept <- try_catch
                        (friendshipRelations <-
                           relations_collection.getList
                             (friendship_filter (user_id currentUser) (user_id other))
                             None 1 1 false ;;
                         if (0 <? List.length friendshipRelations)%nat
                         then ret (filteredConversations ++ [conversation])
                         else ret filteredConversations)
                        (fun _ => ret filteredConversations) ;;
              filterConversations currentUser rest kept
      end
  end.

Definition fetchConversations : M unit :=
  currentUser <- user ;;
  match currentUser with
  | None => ret tt
  | Some me =>
      try_finally
        (try_catch
           (loadingSignal_set true ;;
            errorSignal_set None ;;
            items <- conversations_collection.getList
                       (fun c => includes (user_id me) (participants c))
                       (Some updated_desc) 1 50 ;;
            filteredConversations <- filterConversations me items [] ;;
            conversations_update (fun _ => filteredConversations))
           (fun error =>
              errorSignal_set (Some (message_or error "Failed to fetch conversations"))))
        (loadingSignal_set false)
  end.

Definition getOrCreateConversation (otherUserId : string) : M IConversation :=
  currentUser <- user ;;
  match currentUser with
  | None => throw (Error "User not authenticated")
  | Some me =>
      relationStatus <- gets (RelationService.getRelationStatus otherUserId) ;;
      if negb (type_eqb (status_type relationStatus) friend)
      then throw (Error "You can only chat with friends. Send a friend request first.")
      else
        try_catch
          (existingConversations <-
             conversations_collection.getList
               (fun c => includes (user_id me) (participants c)
                         && includes otherUserId (participants c))
               None 1 1 ;;
           match existingConversations with
           | existing :: _ => ret existing
           | [] =>
               newConversation <-
                 conversations_collection.create [user_id me; otherUserId] ;;
               conversations_update (fun prev => newConversation :: prev) ;;
               ret newConversation
           end)
          (fun error =>
             let errorMessage := message_or error "Failed to create conversation" in
             errorSignal_set (Some errorMessage) ;;
             throw (Error errorMessage))
  end.

Definition remove_by_id (id_ : string) : M unit :=
  conversations_update (filter (fun c => negb (conv_id c =? id_))).

Definition handleConversationCreateOrUpdate (record : IConversation) : M unit :=
  try_catch
    (fullRecord <- conversations_collection.getOne (conv_id record) ;;
     currentUser <- user ;;
     otherParticipant <- gets (getOtherParticipant fullRecord) ;;
     match currentUser, otherParticipant with
     | Some me, Some other =>
         isBlockedByMe <- gets (RelationService.isBlockedByMe (user_id other)) ;;
         hasBlockedMe <- gets (RelationService.isBlockedBy (user_id other)) ;;
         if isBlockedByMe || hasBlockedMe
         then remove_by_id (conv_id fullRecord)
         else
           (* [true] when the inner [try] falls through to the update *)
           friends <- try_catch
                        (friendshipRelations <-
                           relations_collection.getList
                             (friendship_filter (user_id me) (user_id other))
                             None 1 1 false ;;
                         if (List.length friendshipRelations =? 0)%nat
                         then remove_by_id (conv_id fullRecord) ;; ret false
                         else ret true)
                        (fun _ => remove_by_id (conv_id fullRecord) ;; ret false) ;;
           if friends
           then conversations_update (fun prev =>
                  let exists_ := existsb (fun c => conv_id c =? conv_id fullRecord) prev in
                  if exists_
                  then map (fun c => if conv_id c =? conv_id fullRecord
                                     then fullRecord else c) prev
                  else fullRecord :: prev)
           else ret tt
     | _, _ => remove_by_id (conv_id fullRecord)
     end)
    (fun _ => ret tt).

Definition handleConversationDelete (record : IConversation) : M unit :=
  remove_by_id (conv_id record).

(** The callback given to [subscribe] by [subscribeToConversations]. *)
Definition onConversationEvent (currentUser : IAuthUser) (action : Action)
           (record : IConversation) : M unit :=
  if negb (includes (user_id currentUser) (participants record))
  then ret tt
  else match action with
       | create | update => handleConversationCreateOrUpdate record
       | delete => handleConversationDelete record
       end.

Definition getConversationById (conversationId : string) : M (option IConversation) :=
  try_catch
    (conversation <- conversations_collection.getOne conversationId ;;
     ret (Some conversation))
    (fun _ => ret None).

(** [searchUsers]; the filter [username ~ query] is read as "the user
    name contains the query" (spec, section 6). *)
Definition searchUsers (query : string) : M (list IAuthUser) :=
  currentUser <- user ;;
  match currentUser with
  | None => ret []
  | Some me =>
      try_catch
        (if negb (truthy (trim query)) then ret []
         else
           items <- users_collection.getList
                      (fun u => match index 0 query (username u) with
                                | Some _ => true
                                | None => false
                                end
                                && negb (user_id u =? user_id me))
                      1 10 ;;
           ret (map (fun record => mkUser (user_id record) (email record)
                                          (username record) (avatar record))
                    items))
        (fun _ => ret [])
  end.

End ConversationService.

(** ** [ChatService] ([chat-service.ts]) *)

Definition set_expand_user (u : IAuthUser) (m : IMessage) : IMessage :=
  mkMessage (msg_id m) (msg_text m) (msg_user m) (msg_conversation m)
            (msg_file m) (msg_fileType m) (msg_fileName m) (msg_fileSize m)
            (msg_thumbnail m) (msg_created m) (msg_updated m) (Some u)
            (msg_collectionId m) (msg_collectionName m).

Definition set_text (text : option string) (upd : nat) (m : IMessage) : IMessage :=
  mkMessage (msg_id m) text (msg_user m) (msg_conversation m)
            (msg_file m) (msg_fileType m) (msg_fileName m) (msg_fileSize m)
            (msg_thumbnail m) (msg_created m) upd (msg_expand m)
            (msg_collectionId m) (msg_collectionName m).

Module ChatService.

Definition errorSignal_set (e : option string) : M unit :=
  modify (with_chatService (set_chat_error e)).

Definition checkBlockStatus (conversationId : string) : M unit :=
  currentUser <- user ;;
  match currentUser with
  | None => ret tt
  | Some me =>
      try_catch
        (conversation <- ConversationService.getConversationById conversationId ;;
         match conversation with
         | None => throw (Error "Conversation not found")
         | Some c =>
             match find (fun id_ => negb (id_ =? user_id me)) (participants c) with
             | None => throw (Error "Cannot determine other participant")
             | Some otherUserId =>
                 blockedByMe <- gets (RelationService.isBlockedByMe otherUserId) ;;
                 if blockedByMe
                 then throw (Error "You have blocked this user. Unblock them to send messages.")
                 else
                   blockedBy <- gets (RelationService.isBlockedBy otherUserId) ;;
                   if blockedBy
                   then throw (Error "This user has blocked you. You cannot send messages.")
                   else ret tt
             end
         end)
        (fun error => throw error)
  end.

Definition sendMessage (conversationId text : string) : M IMessage :=
  currentUser <- user ;;
  match currentUser with
  | None => throw (Error "User not authenticated")
  | Some me =>
      if negb (truthy (trim text))
      then throw (Error "Message text cannot be empty")
      else
        try_catch
          (checkBlockStatus conversationId ;;
           createdMessage <- messages_collection.create (trim text) (user_id me)
                               conversationId ;;
           _ <- conversations_collection.update conversationId ;;
           ret createdMessage)
          (fun error =>
             let errorMessage :=
               handleError "ChatService.sendMessage" error "Failed to send message" in
             errorSignal_set (Some errorMessage) ;;
             throw (Error errorMessage))
  end.

Definition handleMessageCreate (record : IMessage) : M unit :=
  try_catch
    (record <- match msg_expand record with
               | Some _ => ret record
               | None =>
                   userRecord <- users_collection.getOne (msg_user record) ;;
                   ret (set_expand_user
                          (mkUser (user_id userRecord) (email userRecord)
                                  (username userRecord) (avatar userRecord))
                          record)
               end ;;
     let newMessage :=
       mkMessage (msg_id record) (msg_text record) (msg_user record)
                 (msg_conversation record) (msg_file record) (msg_fileType record)
                 (msg_fileName record) (msg_fileSize record) (msg_thumbnail record)
                 (msg_created record) (msg_updated record) (msg_expand record)
                 (Some "messages") (Some "messages") in
     msgs <- messages ;;
     let exists_ := existsb (fun m => msg_id m =? msg_id newMessage) msgs in
     if negb exists_
     then messages_update (fun prev => prev ++ [newMessage])
     else ret tt)
    (fun _ => ret tt).

Definition handleMessageUpdate (record : IMessage) : M unit :=
  messages_update
    (map (fun m => if msg_id m =? msg_id record
                   then set_text (msg_text record) (msg_updated record) m else m)).

Definition handleMessageDelete (record : IMessage) : M unit :=
  messages_update (filter (fun m => negb (msg_id m =? msg_id record))).

(** The callback given to [subscribe] by [subscribeToMessages]. *)
Definition onMessageEvent (conversationId : string) (action : Action)
           (record : IMessage) : M unit :=
  match msg_conversation record with
  | Some c =>
      if negb (c =? conversationId) then ret tt
      else match action with
           | create => handleMessageCreate record
           | update => handleMessageUpdate record
           | delete => handleMessageDelete record
           end
  | None => ret tt
  end.

Definition loadingSignal_set (b : bool) : M unit :=
  modify (with_chatService (set_chat_loading b)).

(** [sort: 'created']. *)
Definition created_asc (a b : IMessage) : bool :=
  (msg_created a <=? msg_created b)%nat.

Definition fetchMessages (conversationId : string) (page perPage : nat) : M unit :=
  try_finally
    (try_catch
       (loadingSignal_set true ;;
        errorSignal_set None ;;
        items <- messages_collection.getList
                   (fun m => match msg_conversation m with
                             | Some c => c =? conversationId
                             | None => false
                             end)
                   (Some created_asc) page perPage ;;
        messages_update (fun _ => items))
       (fun error =>
          errorSignal_set
            (Some (handleError "ChatService.fetchMessages" error
                               "Failed to fetch messages"))))
    (loadingSignal_set false).

Definition deleteMessage (messageId : string) : M unit :=
  try_catch
    (messages_collection.delete messageId)
    (fun error =>
       let errorMessage :=
         handleError "ChatService.deleteMessage" error "Failed to delete message" in
       errorSignal_set (Some errorMessage) ;;
       throw (Error errorMessage)).

Definition updateMessage (messageId text : string) : M IMessage :=
  try_catch
    (messages_collection.update messageId (trim text))
    (fun error =>
       let errorMessage :=
         handleError "ChatService.updateMessage" error "Failed to update message" in
       errorSignal_set (Some errorMessage) ;;
       throw (Error errorMessage)).

Definition clearMessages : M unit := messages_update (fun _ => []).

End ChatService.

(** ** Views and invariants used in the statements *)

(** A client that has just started for [u] on backend [b]. *)
Definition client (u : IAuthUser) (b : Backend) : World :=
  mkWorld (Some u)
          (mkRelationStore [] false None [] [])
          (mkConversationStore [] false None)
          (mkChatStore [] false None)
          b.

(** A client whose relation collection is [rels]. *)
Definition client_with (u : IAuthUser) (rels : list IRelation) (b : Backend) : World :=
  mkWorld (Some u)
          (mkRelationStore rels false None [] [])
          (mkConversationStore [] false None)
          (mkChatStore [] false None)
          b.

(** [r] is an edge from [a] to [b]. *)
Definition edge (a b : string) (r : IRelation) : Prop :=
  from_user r = a /\ to_user r = b.

(** The reading of an incoming edge's kind by its receiver. *)
Definition as_received (t : RelationType) : RelationType :=
  match t with
  | pending_sent => pending_received
  | _ => t
  end.

(** ** Scenario used for the concrete runs *)

Module Scenario.

Definition alice : IAuthUser := mkUser "U1" "alice@example.org" "alice" None.
Definition bob : IAuthUser := mkUser "U2" "bob@example.org" "bob" None.

Definition empty_backend : Backend :=
  mkBackend [alice; bob] [] [] [] 0 0 [] [].

Definition request_edge : IRelation :=
  mkRelation "r1" "U1" "U2" pending_sent 0 0 None.

(** A backend holding [rels], with the fault schedule [faults]. *)
Definition backend_with (rels : list IRelation) (faults : list bool) : Backend :=
  mkBackend [alice; bob] rels [] [] 1 0 faults [].

(** The conversation of alice and bob, as stored and as held by a
    client. *)
Definition chat_record : IConversation :=
  mkConversation "c1" ["U1"; "U2"] 1 1 None.

Definition chat_entry : IConversation :=
  mkConversation "c1" ["U1"; "U2"] 1 1 (Some [alice; bob]).

Definition friend_edge (id_ from to : string) : IRelation :=
  mkRelation id_ from to friend 0 0 None.

Definition blocked_edge (id_ from to : string) : IRelation :=
  mkRelation id_ from to blocked 0 0 None.

(** A client of [u] holding [rels] and [convs], on a backend holding
    [stored] and the conversation [chats], without scheduled faults. *)
Definition world (u : IAuthUser) (rels : list IRelation) (convs : list IConversation)
           (stored : list IRelation) (chats : list IConversation) : World :=
  mkWorld (Some u)
          (mkRelationStore rels false None [] [])
          (mkConversationStore convs false None)
          (mkChatStore [] false None)
          (mkBackend [alice; bob] stored chats [] 2 0 [] []).

(** Alice still lists the conversation, the friendship is gone. *)
Definition revoked : World := world alice [] [chat_entry] [] [chat_record].

(** Alice keeps a [friend] edge towards bob, who has blocked her. *)
Definition masked_relations : list IRelation :=
  [friend_edge "r1" "U1" "U2"; blocked_edge "r2" "U2" "U1"].

Definition masked : World :=
  world alice masked_relations [chat_entry] masked_relations [chat_record].

(** Bob has blocked alice; alice's collection holds his edge. *)
Definition blocked_by_bob : World :=
  world alice [blocked_edge "r2" "U2" "U1"] [] [blocked_edge "r2" "U2" "U1"] [].

(** Alice and bob are friends in both directions and have no
    conversation yet. *)
Definition friend_edges : list IRelation :=
  [friend_edge "r1" "U1" "U2"; friend_edge "r2" "U2" "U1"].

Definition friends : World := world alice friend_edges [] friend_edges [].

(** Only alice's [friend] edge towards bob exists; the conversation is
    stored. *)
Definition one_sided : World :=
  world alice [friend_edge "r1" "U1" "U2"] [] [friend_edge "r1" "U1" "U2"] [chat_record].

(** Mutual friends with their conversation stored, not yet listed. *)
Definition friends_chat : World :=
  world alice friend_edges [] friend_edges [chat_record].

(** Bob has received alice's request. *)
Definition pending : World := world bob [request_edge] [] [request_edge] [].


(** Bob has blocked alice; his own client. *)
Definition bob_blocks : World :=
  world bob [blocked_edge "r2" "U2" "U1"] [] [blocked_edge "r2" "U2" "U1"] [].


(** As [world], with the fault schedule [faults]. *)
Definition faulty (u : IAuthUser) (rels stored : list IRelation) (faults : list bool)
  : World :=
  mkWorld (Some u)
          (mkRelationStore rels false None [] [])
          (mkConversationStore [] false None)
          (mkChatStore [] false None)
          (mkBackend [alice; bob] stored [] [] 2 0 faults []).


(** A stored message of alice in the conversation [c1]. *)
Definition note (id_ : string) (created : nat) : IMessage :=
  mkMessage id_ (Some "hello") "U1" (Some "c1") None None None None None
            created created None None None.

(** Mutual friends whose conversation holds three messages, stored in the
    order [m1], [m2], [m3] and written at times 5, 3 and 9. *)
Definition chat_history : World :=
  mkWorld (Some alice)
          (mkRelationStore friend_edges false None [] [])
          (mkConversationStore [chat_entry] false None)
          (mkChatStore [] false None)
          (mkBackend [alice; bob] friend_edges [chat_record]
                     [note "m1" 5; note "m2" 3; note "m3" 9] 10 0 [] []).


(** White space only: a space, U+00A0 (C2 A0) and U+3000 (E3 80 80). *)
Definition blank_text : string :=
  String " " (string_of_list_ascii (map ascii_of_nat [194; 160; 227; 128; 128])).

(** The text [ok] between U+00A0 and U+2028 (E2 80 A8). *)
Definition padded_text : string :=
  string_of_list_ascii (map ascii_of_nat [194; 160; 111; 107; 226; 128; 168]).

End Scenario.

(** The stored form of a record returned with its expansion. *)
Definition unexpanded (r : IRelation) : IRelation :=
  mkRelation (rel_id r) (from_user r) (to_user r) (rel_type r)
             (rel_created r) (rel_updated r) None.

(** The status returned when nothing relates the two users. *)
Definition no_status : IRelationStatus := mkStatus no_relation false None.

(** What a list request on the relations returns from backend [b]. *)
Definition listed_relations (filter_ : IRelation -> bool)
           (sort : option (IRelation -> IRelation -> bool))
           (page perPage : nat) (expand : bool) (b : Backend) : list IRelation :=
  map (with_expand expand b)
      (page_of page perPage (sort_by sort (filter filter_ (db_relations b)))).

(** What a list request on the conversations returns from backend [b]. *)
Definition listed_conversations (filter_ : IConversation -> bool)
           (sort : option (IConversation -> IConversation -> bool))
           (page perPage : nat) (b : Backend) : list IConversation :=
  map (expand_conversation b)
      (page_of page perPage (sort_by sort (filter filter_ (db_conversations b)))).

(** The number of entries of a conversation collection with identifier [i]. *)
Definition occurrences (i : string) (l : list IConversation) : nat :=
  List.length (filter (fun c => conv_id c =? i) l).

(** Insert-or-replace by identifier: the last step of
    [handleConversationCreateOrUpdate]. *)
Definition upsert (fullRecord : IConversation) (prev : list IConversation)
  : list IConversation :=
  if existsb (fun c => conv_id c =? conv_id fullRecord) prev
  then map (fun c => if conv_id c =? conv_id fullRecord then fullRecord else c) prev
  else fullRecord :: prev.

(** Removal by identifier. *)
Definition without (i : string) (prev : list IConversation) : list IConversation :=
  filter (fun c => negb (conv_id c =? i)) prev.



(** The filter of [getOrCreateConversation]: both users participate. *)
Definition pair_filter (me other : string) (c : IConversation) : bool :=
  includes me (participants c) && includes other (participants c).

(** [r] links [a] and [b], in either direction. *)
Definition between (a b : string) (r : IRelation) : Prop :=
  edge a b r \/ edge b a r.

(** A collection holds an edge of kind [k] between [a] and [b]. *)
Definition has_kind (k : RelationType) (a b : string) (rels : list IRelation) : Prop :=
  exists r, In r rels /\ between a b r /\ rel_type r = k.

(** Data-model invariant: at most one record per ordered pair. *)
Definition one_per_pair (rels : list IRelation) : Prop :=
  forall r1 r2, In r1 rels -> In r2 rels ->
                from_user r1 = from_user r2 -> to_user r1 = to_user r2 -> r1 = r2.

(** Mutual friendship: a [friend] edge in each direction. *)
Definition mutual_friends (a b : string) (rels : list IRelation) : Prop :=
  (exists r, In r rels /\ edge a b r /\ rel_type r = friend)
  /\ (exists r, In r rels /\ edge b a r /\ rel_type r = friend).

(** No [blocked] edge from [b] to [a] is hidden behind an edge from [a]
    to [b] of another kind: where the collection holds an edge in each
    direction and the one from [b] is [blocked], the one from [a] is
    [blocked] too. *)
Definition no_hidden_block (a b : string) (rels : list IRelation) : Prop :=
  forall out inc, In out rels -> edge a b out -> In inc rels -> edge b a inc ->
                  rel_type inc = blocked -> rel_type out = blocked.

(** The filter applied to the collection by [removeFriend]. *)
Definition friendship_removed (out inc : IRelation) (rels : list IRelation) : list IRelation :=
  filter (fun r => negb (((rel_id r =? rel_id out) || (rel_id r =? rel_id inc))
                         && RelationType_eqb (rel_type r) friend)) rels.

(** The visibility test the conversation index applies to one record:
    the other participant is known, the computed status towards them is
    not [blocked], and the backend holds a [friend] record between the two
    users in one direction or the other. *)
Definition passes (me : IAuthUser) (w : World) (c : IConversation) : bool :=
  match ConversationService.getOtherParticipant c w with
  | Some other =>
      negb (RelationService.isBlockedByMe (user_id other) w)
      && negb (RelationService.isBlockedBy (user_id other) w)
      && existsb (friendship_filter (user_id me) (user_id other)) (db_relations (pb w))
  | None => false
  end.

(** Two states that differ at most in the backend's log, fault schedule,
    clock and counter. *)
Definition same_data (w w' : World) : Prop :=
  authUser w' = authUser w
  /\ relationService w' = relationService w
  /\ conversationService w' = conversationService w
  /\ chatService w' = chatService w
  /\ db_users (pb w') = db_users (pb w)
  /\ db_relations (pb w') = db_relations (pb w)
  /\ db_conversations (pb w') = db_conversations (pb w)
  /\ db_messages (pb w') = db_messages (pb w).

(** The page of conversations read by [fetchConversations]. *)
Definition fetched (me : IAuthUser) (b : Backend) : list IConversation :=
  listed_conversations (fun c => includes (user_id me) (participants c))
                       (Some updated_desc) 1 50 b.

(** The filter of [fetchRelations]: the records that touch [me]. *)
Definition touches (me : string) (r : IRelation) : bool :=
  (from_user r =? me) || (to_user r =? me).

(** The page of relations a client of [me] reads with [fetchRelations]. *)
Definition fetched_relations (me : string) (b : Backend) : list IRelation :=
  listed_relations (touches me) (Some created_desc) 1 1000 true b.

(** Two copies of one record: same identifier and same endpoints. *)
Definition same_edge (r s : IRelation) : Prop :=
  rel_id r = rel_id s /\ from_user r = from_user s /\ to_user r = to_user s.

(** The collection of [me] mirrors the stored relations that touch [me]. *)
Definition mirrors (me : string) (rels stored : list IRelation) : Prop :=
  (forall r, In r rels -> exists s, In s stored /\ same_edge r s)
  /\ (forall s, In s stored -> touches me s = true ->
                exists r, In r rels /\ same_edge r s).

(** Data-model invariant: [pending_received] is a view, never a stored
    kind. *)
Definition never_received (rels : list IRelation) : Prop :=
  forall r, In r rels -> rel_type r <> pending_received.

(** The stored relations that touch [me] fit in one page of
    [fetchRelations], also after one more is created. *)
Definition fits_page (me : string) (b : Backend) : Prop :=
  List.length (filter (touches me) (db_relations b)) < 1000.

(** The backend's write for [update(id, { type })] on one record. *)
Definition retyped (i : string) (t : RelationType) (now : nat) (x : IRelation) : IRelation :=
  if rel_id x =? i then set_rel_type t now x else x.

(** ** File utilities ([file.utils.ts])

    [toLowerCase] lowers the ASCII letters and leaves every other byte as
    it is.  On a string of ASCII characters this is
    [String.prototype.toLowerCase]; JavaScript also lowers the letters
    outside ASCII (U+212A becomes [k]), which this definition leaves as
    they are.  The extensions compared below are ASCII, and a statement
    that depends on how a character is lowered is made for strings of
    ASCII characters ([ascii_only]) or for the lowering of ASCII letters
    only. *)

Definition lower (c : ascii) : ascii :=
  let n := nat_of_ascii c in
  if ((65 <=? n) && (n <=? 90))%nat then ascii_of_nat (n + 32) else c.

Fixpoint toLowerCase (s : string) : string :=
  match s with
  | EmptyString => EmptyString
  | String c t => String (lower c) (toLowerCase t)
  end.

(** [String.prototype.endsWith]. *)
Definition endsWith (s suffix : string) : bool :=
  (String.length suffix <=? String.length s)%nat
  && (substring (String.length s - String.length suffix) (String.length suffix) s
      =? suffix).

(** [String.prototype.split] on a one-character separator. *)
Fixpoint split (sep : ascii) (s : string) : list string :=
  match s with
  | EmptyString => [EmptyString]
  | String c t =>
      if Ascii.eqb c sep then EmptyString :: split sep t
      else match split sep t with
           | part :: parts => String c part :: parts
           | [] => [String c EmptyString]
           end
  end.

Definition getDocumentIcon (fileName : option string) : string :=
  match fileName with
  | None => "lucideFile"
  | Some name =>
      if negb (truthy name) then "lucideFile"
      else
        let lowerName := toLowerCase name in
        if endsWith lowerName ".zip" || endsWith lowerName ".rar"
           || endsWith lowerName ".7z" || endsWith lowerName ".tar"
           || endsWith lowerName ".gz"
        then "lucideFileArchive"
        else if endsWith lowerName ".txt" || endsWith lowerName ".doc"
                || endsWith lowerName ".docx" || endsWith lowerName ".pdf"
        then "lucideFileText"
        else "lucideFile"
  end.

Definition getFileIcon (fileType : option FileType) (fileName : option string) : string :=
  match fileType with
  | Some image => "lucideImage"
  | Some video => "lucideVideo"
  | Some audio => "lucideMusic"
  | Some document => getDocumentIcon fileName
  | None => "lucideFile"
  end.

Definition getFileExtension (fileName : string) : string :=
  let parts := split "."%char fileName in
  if (1 <? List.length parts)%nat then toLowerCase (last parts EmptyString)
  else EmptyString.

Definition isImageFile (fileName : string) : bool :=
  includes (getFileExtension fileName)
           ["jpg"; "jpeg"; "png"; "gif"; "webp"; "svg"; "bmp"].

Definition isVideoFile (fileName : string) : bool :=
  includes (getFileExtension fileName)
           ["mp4"; "webm"; "ogg"; "mov"; "avi"; "mkv"].

Definition isAudioFile (fileName : string) : bool :=
  includes (getFileExtension fileName)
           ["mp3"; "wav"; "ogg"; "m4a"; "aac"; "flac"].

(** A string of ASCII characters only (every byte below 128). *)
Definition ascii_only (s : string) : Prop :=
  forall c, In c (list_ascii_of_string s) -> nat_of_ascii c < 128.


(** A run that left the backend's records, clock and counter alone: it
    sent read requests at most. *)
Definition reads_only (w w' : World) : Prop :=
  authUser w' = authUser w
  /\ db_users (pb w') = db_users (pb w)
  /\ db_relations (pb w') = db_relations (pb w)
  /\ db_conversations (pb w') = db_conversations (pb w)
  /\ db_messages (pb w') = db_messages (pb w)
  /\ db_clock (pb w') = db_clock (pb w)
  /\ db_nextId (pb w') = db_nextId (pb w).


(** [subseq k l]: [k] is [l] with some entries left out, the order kept. *)
Inductive subseq {A : Type} : list A -> list A -> Prop :=
| subseq_nil : subseq [] []
| subseq_skip (x : A) (k l : list A) : subseq k l -> subseq k (x :: l)
| subseq_keep (x : A) (k l : list A) : subseq k l -> subseq (x :: k) (x :: l).


(** ** [RelationActionButtonComponent] ([relation-action-button.ts])

    The component's own signals; the service's state is the [World]. *)
Record ButtonState := mkButton {
  btn_isLoadingSignal : bool;
  btn_relationStatusSignal : IRelationStatus
}.

Module RelationActionButtonComponent.

Definition buttonLabel (s : ButtonState) : string :=
  let status := btn_relationStatusSignal s in
  match status_type status with
  | no_relation => "Add Friend"
  | stored pending_sent => "Pending"
  | stored pending_received => "Accept"
  | stored friend => "Remove"
  | stored blocked => if isInitiatedByMe status then "Unblock" else "Blocked"
  end.

(** The [switch] of [handleAction]. *)
Definition dispatch (status : IRelationStatus) (userId : string) : M unit :=
  match status_type status with
  | no_relation => _ <- RelationService.sendFriendRequest userId ;; ret tt
  | stored pending_sent => RelationService.cancelFriendRequest userId
  | stored pending_received => RelationService.acceptFriendRequest userId
  | stored friend => RelationService.removeFriend userId
  | stored blocked =>
      if isInitiatedByMe status then RelationService.unblockUser userId else ret tt
  end.

(** [handleAction]: the [catch] block only logs to the console, and the
    [finally] block lowers the loading flag raised before the [try]. *)
Definition handleAction (userId : string) (s : ButtonState) (w : World)
  : ButtonState * World :=
  let status := btn_relationStatusSignal s in
  match (dispatch status userId ;;
         RelationService.fetchRelations ;;
         RelationService.getRelationStatusFromDB userId) w with
  | (Ok updatedStatus, w') => (mkButton false updatedStatus, w')
  | (Throw _, w') => (mkButton false status, w')
  end.

End RelationActionButtonComponent.

(** * Properties *)

(** ** Running the monad *)

Ltac mstep :=
  cbv [bind ret gets modify throw try_catch try_finally user backend
       relations relations_update conversations conversations_update
       messages messages_update].

Lemma type_eqb_eq (a b : ComputedRelationType) : type_eqb a b = true <-> a = b.
Proof.
  destruct a as [[]|], b as [[]|]; cbn; split; intros H;
    try reflexivity; try discriminate.
Qed.

Lemma type_eqb_neq (a b : ComputedRelationType) : type_eqb a b = false <-> a <> b.
Proof.
  rewrite <- type_eqb_eq. destruct (type_eqb a b); split; congruence.
Qed.

Lemma RelationType_eqb_eq (a b : RelationType) : RelationType_eqb a b = true <-> a = b.
Proof.
  destruct a, b; cbn; split; intros H; try reflexivity; try discriminate.
Qed.

Lemma as_received_eqb (t : RelationType) :
  (if RelationType_eqb t pending_sent then pending_received else t) = as_received t.
Proof. destruct t; reflexivity. Qed.

(** A request either fails with the transport error or goes through; in
    both cases it has arrived at the backend. *)
Lemma request_run (c : Call) (w : World) :
  request c w =
  if hd false (db_faults (pb w))
  then (Throw transportFailure, with_pb (arrive c) w)
  else (Ok tt, with_pb (arrive c) w).
Proof.
  unfold request. destruct (db_faults (pb w)) as [|[] fs]; reflexivity.
Qed.

Lemma relations_getList_run f s p n e (w : World) :
  relations_collection.getList f s p n e w =
  if hd false (db_faults (pb w))
  then (Throw transportFailure, with_pb (arrive (GetList Relations)) w)
  else (Ok (listed_relations f s p n e (pb w)),
        with_pb (arrive (GetList Relations)) w).
Proof.
  unfold relations_collection.getList. mstep. rewrite request_run.
  destruct (hd false (db_faults (pb w))); reflexivity.
Qed.

Lemma relations_getOne_run i e (w : World) :
  relations_collection.getOne i e w =
  if hd false (db_faults (pb w))
  then (Throw transportFailure, with_pb (arrive (GetOne Relations i)) w)
  else match find (fun r => rel_id r =? i) (db_relations (pb w)) with
       | Some r => (Ok (with_expand e (pb w) r), with_pb (arrive (GetOne Relations i)) w)
       | None => (Throw notFound, with_pb (arrive (GetOne Relations i)) w)
       end.
Proof.
  unfold relations_collection.getOne. mstep. rewrite request_run.
  destruct (hd false (db_faults (pb w))); [reflexivity|].
  cbn. destruct (find _ _); reflexivity.
Qed.

Lemma relations_create_run a b t e (w : World) :
  relations_collection.create a b t e w =
  if hd false (db_faults (pb w))
  then (Throw transportFailure, with_pb (arrive (Create Relations)) w)
  else
    let r := mkRelation (fresh_id (pb w)) a b t (db_clock (pb w)) (db_clock (pb w)) None in
    (Ok (with_expand e (pb w) r),
     with_pb (fun d => next_id (tick (set_db_relations (db_relations d ++ [r]) d)))
             (with_pb (arrive (Create Relations)) w)).
Proof.
  unfold relations_collection.create. mstep. rewrite request_run.
  destruct (hd false (db_faults (pb w))); reflexivity.
Qed.

Lemma relations_update_run i t e (w : World) :
  relations_collection.update i t e w =
  if hd false (db_faults (pb w))
  then (Throw transportFailure, with_pb (arrive (Update Relations i)) w)
  else match find (fun r => rel_id r =? i) (db_relations (pb w)) with
       | Some r =>
           (Ok (with_expand e (pb w) (set_rel_type t (db_clock (pb w)) r)),
            with_pb (fun d =>
              tick (set_db_relations
                      (map (fun x => if rel_id x =? i
                                     then set_rel_type t (db_clock (pb w)) x else x)
                           (db_relations d)) d))
              (with_pb (arrive (Update Relations i)) w))
       | None => (Throw notFound, with_pb (arrive (Update Relations i)) w)
       end.
Proof.
  unfold relations_collection.update. mstep. rewrite request_run.
  destruct (hd false (db_faults (pb w))); [reflexivity|].
  cbn. destruct (find _ _); reflexivity.
Qed.

Lemma relations_delete_run i (w : World) :
  relations_collection.delete i w =
  if hd false (db_faults (pb w))
  then (Throw transportFailure, with_pb (arrive (Delete Relations i)) w)
  else if existsb (fun r => rel_id r =? i) (db_relations (pb w))
       then (Ok tt,
             with_pb (fun d =>
               tick (set_db_relations
                       (filter (fun x => negb (rel_id x =? i)) (db_relations d)) d))
               (with_pb (arrive (Delete Relations i)) w))
       else (Throw notFound, with_pb (arrive (Delete Relations i)) w).
Proof.
  unfold relations_collection.delete. mstep. rewrite request_run.
  destruct (hd false (db_faults (pb w))); [reflexivity|].
  cbn. destruct (existsb _ _); reflexivity.
Qed.

Lemma found_users_arrive (c : Call) (b : Backend) (ids : list string) :
  found_users (arrive c b) ids = found_users b ids.
Proof.
  induction ids as [|i ids IH]; [reflexivity|].
  cbn [found_users]. rewrite IH. reflexivity.
Qed.

Lemma expand_conversation_arrive (c : Call) (b : Backend) (x : IConversation) :
  expand_conversation (arrive c b) x = expand_conversation b x.
Proof. unfold expand_conversation. rewrite found_users_arrive. reflexivity. Qed.

Lemma conversations_getList_run f s p n (w : World) :
  conversations_collection.getList f s p n w =
  if hd false (db_faults (pb w))
  then (Throw transportFailure, with_pb (arrive (GetList Conversations)) w)
  else (Ok (listed_conversations f s p n (pb w)),
        with_pb (arrive (GetList Conversations)) w).
Proof.
  unfold conversations_collection.getList. mstep. rewrite request_run.
  destruct (hd false (db_faults (pb w))); [reflexivity|].
  cbn. unfold listed_conversations. f_equal. f_equal.
  apply map_ext. intros x. apply expand_conversation_arrive.
Qed.

Lemma conversations_getOne_run i (w : World) :
  conversations_collection.getOne i w =
  if hd false (db_faults (pb w))
  then (Throw transportFailure, with_pb (arrive (GetOne Conversations i)) w)
  else match find (fun c => conv_id c =? i) (db_conversations (pb w)) with
       | Some c => (Ok (expand_conversation (pb w) c),
                    with_pb (arrive (GetOne Conversations i)) w)
       | None => (Throw notFound, with_pb (arrive (GetOne Conversations i)) w)
       end.
Proof.
  unfold conversations_collection.getOne. mstep. rewrite request_run.
  destruct (hd false (db_faults (pb w))); [reflexivity|].
  cbn. destruct (find _ _); [|reflexivity].
  rewrite expand_conversation_arrive. reflexivity.
Qed.

Lemma conversations_create_run ps (w : World) :
  conversations_collection.create ps w =
  if hd false (db_faults (pb w))
  then (Throw transportFailure, with_pb (arrive (Create Conversations)) w)
  else
    let c := mkConversation (fresh_id (pb w)) ps (db_clock (pb w)) (db_clock (pb w)) None in
    (Ok (expand_conversation (pb w) c),
     with_pb (fun d => next_id (tick (set_db_conversations (db_conversations d ++ [c]) d)))
             (with_pb (arrive (Create Conversations)) w)).
Proof.
  unfold conversations_collection.create. mstep. rewrite request_run.
  destruct (hd false (db_faults (pb w))); [reflexivity|].
  cbn. rewrite expand_conversation_arrive. reflexivity.
Qed.

(** ** The computed relation status *)

Lemma find_edge_some (a b : string) (rels : list IRelation) (r : IRelation) :
  find (fun r => (from_user r =? a) && (to_user r =? b)) rels = Some r ->
  In r rels /\ edge a b r.
Proof.
  intros H. apply find_some in H. destruct H as [Hin H].
  apply andb_true_iff in H. destruct H as [H1 H2].
  apply String.eqb_eq in H1, H2. split; [assumption | split; assumption].
Qed.

Lemma find_edge_none (a b : string) (rels : list IRelation) :
  find (fun r => (from_user r =? a) && (to_user r =? b)) rels = None ->
  forall r, In r rels -> ~ edge a b r.
Proof.
  intros H r Hin [H1 H2].
  pose proof (find_none _ _ H r Hin) as Hn. cbv beta in Hn.
  rewrite H1, H2, !String.eqb_refl in Hn. discriminate.
Qed.

(** The three cases of [getRelationStatus]. *)
Lemma getRelationStatus_trichotomy (w : World) (me : IAuthUser) (userId : string) :
  authUser w = Some me ->
  let rels := relationsSignal (relationService w) in
  let status := RelationService.getRelationStatus userId w in
  (exists r, In r rels /\ edge (user_id me) userId r /\
             status = mkStatus (rel_type r) true (Some r))
  \/ ((forall r, In r rels -> ~ edge (user_id me) userId r) /\
      exists r, In r rels /\ edge userId (user_id me) r /\
                status = mkStatus (as_received (rel_type r)) false (Some r))
  \/ ((forall r, In r rels -> ~ edge (user_id me) userId r) /\
      (forall r, In r rels -> ~ edge userId (user_id me) r) /\
      status = no_status).
Proof.
  intros Hme rels status. subst rels status.
  unfold RelationService.getRelationStatus. rewrite Hme.
  unfold RelationService.statusIn.
  destruct (find _ _) as [out|] eqn:Hout.
  - left. apply find_edge_some in Hout. destruct Hout as [Hin He].
    exists out. auto.
  - right. pose proof (find_edge_none _ _ _ Hout) as Hno.
    destruct (find (fun r => (from_user r =? userId) && _) _) as [inc|] eqn:Hinc.
    + left. split; [exact Hno|]. apply find_edge_some in Hinc.
      destruct Hinc as [Hin He]. exists inc. rewrite as_received_eqb. auto.
    + right. split; [exact Hno|]. split; [|reflexivity].
      exact (find_edge_none _ _ _ Hinc).
Qed.

(** C2: the status looks at the outgoing edge first and reports its kind
    with [isInitiatedByMe = true]; without an outgoing edge it looks at the
    incoming edge, reads [pending_sent] as [pending_received] and reports
    [isInitiatedByMe = false]; without either edge it is [no_relation].
    When the only edge is one [pending_sent] edge from the local user to the
    other, the sender sees [pending_sent] and the receiver
    [pending_received]. *)
Theorem getRelationStatus_directions :
  forall (w : World) (me : IAuthUser) (userId : string),
    authUser w = Some me ->
    let rels := relationsSignal (relationService w) in
    let status := RelationService.getRelationStatus userId w in
    ((exists r, In r rels /\ edge (user_id me) userId r /\
                status = mkStatus (rel_type r) true (Some r))
     \/ ((forall r, In r rels -> ~ edge (user_id me) userId r) /\
         exists r, In r rels /\ edge userId (user_id me) r /\
                   status = mkStatus (as_received (rel_type r)) false (Some r))
     \/ ((forall r, In r rels -> ~ edge (user_id me) userId r) /\
         (forall r, In r rels -> ~ edge userId (user_id me) r) /\
         status = no_status))
    /\ (forall e, rels = [e] -> edge (user_id me) userId e ->
                  user_id me <> userId -> rel_type e = pending_sent ->
                  forall (other : IAuthUser) (w' : World),
                    user_id other = userId -> authUser w' = Some other ->
                    relationsSignal (relationService w') = [e] ->
                    status = mkStatus pending_sent true (Some e) /\
                    RelationService.getRelationStatus (user_id me) w'
                    = mkStatus pending_received false (Some e)).
Proof.
  intros w me userId Hme rels status. subst rels status.
  split; [exact (getRelationStatus_trichotomy w me userId Hme)|].
  unfold RelationService.getRelationStatus. rewrite Hme.
  unfold RelationService.statusIn.
  - intros e He [Hf Ht] Hneq Hty other w' Hother Hw' Hrels'.
    rewrite He, Hw', Hrels'. cbn [find]. rewrite Hother.
    rewrite Hf, Ht, !String.eqb_refl. cbn [andb].
    assert (Hx : (userId =? user_id me) = false)
      by (apply String.eqb_neq; congruence).
    rewrite Hx. cbn [andb]. rewrite Hty, andb_false_r. split; reflexivity.
Qed.

Lemma getRelationStatus_directions_witness :
  RelationService.getRelationStatus "U2"
    (client_with Scenario.alice [Scenario.request_edge] Scenario.empty_backend)
  = mkStatus pending_sent true (Some Scenario.request_edge)
  /\ RelationService.getRelationStatus "U1"
       (client_with Scenario.bob [Scenario.request_edge] Scenario.empty_backend)
     = mkStatus pending_received false (Some Scenario.request_edge).
Proof.
  destruct (getRelationStatus_directions
              (client_with Scenario.alice [Scenario.request_edge] Scenario.empty_backend)
              Scenario.alice "U2" eq_refl) as [_ H].
  apply (H Scenario.request_edge eq_refl (conj eq_refl eq_refl)) with (other := Scenario.bob).
  - discriminate.
  - reflexivity.
  - reflexivity.
  - reflexivity.
  - reflexivity.
Defined.

(** ** Sending a friend request *)

(** C6: [sendFriendRequest] throws and leaves the whole state as it was
    (hence no request reaches the backend and the collection is unchanged)
    when nobody is signed in, when the target is the local user, or when the
    computed status is not [no_relation]; when it succeeds, the
    preconditions held, one request (a create) reached the backend, and the
    stored relations and the collection each gained exactly the new
    [pending_sent] edge from the local user to the target; with the
    preconditions and no transport failure it does succeed. *)
Theorem sendFriendRequest_guarded :
  forall (w : World) (targetUserId : string),
    ((authUser w = None \/
      exists me, authUser w = Some me /\
        (user_id me = targetUserId \/
         status_type (RelationService.getRelationStatus targetUserId w) <> no_relation)) ->
     exists e, RelationService.sendFriendRequest targetUserId w = (Throw e, w))
    /\
    (forall r w', RelationService.sendFriendRequest targetUserId w = (Ok r, w') ->
       exists me,
         authUser w = Some me /\ user_id me <> targetUserId /\
         status_type (RelationService.getRelationStatus targetUserId w) = no_relation /\
         edge (user_id me) targetUserId r /\ rel_type r = pending_sent /\
         db_relations (pb w') = db_relations (pb w) ++ [unexpanded r] /\
         relationsSignal (relationService w')
         = relationsSignal (relationService w) ++ [r] /\
         db_log (pb w') = db_log (pb w) ++ [Create Relations] /\
         db_conversations (pb w') = db_conversations (pb w) /\
         db_messages (pb w') = db_messages (pb w))
    /\
    (forall me, authUser w = Some me -> user_id me <> targetUserId ->
       status_type (RelationService.getRelationStatus targetUserId w) = no_relation ->
       hd false (db_faults (pb w)) = false ->
       exists r w', RelationService.sendFriendRequest targetUserId w = (Ok r, w')).
Proof.
  intros w targetUserId. unfold RelationService.sendFriendRequest.
  mstep.
  destruct (authUser w) as [me|] eqn:Hme.
  2:{ split; [|split].
      - intros _. eexists. reflexivity.
      - intros r w' H. discriminate.
      - intros me H. discriminate. }
  destruct (user_id me =? targetUserId) eqn:Hself.
  { apply String.eqb_eq in Hself. split; [|split].
    - intros _. eexists. reflexivity.
    - intros r w' H. discriminate.
    - intros me' H Hneq. congruence. }
  apply String.eqb_neq in Hself.
  destruct (type_eqb _ no_relation) eqn:Hst; cbn [negb].
  2:{ apply type_eqb_neq in Hst. split; [|split].
      - intros _. eexists. reflexivity.
      - intros r w' H. discriminate.
      - intros me' H _ Hno. congruence. }
  apply type_eqb_eq in Hst.
  rewrite relations_create_run.
  unfold RelationService.rethrow, RelationService.errorSignal_set. mstep.
  split; [|split].
  - intros [H|[me' [H [H'|H']]]]; congruence.
  - intros r w'. destruct (hd false (db_faults (pb w))); cbn;
      intros H; inversion H; subst; clear H.
    exists me. unfold with_expand, expand_relation, unexpanded, edge; cbn.
    repeat split; auto.
  - intros me' H _ _ Hf. rewrite Hf. cbn. eexists; eexists; reflexivity.
Qed.

Lemma sendFriendRequest_guarded_witness :
  (exists e, RelationService.sendFriendRequest "U1"
               (client Scenario.alice Scenario.empty_backend)
             = (Throw e, client Scenario.alice Scenario.empty_backend))
  /\ (exists r w', RelationService.sendFriendRequest "U2"
                     (client Scenario.alice Scenario.empty_backend) = (Ok r, w')).
Proof.
  split.
  - apply (sendFriendRequest_guarded (client Scenario.alice Scenario.empty_backend) "U1").
    right. exists Scenario.alice. split; [reflexivity|]. left. reflexivity.
  - apply (sendFriendRequest_guarded (client Scenario.alice Scenario.empty_backend) "U2")
      with (me := Scenario.alice).
    + reflexivity.
    + discriminate.
    + reflexivity.
    + reflexivity.
Defined.

(** ** Reading the status from the backend *)

Lemma filter_edge_nil (a b : string) (l : list IRelation) :
  (forall r, In r l -> ~ edge a b r) ->
  filter (fun r => (from_user r =? a) && (to_user r =? b)) l = [].
Proof.
  induction l as [|x l IH]; intros H; [reflexivity|].
  cbn. destruct ((from_user x =? a) && (to_user x =? b)) eqn:E.
  - apply andb_true_iff in E. destruct E as [E1 E2].
    apply String.eqb_eq in E1, E2. exfalso.
    apply (H x (or_introl eq_refl)). split; assumption.
  - apply IH. intros r Hr. apply H. right. exact Hr.
Qed.

Lemma listed_relations_nil f s e (b : Backend) :
  filter f (db_relations b) = [] -> listed_relations f s 1 1 e b = [].
Proof.
  intros H. unfold listed_relations. rewrite H.
  destruct s; reflexivity.
Qed.

(** C9: [getRelationStatusFromDB] never throws; when a query it sends
    fails (the first one, or the second one after an empty first answer) it
    returns [no_relation] with [isInitiatedByMe = false], which is also
    what it returns when the backend holds no record between the two
    users. *)
Theorem getRelationStatusFromDB_swallows_failure :
  forall (w : World) (userId : string),
    let outcome := RelationService.getRelationStatusFromDB userId w in
    (exists status, fst outcome = Ok status)
    /\ (hd false (db_faults (pb w)) = true -> fst outcome = Ok no_status)
    /\ (forall me fs,
          authUser w = Some me ->
          db_faults (pb w) = false :: true :: fs ->
          (forall r, In r (db_relations (pb w)) -> ~ edge (user_id me) userId r) ->
          fst outcome = Ok no_status)
    /\ (forall me,
          authUser w = Some me ->
          (forall r, In r (db_relations (pb w)) ->
                     ~ edge (user_id me) userId r /\ ~ edge userId (user_id me) r) ->
          fst outcome = Ok no_status).
Proof.
  intros w userId. cbv zeta.
  unfold RelationService.getRelationStatusFromDB. mstep.
  destruct (authUser w) as [me|] eqn:Hme.
  2:{ cbn. repeat split; try (intros; reflexivity); try discriminate.
      eexists; reflexivity. }
  rewrite relations_getList_run.
  destruct (hd false (db_faults (pb w))) eqn:Hf1.
  { cbn. repeat split; try (intros; reflexivity). eexists; reflexivity. }
  destruct (listed_relations _ None 1 1 false (pb w)) as [|outgoing rest] eqn:Hout.
  - rewrite relations_getList_run.
    destruct (hd false (db_faults (pb (with_pb _ w)))) eqn:Hf2.
    { cbn. repeat split; try (intros; reflexivity). eexists; reflexivity. }
    destruct (listed_relations _ None 1 1 false (pb (with_pb _ w)))
      as [|incoming rest] eqn:Hinc.
    + cbn. repeat split; try (intros; reflexivity). eexists; reflexivity.
    + cbn [fst]. split; [eexists; reflexivity|]. split; [discriminate|]. split.
      * intros me' fs _ Hfs _. cbn in Hf2. rewrite Hfs in Hf2. discriminate.
      * intros me' Hme' Hno. injection Hme' as <-.
        rewrite listed_relations_nil in Hinc; [discriminate|].
        cbn. apply filter_edge_nil. intros r Hr. apply (Hno r Hr).
  - cbn [fst]. split; [eexists; reflexivity|]. split; [discriminate|]. split.
    + intros me' fs Hme' _ Hno. injection Hme' as <-.
      rewrite listed_relations_nil in Hout; [discriminate|].
      apply filter_edge_nil. exact Hno.
    + intros me' Hme' Hno. injection Hme' as <-.
      rewrite listed_relations_nil in Hout; [discriminate|].
      apply filter_edge_nil. intros r Hr. apply (Hno r Hr).
Qed.

Lemma getRelationStatusFromDB_swallows_failure_witness :
  fst (RelationService.getRelationStatusFromDB "U2"
         (client Scenario.alice (Scenario.backend_with [Scenario.request_edge] [true])))
  = Ok no_status
  /\ fst (RelationService.getRelationStatusFromDB "U1"
            (client Scenario.bob
                    (Scenario.backend_with [Scenario.request_edge] [false; true])))
     = Ok no_status.
Proof.
  split.
  - apply (getRelationStatusFromDB_swallows_failure
             (client Scenario.alice (Scenario.backend_with [Scenario.request_edge] [true]))
             "U2").
    reflexivity.
  - apply (getRelationStatusFromDB_swallows_failure
             (client Scenario.bob
                     (Scenario.backend_with [Scenario.request_edge] [false; true]))
             "U1") with (me := Scenario.bob) (fs := []).
    + reflexivity.
    + reflexivity.
    + intros r [<-|[]] [H _]. discriminate.
Defined.

(** ** Replayed create events *)

Lemma users_getOne_run i (w : World) :
  users_collection.getOne i w =
  if hd false (db_faults (pb w))
  then (Throw transportFailure, with_pb (arrive (GetOne Users i)) w)
  else match find_user (pb w) i with
       | Some u => (Ok u, with_pb (arrive (GetOne Users i)) w)
       | None => (Throw notFound, with_pb (arrive (GetOne Users i)) w)
       end.
Proof.
  unfold users_collection.getOne. mstep. rewrite request_run.
  destruct (hd false (db_faults (pb w))); [reflexivity|].
  cbn. unfold find_user. cbn. destruct (find _ _); reflexivity.
Qed.

(** Re-reading an event's record changes neither its identifier nor the
    collection. *)
Lemma refetch_keeps (record : IRelation) (w : World) :
  exists record' w',
    RelationService.refetch record w = (Ok record', w') /\
    rel_id record' = rel_id record /\
    relationService w' = relationService w.
Proof.
  unfold RelationService.refetch.
  destruct (lacks_expand record).
  - mstep. rewrite relations_getOne_run.
    destruct (hd false (db_faults (pb w))).
    + eexists; eexists; repeat split.
    + destruct (find _ _) as [r|] eqn:Hr.
      * apply find_some in Hr. destruct Hr as [_ Hr].
        apply String.eqb_eq in Hr.
        eexists; eexists; split; [reflexivity|]. split; [|reflexivity].
        rewrite <- Hr. destruct r; reflexivity.
      * eexists; eexists; repeat split.
  - eexists; eexists; repeat split.
Qed.

Lemma handleRelationCreate_present (record : IRelation) (w : World) :
  existsb (fun r => rel_id r =? rel_id record) (relationsSignal (relationService w)) = true ->
  relationsSignal (relationService (snd (RelationService.handleRelationCreate record w)))
  = relationsSignal (relationService w).
Proof.
  intros Hex. unfold RelationService.handleRelationCreate. mstep.
  destruct (RelationService.processingIds_has _ w); [reflexivity|].
  unfold RelationService.processingIds_add at 1. mstep.
  match goal with
  | |- context [RelationService.refetch record ?w1] =>
      destruct (refetch_keeps record w1) as (record' & w' & -> & Hid & Hsame)
  end.
  unfold RelationService.processingIds_delete. mstep. rewrite Hid.
  rewrite Hsame.
  assert (Hrels : relationsSignal
                    (relationService
                       (with_relationService
                          (fun s => if existsb (String.eqb (rel_id record)) (processingIds s)
                                    then s
                                    else set_processingIds (processingIds s ++ [rel_id record]) s)
                          w))
                  = relationsSignal (relationService w)).
  { cbn. destruct (existsb _ (processingIds _)); reflexivity. }
  rewrite Hrels, Hex. cbn. rewrite Hsame. cbn. exact Hrels.
Qed.

Lemma handleMessageCreate_present (record : IMessage) (w : World) :
  existsb (fun m => msg_id m =? msg_id record) (messagesSignal (chatService w)) = true ->
  messagesSignal (chatService (snd (ChatService.handleMessageCreate record w)))
  = messagesSignal (chatService w).
Proof.
  intros Hex. unfold ChatService.handleMessageCreate. mstep.
  destruct (msg_expand record).
  - cbn. rewrite Hex. reflexivity.
  - rewrite users_getOne_run.
    destruct (hd false (db_faults (pb w))); [reflexivity|].
    destruct (find_user (pb w) (msg_user record)); [|reflexivity].
    cbn. rewrite Hex. reflexivity.
Qed.

(** The friendship query answers with a record exactly when some stored
    record passes its filter. *)
Lemma friendship_query_nonempty (a b : string) (d : Backend) :
  (0 <? List.length (listed_relations (friendship_filter a b) None 1 1 false d))%nat
  = existsb (friendship_filter a b) (db_relations d).
Proof.
  unfold listed_relations, page_of, sort_by. cbn [Nat.sub Nat.mul skipn].
  induction (db_relations d) as [|r l IH]; [reflexivity|].
  cbn [filter existsb]. destruct (friendship_filter a b r); [reflexivity | exact IH].
Qed.

Lemma in_without (i : string) (c : IConversation) (l : list IConversation) :
  In c (without i l) -> conv_id c <> i.
Proof.
  unfold without. intros H. apply filter_In in H. destruct H as [_ H].
  apply negb_true_iff in H. apply String.eqb_neq. exact H.
Qed.

(** What the handler of create and update events does to the collection,
    transport failures included: nothing when the re-read fails; otherwise
    the re-read record is inserted or replaced when it passes the
    visibility test and the friendship query goes through, and the entries
    with its identifier are removed in every other case. *)
Lemma handleConversationCreateOrUpdate_exact (w : World) (record : IConversation) :
  conversationsSignal
    (conversationService
       (snd (ConversationService.handleConversationCreateOrUpdate record w)))
  = let prev := conversationsSignal (conversationService w) in
    if hd false (db_faults (pb w)) then prev
    else match find (fun c => conv_id c =? conv_id record) (db_conversations (pb w)) with
         | None => prev
         | Some c0 =>
             let fullRecord := expand_conversation (pb w) c0 in
             match authUser w with
             | None => without (conv_id record) prev
             | Some me =>
                 if passes me w fullRecord && negb (hd false (tl (db_faults (pb w))))
                 then upsert fullRecord prev
                 else without (conv_id record) prev
             end
         end.
Proof.
  cbv zeta.
  unfold ConversationService.handleConversationCreateOrUpdate. mstep.
  rewrite conversations_getOne_run.
  destruct (hd false (db_faults (pb w))); [reflexivity|].
  destruct (find _ _) as [c0|] eqn:Hc; [|reflexivity].
  set (full := expand_conversation (pb w) c0).
  assert (Hid : conv_id c0 = conv_id record).
  { apply find_some in Hc. destruct Hc as [_ Hc]. apply String.eqb_eq in Hc. exact Hc. }
  set (w1 := with_pb (arrive (GetOne Conversations (conv_id record))) w).
  assert (Hau : authUser w1 = authUser w) by reflexivity.
  rewrite Hau.
  destruct (authUser w) as [me|] eqn:Hme; [|cbn; rewrite Hid; reflexivity].
  assert (Hpass : passes me w1 full = passes me w full) by reflexivity.
  rewrite <- Hpass. unfold passes.
  destruct (ConversationService.getOtherParticipant full w1) as [other|];
    [|cbn; rewrite Hid; reflexivity].
  destruct (RelationService.isBlockedByMe (user_id other) w1); cbn [negb andb orb];
    [cbn; rewrite Hid; reflexivity|].
  destruct (RelationService.isBlockedBy (user_id other) w1); cbn [negb andb orb];
    [cbn; rewrite Hid; reflexivity|].
  rewrite relations_getList_run.
  assert (Hf1 : hd false (db_faults (pb w1)) = hd false (tl (db_faults (pb w))))
    by reflexivity.
  rewrite Hf1.
  destruct (hd false (tl (db_faults (pb w)))).
  { rewrite andb_false_r. cbn. rewrite Hid. reflexivity. }
  rewrite andb_true_r.
  pose proof (friendship_query_nonempty (user_id me) (user_id other) (pb w1)) as Hq.
  destruct (existsb _ (db_relations (pb w1))).
  - destruct (List.length _) as [|n]; [discriminate|]. cbn. reflexivity.
  - destruct (List.length _) as [|n]; [|discriminate]. cbn. rewrite Hid. reflexivity.
Qed.

(** Removing a present identifier changes the collection. *)
Lemma without_present (i : string) (l : list IConversation) :
  existsb (fun c => conv_id c =? i) l = true -> without i l <> l.
Proof.
  intros Hex Heq. apply existsb_exists in Hex. destruct Hex as (c & Hin & Hc).
  rewrite <- Heq in Hin. apply in_without in Hin. apply String.eqb_eq in Hc. contradiction.
Qed.

(** Replacing in place leaves the collection as it was exactly when every
    entry with the identifier is the replacing record already. *)
Lemma replace_unchanged (i : string) (full : IConversation) (l : list IConversation) :
  map (fun c => if conv_id c =? i then full else c) l = l
  <-> (forall c, In c l -> conv_id c = i -> c = full).
Proof.
  induction l as [|x l IH]; [split; [intros _ c []|reflexivity]|].
  cbn [map]. split.
  - intros H. injection H as Hx Hl. intros c [<-|Hin] Hc.
    + apply String.eqb_eq in Hc. rewrite Hc in Hx. symmetry. exact Hx.
    + exact (proj1 IH Hl c Hin Hc).
  - intros H. f_equal.
    + destruct (conv_id x =? i) eqn:E; [|reflexivity].
      apply String.eqb_eq in E. symmetry. apply H; [left; reflexivity | exact E].
    + apply IH. intros c Hin. apply H. right. exact Hin.
Qed.

(** The three things the handler can do to the collection. *)
Lemma handleConversationCreateOrUpdate_outcome (record : IConversation) (w : World) :
  let prev := conversationsSignal (conversationService w) in
  let after := conversationsSignal
                 (conversationService
                    (snd (ConversationService.handleConversationCreateOrUpdate record w))) in
  after = prev
  \/ after = without (conv_id record) prev
  \/ exists fullRecord,
       conv_id fullRecord = conv_id record /\ after = upsert fullRecord prev.
Proof.
  cbv zeta. unfold ConversationService.handleConversationCreateOrUpdate. mstep.
  rewrite conversations_getOne_run.
  destruct (hd false (db_faults (pb w))); [left; reflexivity|].
  destruct (find _ _) as [c|] eqn:Hc; [|left; reflexivity].
  apply find_some in Hc. destruct Hc as [_ Hc]. apply String.eqb_eq in Hc.
  set (full := expand_conversation (pb w) c).
  assert (Hid : conv_id full = conv_id record) by exact Hc.
  set (w1 := with_pb (arrive (GetOne Conversations (conv_id record))) w).
  destruct (authUser w1) as [me|] eqn:Hme.
  2:{ right; left. cbn. rewrite Hc. reflexivity. }
  destruct (ConversationService.getOtherParticipant full w1) as [other|] eqn:Ho.
  2:{ right; left. cbn. rewrite Hc. reflexivity. }
  destruct (RelationService.isBlockedByMe (user_id other) w1
            || RelationService.isBlockedBy (user_id other) w1).
  { right; left. cbn. rewrite Hc. reflexivity. }
  rewrite relations_getList_run.
  destruct (hd false (db_faults (pb w1))).
  { right; left. cbn. rewrite Hc. reflexivity. }
  destruct (List.length _ =? 0)%nat.
  { right; left. cbn. rewrite Hc. reflexivity. }
  right; right. exists full. split; [exact Hid|]. reflexivity.
Qed.

Lemma occurrences_without (i j : string) (l : list IConversation) :
  occurrences i (without j l) <= occurrences i l.
Proof.
  unfold occurrences, without. induction l as [|c l IH]; [apply le_n|].
  cbn. destruct (conv_id c =? j); cbn; destruct (conv_id c =? i); cbn; lia.
Qed.

Lemma occurrences_replace (i : string) (full : IConversation) (l : list IConversation) :
  occurrences i (map (fun c => if conv_id c =? conv_id full then full else c) l)
  = occurrences i l.
Proof.
  unfold occurrences. induction l as [|c l IH]; [reflexivity|].
  cbn. destruct (conv_id c =? conv_id full) eqn:E.
  - apply String.eqb_eq in E. rewrite E.
    destruct (conv_id full =? i); cbn; rewrite IH; reflexivity.
  - destruct (conv_id c =? i); cbn; rewrite IH; reflexivity.
Qed.

Lemma upsert_present (full : IConversation) (l : list IConversation) :
  existsb (fun c => conv_id c =? conv_id full) l = true ->
  upsert full l = map (fun c => if conv_id c =? conv_id full then full else c) l.
Proof. intros H. unfold upsert. rewrite H. reflexivity. Qed.

(** C7, as the handlers have it: a replayed create event for an
    identifier already in the collection leaves the relation collection and
    the message collection unchanged.  In the conversation collection it
    adds no entry (for every identifier the number of entries with it does
    not grow, and the collection does not get longer), and what it does is
    decided by the re-read of the record and the visibility check:
    - the re-read fails (transport failure or no such record): the
      collection is unchanged;
    - the re-read record passes the visibility check (other participant
      resolved, neither side blocked in the in-memory collection, a friend
      edge stored between the two) and the friendship query goes through:
      the entries with that identifier are replaced in place by the re-read
      record, so the collection is unchanged exactly when they are that
      record already;
    - otherwise (nobody signed in, the check fails, or the friendship query
      fails): the entries with that identifier are removed, and the
      collection has changed. *)
Theorem create_replay :
  (forall (w : World) (record : IRelation),
      existsb (fun r => rel_id r =? rel_id record)
              (relationsSignal (relationService w)) = true ->
      relationsSignal (relationService (snd (RelationService.handleRelationCreate record w)))
      = relationsSignal (relationService w))
  /\ (forall (w : World) (record : IMessage),
         existsb (fun m => msg_id m =? msg_id record)
                 (messagesSignal (chatService w)) = true ->
         messagesSignal (chatService (snd (ChatService.handleMessageCreate record w)))
         = messagesSignal (chatService w))
  /\ (forall (w : World) (record : IConversation),
         let prev := conversationsSignal (conversationService w) in
         let after := conversationsSignal
                        (conversationService
                           (snd (ConversationService.handleConversationCreateOrUpdate
                                   record w))) in
         let faults := db_faults (pb w) in
         let reread := find (fun c => conv_id c =? conv_id record)
                            (db_conversations (pb w)) in
         existsb (fun c => conv_id c =? conv_id record) prev = true ->
         (hd false faults = true \/ reread = None -> after = prev)
         /\ (forall c0,
               hd false faults = false ->
               reread = Some c0 ->
               let fullRecord := expand_conversation (pb w) c0 in
               (forall me,
                   authUser w = Some me ->
                   passes me w fullRecord = true ->
                   hd false (tl faults) = false ->
                   after = map (fun c => if conv_id c =? conv_id record
                                         then fullRecord else c) prev
                   /\ (after = prev
                       <-> forall c, In c prev -> conv_id c = conv_id record ->
                                     c = fullRecord))
               /\ (authUser w = None
                   \/ (exists me, authUser w = Some me
                                  /\ (passes me w fullRecord = false
                                      \/ hd false (tl faults) = true)) ->
                   after = without (conv_id record) prev /\ after <> prev))
         /\ (forall i, occurrences i after <= occurrences i prev)
         /\ List.length after <= List.length prev).
Proof.
  split; [exact (fun w r => handleRelationCreate_present r w)|].
  split; [exact (fun w r => handleMessageCreate_present r w)|].
  intros w record prev after faults reread Hex.
  pose proof (handleConversationCreateOrUpdate_exact w record) as Hrun.
  cbv zeta in Hrun. fold prev after faults reread in Hrun.
  split; [|split].
  - intros [Hf|Hnone]; rewrite Hrun.
    + rewrite Hf. reflexivity.
    + rewrite Hnone. destruct (hd false faults); reflexivity.
  - intros c0 Hf Hc fullRecord. rewrite Hf, Hc in Hrun. fold fullRecord in Hrun.
    assert (Hid : conv_id fullRecord = conv_id record).
    { unfold reread in Hc. apply find_some in Hc. destruct Hc as [_ Hc].
      apply String.eqb_eq in Hc. exact Hc. }
    split.
    + intros me Hme Hpass Hf2. rewrite Hme, Hpass, Hf2 in Hrun. cbn [negb andb] in Hrun.
      rewrite upsert_present in Hrun by (rewrite Hid; exact Hex).
      rewrite Hid in Hrun. split; [exact Hrun|].
      rewrite Hrun. apply replace_unchanged.
    + intros Hno.
      assert (Hw : after = without (conv_id record) prev).
      { destruct Hno as [Hnone|(me & Hme & [Hpass|Hf2])]; rewrite Hrun.
        - rewrite Hnone. reflexivity.
        - rewrite Hme, Hpass. reflexivity.
        - rewrite Hme, Hf2. cbn [negb]. rewrite andb_false_r. reflexivity. }
      split; [exact Hw|]. rewrite Hw. apply without_present. exact Hex.
  - destruct (handleConversationCreateOrUpdate_outcome record w)
      as [H|[H|(full & Hid & H)]]; fold prev in H; fold after in H.
    + rewrite H. split; intros; apply le_n.
    + rewrite H. split.
      * intros i. apply occurrences_without.
      * unfold without. apply filter_length_le.
    + rewrite upsert_present in H by (rewrite Hid; exact Hex).
      rewrite H. split.
      * intros i. rewrite occurrences_replace. apply le_n.
      * rewrite length_map. apply le_n.
Qed.

Lemma create_replay_witness :
  relationsSignal
    (relationService
       (snd (RelationService.handleRelationCreate Scenario.request_edge
               (client_with Scenario.alice [Scenario.request_edge]
                            Scenario.empty_backend))))
  = [Scenario.request_edge]
  /\ conversationsSignal
       (conversationService
          (snd (ConversationService.handleConversationCreateOrUpdate
                  Scenario.chat_record Scenario.chat_history)))
     = conversationsSignal (conversationService Scenario.chat_history)
  /\ conversationsSignal
       (conversationService
          (snd (ConversationService.handleConversationCreateOrUpdate
                  Scenario.chat_record Scenario.revoked)))
     = without "c1" (conversationsSignal (conversationService Scenario.revoked)).
Proof.
  destruct create_replay as (Hrel & _ & Hconv). split; [|split].
  - apply (Hrel (client_with Scenario.alice [Scenario.request_edge]
                             Scenario.empty_backend) Scenario.request_edge).
    reflexivity.
  - destruct (Hconv Scenario.chat_history Scenario.chat_record eq_refl)
      as (_ & Hre & _).
    destruct (Hre Scenario.chat_record eq_refl eq_refl) as (Hpass & _).
    destruct (Hpass Scenario.alice eq_refl eq_refl eq_refl) as (_ & Hsame).
    apply Hsame. intros c [<-|[]] _. reflexivity.
  - destruct (Hconv Scenario.revoked Scenario.chat_record eq_refl) as (_ & Hre & _).
    destruct (Hre Scenario.chat_record eq_refl eq_refl) as (_ & Hrm).
    apply Hrm. right. exists Scenario.alice. split; [reflexivity|]. left. reflexivity.
Defined.

(** C7 does not hold for conversations as stated: the identifier is in
    the collection, the create event is replayed, and the collection
    changes (the entry is removed, the friendship being gone). *)
Lemma create_replay_changes_conversations :
  existsb (fun c => conv_id c =? conv_id Scenario.chat_record)
          (conversationsSignal (conversationService Scenario.revoked)) = true
  /\ conversationsSignal
       (conversationService
          (snd (ConversationService.handleConversationCreateOrUpdate
                  Scenario.chat_record Scenario.revoked)))
     <> conversationsSignal (conversationService Scenario.revoked).
Proof.
  split; [reflexivity|]. vm_compute. discriminate.
Qed.

(** ** Sending a message across a block *)



(** C8 at the state where alice still has a [friend] edge towards bob and
    bob's [blocked] edge towards alice is in her collection: the outgoing
    edge decides the computed status, the check passes and the message is
    created. *)
Theorem sendMessage_past_masked_block :
  In (Scenario.blocked_edge "r2" "U2" "U1")
     (relationsSignal (relationService Scenario.masked))
  /\ RelationService.isBlockedBy "U2" Scenario.masked = false
  /\ exists m w',
       ChatService.sendMessage "c1" "hi" Scenario.masked = (Ok m, w')
       /\ db_messages (pb w') = [m]
       /\ msg_user m = "U1" /\ msg_conversation m = Some "c1".
Proof.
  split; [right; left; reflexivity|]. split; [reflexivity|].
  eexists; eexists. split; [vm_compute; reflexivity|].
  repeat split.
Qed.

(** ** Blocking a user who has blocked the local user *)

(** A status with [isInitiatedByMe = false] and a kind other than
    [no_relation] comes from an incoming edge, in the absence of any
    outgoing edge. *)
Lemma status_from_incoming (w : World) (me : IAuthUser) (userId : string) :
  authUser w = Some me ->
  isInitiatedByMe (RelationService.getRelationStatus userId w) = false ->
  status_type (RelationService.getRelationStatus userId w) <> no_relation ->
  let rels := relationsSignal (relationService w) in
  find (fun r => (from_user r =? user_id me) && (to_user r =? userId)) rels = None
  /\ exists rel,
       find (fun r => (from_user r =? userId) && (to_user r =? user_id me)) rels = Some rel
       /\ RelationService.getRelationStatus userId w
          = mkStatus (as_received (rel_type rel)) false (Some rel).
Proof.
  intros Hme. unfold RelationService.getRelationStatus. rewrite Hme.
  unfold RelationService.statusIn.
  destruct (find _ _) as [out|]; [cbn; discriminate|].
  destruct (find _ _) as [inc|]; cbn; [|congruence].
  intros _ _. split; [reflexivity|]. exists inc. split; [reflexivity|].
  rewrite as_received_eqb. reflexivity.
Qed.

(** Replacing by [r] every entry that has the identifier of [rel], in a
    list that holds [rel] and in which nothing satisfied [p] before, makes
    [r] the first entry that satisfies [p]. *)
Lemma find_after_replace (p : IRelation -> bool) (rel r : IRelation)
      (l : list IRelation) :
  find p l = None -> In rel l -> p r = true ->
  find p (map (fun x => if rel_id x =? rel_id rel then r else x) l) = Some r.
Proof.
  intros Hnone Hin Hp. induction l as [|x l IH]; [destruct Hin|].
  cbn in Hnone. destruct (p x) eqn:Hx; [discriminate|].
  cbn. destruct (rel_id x =? rel_id rel) eqn:E.
  - rewrite Hp. reflexivity.
  - rewrite Hx. apply IH; [exact Hnone|].
    destruct Hin as [->|Hin]; [|exact Hin].
    rewrite String.eqb_refl in E. discriminate.
Qed.

(** C10 on the code: with the target's [blocked] edge as the only edge
    between the two users in the collection, [blockUser] succeeds (no
    "already blocked" error); the backend gains one new [blocked] edge from
    the local user to the target and keeps the target's edge; the computed
    status becomes [blocked] with [isInitiatedByMe = true]; but in the
    collection the target's edge is overwritten by the new edge instead of
    being kept beside it. *)
Theorem blockUser_after_being_blocked :
  forall (w : World) (me : IAuthUser) (targetUserId : string),
    authUser w = Some me ->
    user_id me <> targetUserId ->
    status_type (RelationService.getRelationStatus targetUserId w) = blocked ->
    isInitiatedByMe (RelationService.getRelationStatus targetUserId w) = false ->
    hd false (db_faults (pb w)) = false ->
    exists theirs mine w',
      relation (RelationService.getRelationStatus targetUserId w) = Some theirs
      /\ In theirs (relationsSignal (relationService w))
      /\ edge targetUserId (user_id me) theirs
      /\ RelationService.blockUser targetUserId w = (Ok mine, w')
      /\ edge (user_id me) targetUserId mine /\ rel_type mine = blocked
      /\ db_relations (pb w') = db_relations (pb w) ++ [unexpanded mine]
      /\ RelationService.getRelationStatus targetUserId w'
         = mkStatus blocked true (Some mine)
      /\ relationsSignal (relationService w')
         = map (fun r => if rel_id r =? rel_id theirs then mine else r)
               (relationsSignal (relationService w))
      /\ ~ In theirs (relationsSignal (relationService w')).
Proof.
  intros w me targetUserId Hme Hneq Hty Hinit Hf.
  destruct (status_from_incoming w me targetUserId Hme Hinit)
    as (Hnone & theirs & Hinc & Hst); [rewrite Hty; discriminate|].
  pose proof (find_edge_some _ _ _ _ Hinc) as [Hin Hedge].
  set (mine := with_expand true (pb w)
                 (mkRelation (fresh_id (pb w)) (user_id me) targetUserId blocked
                             (db_clock (pb w)) (db_clock (pb w)) None)).
  exists theirs, mine.
  assert (Hmine : edge (user_id me) targetUserId mine) by (split; reflexivity).
  assert (Hrun : exists w',
             RelationService.blockUser targetUserId w = (Ok mine, w')
             /\ db_relations (pb w') = db_relations (pb w) ++ [unexpanded mine]
             /\ authUser w' = Some me
             /\ relationsSignal (relationService w')
                = map (fun r => if rel_id r =? rel_id theirs then mine else r)
                      (relationsSignal (relationService w))).
  { unfold RelationService.blockUser. mstep. rewrite Hme.
    apply String.eqb_neq in Hneq. rewrite Hneq.
    unfold RelationService.areFriends. rewrite Hty. cbn [type_eqb RelationType_eqb].
    rewrite Hty, Hinit. cbn [type_eqb RelationType_eqb andb negb].
    rewrite relations_create_run, Hf. cbv zeta. fold mine.
    rewrite Hst. cbn [relation].
    eexists. split; [reflexivity|]. cbn. auto. }
  destruct Hrun as (w' & Hrun & Hdb & Hme' & Hrels).
  exists w'. rewrite Hst. cbn [relation].
  assert (Hfound : find (fun r => (from_user r =? user_id me) && (to_user r =? targetUserId))
                        (relationsSignal (relationService w')) = Some mine).
  { rewrite Hrels. apply find_after_replace; [exact Hnone | exact Hin |].
    destruct Hmine as [-> ->]. rewrite !String.eqb_refl. reflexivity. }
  repeat split; try assumption; try reflexivity.
  - apply Hedge.
  - apply Hedge.
  - unfold RelationService.getRelationStatus. rewrite Hme'.
    unfold RelationService.statusIn. rewrite Hfound. reflexivity.
  - rewrite Hrels. intros Hin'. apply in_map_iff in Hin'.
    destruct Hin' as (x & Hx & _).
    destruct (rel_id x =? rel_id theirs) eqn:E.
    + destruct Hedge as [Hfrom _]. destruct Hmine as [Hfrom' _].
      rewrite <- Hx in Hfrom. rewrite Hfrom' in Hfrom. congruence.
    + subst x. rewrite String.eqb_refl in E. discriminate.
Qed.

Lemma blockUser_after_being_blocked_witness :
  exists mine w',
    RelationService.blockUser "U2" Scenario.blocked_by_bob = (Ok mine, w')
    /\ db_relations (pb w') = [Scenario.blocked_edge "r2" "U2" "U1"; unexpanded mine]
    /\ relationsSignal (relationService w') = [mine]
    /\ edge "U1" "U2" mine.
Proof.
  destruct (blockUser_after_being_blocked Scenario.blocked_by_bob Scenario.alice "U2")
    as (theirs & mine & w' & Hst & _ & _ & Hrun & Hedge & _ & Hdb & _ & Hrels & _).
  - reflexivity.
  - discriminate.
  - reflexivity.
  - reflexivity.
  - reflexivity.
  - exists mine, w'. injection Hst as <-.
    split; [exact Hrun|]. split; [exact Hdb|]. split; [exact Hrels | exact Hedge].
Defined.

(** ** Getting or creating a conversation *)

Lemma includes_head (i : string) (l : list string) : includes i (i :: l) = true.
Proof. unfold includes. cbn. rewrite String.eqb_refl. reflexivity. Qed.

Lemma includes_second (i j : string) (l : list string) : includes i (j :: i :: l) = true.
Proof. unfold includes. cbn. rewrite String.eqb_refl. apply orb_true_r. Qed.

(** What a successful call has done. *)
Lemma getOrCreateConversation_ok (otherUserId : string) (w w' : World) (c : IConversation) :
  ConversationService.getOrCreateConversation otherUserId w = (Ok c, w') ->
  exists me,
    authUser w = Some me /\ authUser w' = Some me
    /\ relationService w' = relationService w
    /\ db_users (pb w') = db_users (pb w)
    /\ status_type (RelationService.getRelationStatus otherUserId w) = friend
    /\ ((exists c0,
           hd_error (filter (pair_filter (user_id me) otherUserId)
                            (db_conversations (pb w))) = Some c0
           /\ c = expand_conversation (pb w) c0
           /\ db_conversations (pb w') = db_conversations (pb w)
           /\ db_log (pb w') = db_log (pb w) ++ [GetList Conversations])
        \/ (exists c0,
              filter (pair_filter (user_id me) otherUserId) (db_conversations (pb w)) = []
              /\ participants c0 = [user_id me; otherUserId]
              /\ c = expand_conversation (pb w) c0
              /\ db_conversations (pb w') = db_conversations (pb w) ++ [c0]
              /\ db_log (pb w')
                 = db_log (pb w) ++ [GetList Conversations; Create Conversations])).
Proof.
  unfold ConversationService.getOrCreateConversation. mstep.
  destruct (authUser w) as [me|] eqn:Hme; [|discriminate].
  destruct (type_eqb _ friend) eqn:Hst; cbn [negb]; [|discriminate].
  apply type_eqb_eq in Hst.
  rewrite conversations_getList_run.
  unfold ConversationService.errorSignal_set. mstep.
  destruct (hd false (db_faults (pb w))); [discriminate|].
  unfold listed_conversations, page_of, sort_by. cbn [Nat.sub Nat.mul skipn].
  fold (pair_filter (user_id me) otherUserId).
  destruct (filter (pair_filter (user_id me) otherUserId) (db_conversations (pb w)))
    as [|c0 rest] eqn:Hfl; cbn [firstn map].
  - rewrite conversations_create_run.
    destruct (hd false (db_faults (pb (with_pb _ w)))); [discriminate|].
    cbv zeta. cbn. intros H. inversion H; subst; clear H.
    exists me. repeat split; try assumption.
    right.
    exists (mkConversation (fresh_id (pb w)) [user_id me; otherUserId]
                           (db_clock (pb w)) (db_clock (pb w)) None).
    split; [exact Hfl|]. split; [reflexivity|]. split; [reflexivity|].
    split; [reflexivity|]. destruct w as [au rs cs ch [us rl cv ms ck nid fl lg]].
    cbn. rewrite <- app_assoc. reflexivity.
  - intros H. inversion H; subst; clear H.
    exists me. repeat split; try assumption.
    left. exists c0. rewrite Hfl. repeat split.
Qed.

(** The expansion of the participants depends on the stored users only. *)
Lemma found_users_ext (b b' : Backend) (ids : list string) :
  db_users b = db_users b' -> found_users b ids = found_users b' ids.
Proof.
  intros Hu. induction ids as [|i ids IH]; [reflexivity|].
  cbn [found_users]. unfold find_user. rewrite Hu, IH. reflexivity.
Qed.

Lemma expand_conversation_ext (b b' : Backend) (c : IConversation) :
  db_users b = db_users b' -> expand_conversation b c = expand_conversation b' c.
Proof.
  intros Hu. unfold expand_conversation. rewrite (found_users_ext b b' _ Hu). reflexivity.
Qed.

(** The first record a filter keeps is a record of the list that passes it. *)
Lemma hd_error_filter {A} (p : A -> bool) (l : list A) (x : A) :
  hd_error (filter p l) = Some x -> In x l /\ p x = true.
Proof.
  intros H. apply filter_In. destruct (filter p l) as [|y k]; [discriminate H|].
  cbn in H. injection H as ->. left. reflexivity.
Qed.

Lemma filter_pair_snoc (me other : string) (l : list IConversation) (c0 : IConversation) :
  filter (pair_filter me other) l = [] ->
  participants c0 = [me; other] ->
  filter (pair_filter me other) (l ++ [c0]) = [c0].
Proof.
  intros Hl Hp. rewrite filter_app, Hl. cbn.
  unfold pair_filter. rewrite Hp, includes_head, includes_second. reflexivity.
Qed.

(** C5: two calls in sequence that both return.  The status is
    [friend].  The first call returns, with its participants expanded, a
    stored conversation in which both users take part: one that was stored
    before, nothing being created, or, none being stored for the pair, the
    one it has just created for the two users.  The second call returns
    that same conversation, so with the same identifier: it sends the
    look-up only and creates nothing.  With the local user signed in, the
    status [friend] and no transport failure, both calls do return. *)
Theorem getOrCreateConversation_twice :
  forall (w : World) (otherUserId : string),
    (forall c1 w1 c2 w2,
        ConversationService.getOrCreateConversation otherUserId w = (Ok c1, w1) ->
        ConversationService.getOrCreateConversation otherUserId w1 = (Ok c2, w2) ->
        exists me c0,
          authUser w = Some me
          /\ status_type (RelationService.getRelationStatus otherUserId w) = friend
          /\ In c0 (db_conversations (pb w1))
          /\ includes (user_id me) (participants c0) = true
          /\ includes otherUserId (participants c0) = true
          /\ c1 = expand_conversation (pb w) c0
          /\ ((In c0 (db_conversations (pb w))
               /\ db_conversations (pb w1) = db_conversations (pb w))
              \/ (filter (pair_filter (user_id me) otherUserId)
                         (db_conversations (pb w)) = []
                  /\ participants c0 = [user_id me; otherUserId]
                  /\ db_conversations (pb w1) = db_conversations (pb w) ++ [c0]))
          /\ c2 = c1
          /\ conv_id c1 = conv_id c2
          /\ db_conversations (pb w2) = db_conversations (pb w1)
          /\ db_log (pb w2) = db_log (pb w1) ++ [GetList Conversations])
    /\ (forall me,
           authUser w = Some me ->
           status_type (RelationService.getRelationStatus otherUserId w) = friend ->
           db_faults (pb w) = [] ->
           exists c1 w1 c2 w2,
             ConversationService.getOrCreateConversation otherUserId w = (Ok c1, w1)
             /\ ConversationService.getOrCreateConversation otherUserId w1 = (Ok c2, w2)
             /\ conv_id c1 = conv_id c2).
Proof.
  intros w otherUserId.
  assert (Hsame : forall c1 w1 c2 w2,
             ConversationService.getOrCreateConversation otherUserId w = (Ok c1, w1) ->
             ConversationService.getOrCreateConversation otherUserId w1 = (Ok c2, w2) ->
             exists me c0,
               authUser w = Some me
               /\ status_type (RelationService.getRelationStatus otherUserId w) = friend
               /\ In c0 (db_conversations (pb w1))
               /\ includes (user_id me) (participants c0) = true
               /\ includes otherUserId (participants c0) = true
               /\ c1 = expand_conversation (pb w) c0
               /\ ((In c0 (db_conversations (pb w))
                    /\ db_conversations (pb w1) = db_conversations (pb w))
                   \/ (filter (pair_filter (user_id me) otherUserId)
                              (db_conversations (pb w)) = []
                       /\ participants c0 = [user_id me; otherUserId]
                       /\ db_conversations (pb w1) = db_conversations (pb w) ++ [c0]))
               /\ c2 = c1
               /\ conv_id c1 = conv_id c2
               /\ db_conversations (pb w2) = db_conversations (pb w1)
               /\ db_log (pb w2) = db_log (pb w1) ++ [GetList Conversations]).
  { intros c1 w1 c2 w2 H1 H2.
    apply getOrCreateConversation_ok in H1.
    destruct H1 as (me & Hme & Hme1 & _ & Hu1 & Hst & Hcase).
    apply getOrCreateConversation_ok in H2.
    destruct H2 as (me' & Hme' & _ & _ & _ & _ & Hcase2).
    rewrite Hme1 in Hme'. injection Hme' as <-.
    assert (Hexp : forall c, expand_conversation (pb w1) c = expand_conversation (pb w) c)
      by (intros c; apply expand_conversation_ext; exact Hu1).
    destruct Hcase as [(c0 & Hhd & -> & Hdb & _)|(c0 & Hnil & Hp & -> & Hdb & _)].
    - exists me, c0.
      pose proof (hd_error_filter _ _ _ Hhd) as [Hin Hpair].
      unfold pair_filter in Hpair. apply andb_true_iff in Hpair.
      destruct Hpair as [Hp1 Hp2].
      rewrite Hdb in Hcase2 |- *.
      destruct Hcase2 as [(c0' & Hhd' & -> & Hdb' & Hlog')|(c0' & Hnil' & _)].
      + rewrite Hhd in Hhd'. injection Hhd' as <-. rewrite Hexp.
        repeat (split; [first [assumption | reflexivity | (left; split; [assumption | reflexivity])]|]).
        exact Hlog'.
      + rewrite Hnil' in Hhd. discriminate.
    - exists me, c0.
      rewrite Hdb, (filter_pair_snoc _ _ _ _ Hnil Hp) in Hcase2.
      destruct Hcase2 as [(c0' & Hhd' & -> & Hdb' & Hlog')|(c0' & Hnil' & _)].
      + cbn in Hhd'. injection Hhd' as <-. rewrite Hexp.
        split; [exact Hme|]. split; [exact Hst|].
        split; [rewrite Hdb; apply in_or_app; right; left; reflexivity|].
        split; [rewrite Hp; apply includes_head|].
        split; [rewrite Hp; apply includes_second|].
        split; [reflexivity|].
        split; [right; split; [exact Hnil|]; split; [exact Hp | exact Hdb]|].
        split; [reflexivity|]. split; [reflexivity|].
        split; [congruence | exact Hlog'].
      + discriminate. }
  split; [exact Hsame|].
  intros me Hme Hst Hf.
  assert (Hrun : forall v : World,
             authUser v = Some me ->
             status_type (RelationService.getRelationStatus otherUserId v) = friend ->
             db_faults (pb v) = [] ->
             exists c v',
               ConversationService.getOrCreateConversation otherUserId v = (Ok c, v')
               /\ db_faults (pb v') = []
               /\ relationService v' = relationService v /\ authUser v' = Some me).
  { intros v Hv Hsv Hfv.
    unfold ConversationService.getOrCreateConversation. mstep.
    rewrite Hv, Hsv. cbn [type_eqb RelationType_eqb negb].
    rewrite conversations_getList_run, Hfv. cbn [hd].
    destruct (listed_conversations _ None 1 1 (pb v)) as [|c0 rest].
    - rewrite conversations_create_run. cbn. rewrite Hfv. cbn.
      eexists; eexists. split; [reflexivity|]. cbn. rewrite Hfv. auto.
    - eexists; eexists. split; [reflexivity|]. cbn. rewrite Hfv. auto. }
  destruct (Hrun w Hme Hst Hf) as (c1 & w1 & H1 & Hf1 & Hrs & Hme1).
  assert (Hst1 : status_type (RelationService.getRelationStatus otherUserId w1) = friend).
  { unfold RelationService.getRelationStatus in *. rewrite Hme1, Hrs.
    rewrite Hme in Hst. exact Hst. }
  destruct (Hrun w1 Hme1 Hst1 Hf1) as (c2 & w2 & H2 & _).
  exists c1, w1, c2, w2. split; [exact H1|]. split; [exact H2|].
  destruct (Hsame c1 w1 c2 w2 H1 H2) as (_ & _ & _ & _ & _ & _ & _ & _ & _ & _ & Hid & _).
  exact Hid.
Qed.

Lemma getOrCreateConversation_twice_witness :
  exists c1 w1 c2 w2 c0,
    ConversationService.getOrCreateConversation "U2" Scenario.friends = (Ok c1, w1)
    /\ ConversationService.getOrCreateConversation "U2" w1 = (Ok c2, w2)
    /\ In c0 (db_conversations (pb w1))
    /\ includes "U1" (participants c0) = true
    /\ includes "U2" (participants c0) = true
    /\ c1 = expand_conversation (pb Scenario.friends) c0
    /\ c2 = c1
    /\ db_conversations (pb w2) = db_conversations (pb w1)
    /\ db_log (pb w2) = db_log (pb w1) ++ [GetList Conversations].
Proof.
  destruct (getOrCreateConversation_twice Scenario.friends "U2") as [Hsame Hruns].
  destruct (Hruns Scenario.alice eq_refl eq_refl eq_refl)
    as (c1 & w1 & c2 & w2 & H1 & H2 & _).
  destruct (Hsame c1 w1 c2 w2 H1 H2)
    as (me & c0 & Hme & _ & Hin & Hp1 & Hp2 & Hc1 & _ & Hc2 & _ & Hdb & Hlog).
  injection Hme as <-.
  exists c1, w1, c2, w2, c0.
  repeat (split; [assumption|]). exact Hlog.
Defined.

(** ** Blocking a friend *)

Lemma find_edge_unique (a b : string) (rels : list IRelation) (r : IRelation) :
  one_per_pair rels -> In r rels -> edge a b r ->
  find (fun x => (from_user x =? a) && (to_user x =? b)) rels = Some r.
Proof.
  intros Huniq Hin [Hf Ht].
  destruct (find _ rels) as [x|] eqn:Hx.
  - apply find_edge_some in Hx. destruct Hx as [Hxin [Hxf Hxt]].
    f_equal. apply Huniq; congruence.
  - exfalso. apply (find_edge_none _ _ _ Hx r Hin). split; assumption.
Qed.

Lemma find_friend_edge_unique (a b : string) (rels : list IRelation) (r : IRelation) :
  one_per_pair rels -> In r rels -> edge a b r -> rel_type r = friend ->
  find (fun x => (from_user x =? a) && (to_user x =? b)
                 && RelationType_eqb (rel_type x) friend) rels = Some r.
Proof.
  intros Huniq Hin [Hf Ht] Hty.
  destruct (find _ rels) as [x|] eqn:Hx.
  - apply find_some in Hx. destruct Hx as [Hxin Hx].
    apply andb_true_iff in Hx. destruct Hx as [Hx _].
    apply andb_true_iff in Hx. destruct Hx as [Hxf Hxt].
    apply String.eqb_eq in Hxf, Hxt. f_equal. apply Huniq; congruence.
  - pose proof (find_none _ _ Hx r Hin) as Hn. cbv beta in Hn.
    rewrite Hf, Ht, Hty, !String.eqb_refl in Hn. discriminate.
Qed.

(** Once the two friendship records are filtered out, nothing links the
    two users. *)
Lemma friendship_removed_clean (a b : string) (out inc : IRelation)
      (rels : list IRelation) :
  one_per_pair rels ->
  In out rels -> edge a b out -> rel_type out = friend ->
  In inc rels -> edge b a inc -> rel_type inc = friend ->
  forall r, In r (friendship_removed out inc rels) -> ~ between a b r.
Proof.
  intros Huniq Hout [Hof Hot] Hoty Hinc [Hif Hit] Hity r Hr Hbetween.
  unfold friendship_removed in Hr. apply filter_In in Hr. destruct Hr as [Hin Hkeep].
  assert (Hr : r = out \/ r = inc).
  { destruct Hbetween as [[Hf Ht]|[Hf Ht]].
    - left. apply Huniq; congruence.
    - right. apply Huniq; congruence. }
  destruct Hr as [->| ->].
  - rewrite String.eqb_refl, Hoty in Hkeep. discriminate.
  - rewrite String.eqb_refl, Hity, orb_true_r in Hkeep. discriminate.
Qed.

Lemma status_without_edges (w : World) (me : IAuthUser) (userId : string) :
  authUser w = Some me ->
  (forall r, In r (relationsSignal (relationService w)) ->
             ~ between (user_id me) userId r) ->
  RelationService.getRelationStatus userId w = no_status.
Proof.
  intros Hme Hno.
  destruct (getRelationStatus_trichotomy w me userId Hme)
    as [(r & Hin & He & _)|[(_ & r & Hin & He & _)|(_ & _ & H)]].
  - exfalso. apply (Hno r Hin). left. exact He.
  - exfalso. apply (Hno r Hin). right. exact He.
  - exact H.
Qed.

Lemma status_of_outgoing (w : World) (me : IAuthUser) (userId : string) (out : IRelation) :
  authUser w = Some me ->
  one_per_pair (relationsSignal (relationService w)) ->
  In out (relationsSignal (relationService w)) ->
  edge (user_id me) userId out ->
  RelationService.getRelationStatus userId w = mkStatus (rel_type out) true (Some out).
Proof.
  intros Hme Huniq Hin He. unfold RelationService.getRelationStatus. rewrite Hme.
  unfold RelationService.statusIn.
  rewrite (find_edge_unique _ _ _ _ Huniq Hin He). reflexivity.
Qed.

(** [removeFriend] between mutual friends: it throws and leaves the
    collection alone, or it sends the two deletions and then writes the
    collection without the two records. *)
Lemma removeFriend_mutual (w : World) (me : IAuthUser) (targetUserId : string)
      (out inc : IRelation) :
  let rels := relationsSignal (relationService w) in
  authUser w = Some me ->
  one_per_pair rels ->
  In out rels -> edge (user_id me) targetUserId out -> rel_type out = friend ->
  In inc rels -> edge targetUserId (user_id me) inc -> rel_type inc = friend ->
  (exists e w',
      RelationService.removeFriend targetUserId w = (Throw e, w')
      /\ authUser w' = Some me
      /\ relationsSignal (relationService w') = rels
      /\ relationsHistory (relationService w') = relationsHistory (relationService w))
  \/ (exists w',
         RelationService.removeFriend targetUserId w = (Ok tt, w')
         /\ authUser w' = Some me
         /\ relationsSignal (relationService w') = friendship_removed out inc rels
         /\ relationsHistory (relationService w')
            = friendship_removed out inc rels :: relationsHistory (relationService w)
         /\ db_log (pb w')
            = db_log (pb w) ++ [Delete Relations (rel_id out); Delete Relations (rel_id inc)]).
Proof.
  intros rels Hme Huniq Hout Hoe Hoty Hinc Hie Hity. subst rels.
  unfold RelationService.removeFriend. mstep. rewrite Hme.
  rewrite (status_of_outgoing w me targetUserId out Hme Huniq Hout Hoe).
  cbn [relation status_type]. rewrite Hoty. cbn [type_eqb RelationType_eqb negb].
  unfold RelationService.rethrow, RelationService.errorSignal_set. mstep.
  rewrite relations_delete_run.
  destruct (hd false (db_faults (pb w))).
  { left. eexists; eexists. split; [reflexivity|]. cbn. auto. }
  destruct (existsb _ (db_relations (pb w))).
  2:{ left. eexists; eexists. split; [reflexivity|]. cbn. auto. }
  cbn [relationService with_pb relationsSignal].
  rewrite (find_friend_edge_unique _ _ _ _ Huniq Hinc Hie Hity).
  rewrite relations_delete_run.
  match goal with |- context [hd false (db_faults (pb ?v))] =>
    destruct (hd false (db_faults (pb v))) end.
  { left. eexists; eexists. split; [reflexivity|]. cbn. auto. }
  match goal with |- context [existsb ?f (db_relations (pb ?v))] =>
    destruct (existsb f (db_relations (pb v))) end.
  2:{ left. eexists; eexists. split; [reflexivity|]. cbn. auto. }
  right. eexists. split; [reflexivity|]. cbn. rewrite <- app_assoc. auto.
Qed.

Lemma no_blocked_between_friends (a b : string) (rels : list IRelation) :
  one_per_pair rels -> mutual_friends a b rels -> ~ has_kind blocked a b rels.
Proof.
  intros Huniq [(out & Hout & [Hof Hot] & Hoty) (inc & Hinc & [Hif Hit] & Hity)]
         (r & Hr & Hbetween & Hty).
  assert (H : r = out \/ r = inc).
  { destruct Hbetween as [[Hf Ht]|[Hf Ht]].
    - left. apply Huniq; congruence.
    - right. apply Huniq; congruence. }
  destruct H as [-> | ->]; congruence.
Qed.

(** When the collection itself holds both [friend] edges, with at most
    one record per ordered pair, [blockUser] never writes a collection that still
    holds a [friend] edge between the two users, and the collection it
    started from holds no [blocked] edge between them: no state of the
    collection shows both.  When it succeeds, the backend received the two
    deletions and then the creation, and the collection was written twice:
    first without the friendship, then with the new [blocked] edge. *)
Theorem blockUser_friend_first_unfriends :
  forall (w : World) (me : IAuthUser) (targetUserId : string),
    let rels := relationsSignal (relationService w) in
    authUser w = Some me ->
    user_id me <> targetUserId ->
    one_per_pair rels ->
    mutual_friends (user_id me) targetUserId rels ->
    forall res w',
      RelationService.blockUser targetUserId w = (res, w') ->
      (exists written,
          relationsHistory (relationService w')
          = written ++ relationsHistory (relationService w)
          /\ (forall s, In s written -> ~ has_kind friend (user_id me) targetUserId s)
          /\ (forall s, In s (written ++ [rels]) ->
                        ~ (has_kind friend (user_id me) targetUserId s
                           /\ has_kind blocked (user_id me) targetUserId s)))
      /\ (forall r, res = Ok r ->
            exists out inc,
              In out rels /\ edge (user_id me) targetUserId out
              /\ In inc rels /\ edge targetUserId (user_id me) inc
              /\ db_log (pb w')
                 = db_log (pb w) ++ [Delete Relations (rel_id out);
                                     Delete Relations (rel_id inc);
                                     Create Relations]
              /\ relationsHistory (relationService w')
                 = (friendship_removed out inc rels ++ [r])
                     :: friendship_removed out inc rels
                     :: relationsHistory (relationService w)
              /\ edge (user_id me) targetUserId r /\ rel_type r = blocked).
Proof.
  intros w me targetUserId rels Hme Hneq Huniq Hmutual res w' Hrun.
  pose proof (no_blocked_between_friends _ _ _ Huniq Hmutual) as Hnoblock.
  destruct Hmutual as [(out & Hout & Hoe & Hoty) (inc & Hinc & Hie & Hity)].
  assert (Hclean : forall r, In r (friendship_removed out inc rels) ->
                             ~ between (user_id me) targetUserId r)
    by (apply friendship_removed_clean; assumption).
  assert (Hgoal :
    exists written,
      relationsHistory (relationService w')
      = written ++ relationsHistory (relationService w)
      /\ (forall s, In s written -> ~ has_kind friend (user_id me) targetUserId s)
      /\ (forall r, res = Ok r ->
            db_log (pb w')
            = db_log (pb w) ++ [Delete Relations (rel_id out);
                                Delete Relations (rel_id inc);
                                Create Relations]
            /\ written = [friendship_removed out inc rels ++ [r];
                          friendship_removed out inc rels]
            /\ edge (user_id me) targetUserId r /\ rel_type r = blocked)).
  { revert Hrun. unfold RelationService.blockUser. mstep. rewrite Hme.
    apply String.eqb_neq in Hneq. rewrite Hneq.
    unfold RelationService.areFriends.
    rewrite (status_of_outgoing w me targetUserId out Hme Huniq Hout Hoe).
    cbn [status_type]. rewrite Hoty. cbn [type_eqb RelationType_eqb].
    unfold RelationService.rethrow, RelationService.errorSignal_set. mstep.
    destruct (removeFriend_mutual w me targetUserId out inc Hme Huniq
                Hout Hoe Hoty Hinc Hie Hity)
      as [(e & w1 & -> & Hme1 & Hrels1 & Hhist1)
         |(w1 & -> & Hme1 & Hrels1 & Hhist1 & Hlog1)].
    - intros H. inversion H; subst; clear H. exists []. cbn.
      split; [exact Hhist1|]. split; [intros s []|]. intros r Hr. discriminate.
    - rewrite (status_without_edges w1 me targetUserId Hme1)
        by (fold rels in Hrels1; rewrite Hrels1; exact Hclean).
      cbn [status_type isInitiatedByMe relation no_status type_eqb andb].
      rewrite relations_create_run.
      destruct (hd false (db_faults (pb w1))).
      + intros H. inversion H; subst; clear H.
        exists [friendship_removed out inc rels]. cbn.
        split; [rewrite Hhist1; reflexivity|]. split.
        * intros s [<-|[]] (r & Hr & Hb & _). exact (Hclean r Hr Hb).
        * intros r Hr. discriminate.
      + cbv zeta. cbn. intros H. inversion H; subst; clear H.
        exists [friendship_removed out inc rels
                ++ [with_expand true (pb w1)
                      (mkRelation (fresh_id (pb w1)) (user_id me) targetUserId blocked
                                  (db_clock (pb w1)) (db_clock (pb w1)) None)];
                friendship_removed out inc rels].
        fold rels in Hrels1, Hhist1. cbn. rewrite Hrels1, Hhist1, Hlog1.
        split; [reflexivity|]. split.
        * intros s [<-|[<-|[]]] (r & Hr & Hb & Hty).
          -- apply in_app_iff in Hr. destruct Hr as [Hr|[<-|[]]].
             ++ exact (Hclean r Hr Hb).
             ++ discriminate.
          -- exact (Hclean r Hr Hb).
        * intros r Hr. injection Hr as <-.
          rewrite <- app_assoc. repeat split. }
  destruct Hgoal as (written & Hhist & Hnofriend & Hok).
  split.
  - exists written. split; [exact Hhist|]. split; [exact Hnofriend|].
    intros s Hs [Hf Hb]. apply in_app_iff in Hs. destruct Hs as [Hs|[<-|[]]].
    + exact (Hnofriend s Hs Hf).
    + exact (Hnoblock Hb).
  - intros r Hr. destruct (Hok r Hr) as (Hlog & Hw & He & Hty).
    exists out, inc. rewrite Hhist, Hw. repeat split; try assumption;
      try apply Hoe; try apply Hie; try apply He.
Qed.

Lemma friend_edges_one_per_pair : one_per_pair Scenario.friend_edges.
Proof.
  intros r1 r2 [<-|[<-|[]]] [<-|[<-|[]]] Hf Ht;
    try reflexivity; discriminate.
Defined.

Lemma blockUser_friend_first_unfriends_witness :
  (exists r, fst (RelationService.blockUser "U2" Scenario.friends) = Ok r)
  /\ forall s,
       In s (relationsHistory
               (relationService (snd (RelationService.blockUser "U2" Scenario.friends)))) ->
       ~ has_kind friend "U1" "U2" s.
Proof.
  split; [eexists; vm_compute; reflexivity|].
  destruct (blockUser_friend_first_unfriends Scenario.friends Scenario.alice "U2")
    with (res := fst (RelationService.blockUser "U2" Scenario.friends))
         (w' := snd (RelationService.blockUser "U2" Scenario.friends))
    as [(written & Hhist & Hnofriend & _) _].
  - reflexivity.
  - discriminate.
  - exact friend_edges_one_per_pair.
  - split.
    + exists (Scenario.friend_edge "r1" "U1" "U2").
      split; [left; reflexivity|]. split; [split|]; reflexivity.
    + exists (Scenario.friend_edge "r2" "U2" "U1").
      split; [right; left; reflexivity|]. split; [split|]; reflexivity.
  - apply surjective_pairing.
  - intros s Hs. rewrite Hhist in Hs. cbn [Scenario.friends Scenario.world
      relationService relationsHistory] in Hs.
    rewrite app_nil_r in Hs. exact (Hnofriend s Hs).
Defined.

(** ** Blocking a friend whose edge is not in the collection *)

Lemma find_reciprocal_none (a b : string) (rels : list IRelation) :
  (forall r, In r rels -> ~ edge a b r) ->
  find (fun r => (from_user r =? a) && (to_user r =? b)
                 && RelationType_eqb (rel_type r) friend) rels = None.
Proof.
  intros Hno. destruct (find _ rels) as [x|] eqn:Hx; [|reflexivity].
  apply find_some in Hx. destruct Hx as [Hin Hx].
  apply andb_true_iff in Hx. destruct Hx as [Hx _].
  apply andb_true_iff in Hx. destruct Hx as [Hf Ht].
  apply String.eqb_eq in Hf, Ht. exfalso. exact (Hno x Hin (conj Hf Ht)).
Qed.

Lemma in_existsb_id (r : IRelation) (l : list IRelation) :
  In r l -> existsb (fun x => rel_id x =? rel_id r) l = true.
Proof.
  intros Hin. apply existsb_exists. exists r. split; [exact Hin | apply String.eqb_refl].
Qed.

(** C4 where the local user's collection holds the own [friend] edge and
    not the reciprocal one, both being stored (the create event of the
    reciprocal edge has not been received): the status is [friend], so
    [blockUser] calls [removeFriend], which looks the reciprocal edge up in
    the collection only and deletes the own edge alone.  The call returns
    the new [blocked] edge after one deletion and the creation, and the
    backend holds the target's [friend] edge beside the new [blocked] edge,
    while the collection holds no [friend] edge between the two users. *)
Theorem blockUser_leaves_reciprocal_edge :
  forall (w : World) (me : IAuthUser) (targetUserId : string) (out inc : IRelation),
    let rels := relationsSignal (relationService w) in
    authUser w = Some me ->
    user_id me <> targetUserId ->
    db_faults (pb w) = [] ->
    one_per_pair rels ->
    In out rels -> edge (user_id me) targetUserId out -> rel_type out = friend ->
    (forall r, In r rels -> ~ edge targetUserId (user_id me) r) ->
    In out (db_relations (pb w)) ->
    In inc (db_relations (pb w)) ->
    edge targetUserId (user_id me) inc -> rel_type inc = friend ->
    rel_id inc <> rel_id out ->
    mutual_friends (user_id me) targetUserId (db_relations (pb w))
    /\ RelationService.areFriends targetUserId w = true
    /\ exists r w',
         RelationService.blockUser targetUserId w = (Ok r, w')
         /\ edge (user_id me) targetUserId r /\ rel_type r = blocked
         /\ db_log (pb w')
            = db_log (pb w) ++ [Delete Relations (rel_id out); Create Relations]
         /\ In inc (db_relations (pb w'))
         /\ has_kind friend (user_id me) targetUserId (db_relations (pb w'))
         /\ has_kind blocked (user_id me) targetUserId (db_relations (pb w'))
         /\ In r (relationsSignal (relationService w'))
         /\ ~ has_kind friend (user_id me) targetUserId
                       (relationsSignal (relationService w')).
Proof.
  intros w me targetUserId out inc rels Hme Hneq Hf Huniq Hout Hoe Hoty Hnoinc
         Hdbout Hdbinc Hie Hity Hids.
  split.
  { split; [exists out | exists inc]; auto. }
  assert (Hst : RelationService.getRelationStatus targetUserId w
                = mkStatus friend true (Some out)).
  { rewrite (status_of_outgoing w me targetUserId out Hme Huniq Hout Hoe), Hoty.
    reflexivity. }
  split.
  { unfold RelationService.areFriends. rewrite Hst. reflexivity. }
  set (kept := filter (fun r => negb (((rel_id r =? rel_id out) || false)
                                      && RelationType_eqb (rel_type r) friend)) rels).
  assert (Hclean : forall r, In r kept -> ~ between (user_id me) targetUserId r).
  { intros r Hr Hb. apply filter_In in Hr. destruct Hr as [Hr Hkeep].
    destruct Hb as [He|He]; [|exact (Hnoinc r Hr He)].
    assert (r = out).
    { destruct He as [H1 H2]. destruct Hoe as [H3 H4].
      apply Huniq; [exact Hr | exact Hout | congruence | congruence]. }
    subst r. rewrite String.eqb_refl, Hoty in Hkeep. discriminate Hkeep. }
  unfold RelationService.blockUser. mstep. rewrite Hme.
  apply String.eqb_neq in Hneq. rewrite Hneq.
  unfold RelationService.areFriends. rewrite Hst.
  cbn [status_type type_eqb RelationType_eqb].
  unfold RelationService.removeFriend. mstep. rewrite Hme, Hst.
  cbn [relation status_type type_eqb RelationType_eqb negb].
  unfold RelationService.rethrow, RelationService.errorSignal_set, handleError. mstep.
  rewrite relations_delete_run, Hf. cbn [hd].
  rewrite (in_existsb_id out _ Hdbout).
  cbn [relationService with_pb relationsSignal].
  fold rels. rewrite (find_reciprocal_none targetUserId (user_id me) rels Hnoinc).
  fold kept.
  match goal with |- context [RelationService.getRelationStatus _ ?v] => set (w1 := v) end.
  assert (Hme1 : authUser w1 = Some me) by exact Hme.
  assert (Hrels1 : relationsSignal (relationService w1) = kept) by reflexivity.
  rewrite (status_without_edges w1 me targetUserId Hme1)
    by (rewrite Hrels1; exact Hclean).
  cbn [status_type isInitiatedByMe relation no_status type_eqb andb].
  rewrite relations_create_run.
  assert (Hf1 : hd false (db_faults (pb w1)) = false)
    by (subst w1; cbn; rewrite Hf; reflexivity).
  rewrite Hf1. cbv zeta.
  eexists; eexists. split; [reflexivity|].
  split; [split; reflexivity|]. split; [reflexivity|].
  subst w1. clear Hme1 Hrels1 Hf1.
  cbn [pb with_pb with_relationService relationService relationsSignal set_relations
       next_id tick set_db_relations arrive db_relations db_log with_expand expand_relation
       rel_type from_user to_user].
  assert (Hinc' : In inc (filter (fun x => negb (rel_id x =? rel_id out))
                                 (db_relations (pb w)))).
  { apply filter_In. split; [exact Hdbinc|].
    apply negb_true_iff, String.eqb_neq. exact Hids. }
  split; [rewrite <- app_assoc; reflexivity|].
  split; [apply in_or_app; left; exact Hinc'|].
  split.
  { exists inc. split; [apply in_or_app; left; exact Hinc'|].
    split; [right; exact Hie | exact Hity]. }
  split.
  { eexists. split; [apply in_or_app; right; left; reflexivity|].
    split; [left; split; reflexivity | reflexivity]. }
  split; [apply in_or_app; right; left; reflexivity|].
  intros (r & Hr & Hb & Hty). apply in_app_iff in Hr.
  destruct Hr as [Hr|[<-|[]]].
  - exact (Hclean r Hr Hb).
  - discriminate Hty.
Qed.

Lemma blockUser_leaves_reciprocal_edge_witness :
  exists r w',
    RelationService.blockUser "U2"
      (Scenario.world Scenario.alice [Scenario.friend_edge "r1" "U1" "U2"] []
                      Scenario.friend_edges []) = (Ok r, w')
    /\ db_log (pb w') = [Delete Relations "r1"; Create Relations]
    /\ In (Scenario.friend_edge "r2" "U2" "U1") (db_relations (pb w'))
    /\ has_kind blocked "U1" "U2" (db_relations (pb w')).
Proof.
  destruct (blockUser_leaves_reciprocal_edge
              (Scenario.world Scenario.alice [Scenario.friend_edge "r1" "U1" "U2"] []
                              Scenario.friend_edges [])
              Scenario.alice "U2"
              (Scenario.friend_edge "r1" "U1" "U2") (Scenario.friend_edge "r2" "U2" "U1"))
    as (_ & _ & r & w' & Hrun & _ & _ & Hlog & Hinc & _ & Hblocked & _).
  - reflexivity.
  - discriminate.
  - reflexivity.
  - intros r1 r2 [<-|[]] [<-|[]] _ _. reflexivity.
  - left. reflexivity.
  - split; reflexivity.
  - reflexivity.
  - intros r [<-|[]] [Hfrom _]. discriminate Hfrom.
  - left. reflexivity.
  - right. left. reflexivity.
  - split; reflexivity.
  - reflexivity.
  - discriminate.
  - exists r, w'. split; [exact Hrun|]. split; [exact Hlog|].
    split; [exact Hinc | exact Hblocked].
Defined.

(** ** Visibility of conversations *)

Lemma same_data_refl (w : World) : same_data w w.
Proof. repeat split. Qed.

Lemma same_data_trans (w1 w2 w3 : World) :
  same_data w1 w2 -> same_data w2 w3 -> same_data w1 w3.
Proof.
  unfold same_data. intros H1 H2. decompose [and] H1. decompose [and] H2.
  repeat split; congruence.
Qed.

Lemma same_data_arrive (c : Call) (w : World) : same_data w (with_pb (arrive c) w).
Proof. repeat split. Qed.

Lemma passes_same_data (me : IAuthUser) (w w' : World) (c : IConversation) :
  same_data w w' -> passes me w' c = passes me w c.
Proof.
  intros (Hu & Hr & _ & _ & _ & Hdb & _).
  unfold passes, ConversationService.getOtherParticipant,
    RelationService.isBlockedByMe, RelationService.isBlockedBy,
    RelationService.getRelationStatus.
  rewrite Hu, Hr, Hdb. reflexivity.
Qed.

(** The loop of [fetchConversations]: it keeps only records that pass the
    test, and without transport failure it keeps all of them. *)
Lemma filterConversations_run (me : IAuthUser) (items : list IConversation) :
  forall (acc : list IConversation) (w : World),
    authUser w = Some me ->
    exists kept w',
      ConversationService.filterConversations me items acc w = (Ok (acc ++ kept), w')
      /\ same_data w w'
      /\ (forall c, In c kept -> In c items /\ passes me w c = true)
      /\ (db_faults (pb w) = [] ->
          kept = filter (passes me w) items /\ db_faults (pb w') = []).
Proof.
  induction items as [|c items IH]; intros acc w Hme.
  - exists [], w. cbn. rewrite app_nil_r.
    split; [reflexivity|]. split; [apply same_data_refl|].
    split; [intros c []|]. auto.
  - cbn [ConversationService.filterConversations]. mstep.
    destruct (ConversationService.getOtherParticipant c w) as [other|] eqn:Ho.
    2:{ destruct (IH acc w Hme) as (kept & w' & Hrun & Hsame & Hin & Hnf).
        exists kept, w'. split; [exact Hrun|]. split; [exact Hsame|]. split.
        - intros x Hx. destruct (Hin x Hx). split; [right|]; assumption.
        - intros Hf. cbn [filter]. unfold passes at 1. rewrite Ho. exact (Hnf Hf). }
    destruct (RelationService.isBlockedByMe (user_id other) w) eqn:Hb1.
    { destruct (IH acc w Hme) as (kept & w' & Hrun & Hsame & Hin & Hnf).
      exists kept, w'. split; [exact Hrun|]. split; [exact Hsame|]. split.
      - intros x Hx. destruct (Hin x Hx). split; [right|]; assumption.
      - intros Hf. cbn [filter]. unfold passes at 1. rewrite Ho, Hb1. exact (Hnf Hf). }
    destruct (RelationService.isBlockedBy (user_id other) w) eqn:Hb2.
    { destruct (IH acc w Hme) as (kept & w' & Hrun & Hsame & Hin & Hnf).
      exists kept, w'. split; [exact Hrun|]. split; [exact Hsame|]. split.
      - intros x Hx. destruct (Hin x Hx). split; [right|]; assumption.
      - intros Hf. cbn [filter]. unfold passes at 1. rewrite Ho, Hb1, Hb2.
        exact (Hnf Hf). }
    rewrite relations_getList_run.
    set (w1 := with_pb (arrive (GetList Relations)) w).
    assert (Hs1 : same_data w w1) by apply same_data_arrive.
    assert (Hme1 : authUser w1 = Some me) by exact Hme.
    assert (Hpass : forall x, passes me w1 x = passes me w x)
      by (intros x; apply passes_same_data; exact Hs1).
    destruct (hd false (db_faults (pb w))) eqn:Hf1.
    { destruct (IH acc w1 Hme1) as (kept & w' & Hrun & Hsame & Hin & Hnf).
      exists kept, w'. split; [exact Hrun|].
      split; [exact (same_data_trans _ _ _ Hs1 Hsame)|]. split.
      - intros x Hx. destruct (Hin x Hx) as [H1 H2]. rewrite Hpass in H2.
        split; [right|]; assumption.
      - intros Hf. rewrite Hf in Hf1. discriminate. }
    rewrite friendship_query_nonempty.
    destruct (existsb _ (db_relations (pb w))) eqn:Hfr.
    + destruct (IH (acc ++ [c]) w1 Hme1) as (kept & w' & Hrun & Hsame & Hin & Hnf).
      exists (c :: kept), w'. split.
      { rewrite Hrun. rewrite <- app_assoc. reflexivity. }
      split; [exact (same_data_trans _ _ _ Hs1 Hsame)|]. split.
      * intros x [<-|Hx].
        -- split; [left; reflexivity|]. unfold passes. rewrite Ho, Hb1, Hb2, Hfr.
           reflexivity.
        -- destruct (Hin x Hx) as [H1 H2]. rewrite Hpass in H2.
           split; [right|]; assumption.
      * intros Hf. cbn [filter]. unfold passes at 1. rewrite Ho, Hb1, Hb2, Hfr.
        cbn [negb andb].
        assert (Hf' : db_faults (pb w1) = []) by (cbn; rewrite Hf; reflexivity).
        destruct (Hnf Hf') as [-> Hfw]. split; [|exact Hfw].
        apply (f_equal (cons c)). apply filter_ext. exact Hpass.
    + destruct (IH acc w1 Hme1) as (kept & w' & Hrun & Hsame & Hin & Hnf).
      exists kept, w'. split; [exact Hrun|].
      split; [exact (same_data_trans _ _ _ Hs1 Hsame)|]. split.
      * intros x Hx. destruct (Hin x Hx) as [H1 H2]. rewrite Hpass in H2.
        split; [right|]; assumption.
      * intros Hf. cbn [filter]. unfold passes at 1. rewrite Ho, Hb1, Hb2, Hfr.
        cbn [negb andb].
        assert (Hf' : db_faults (pb w1) = []) by (cbn; rewrite Hf; reflexivity).
        destruct (Hnf Hf') as [-> Hfw]. split; [|exact Hfw].
        apply filter_ext. exact Hpass.
Qed.

Lemma friendship_filter_true (a b : string) (r : IRelation) :
  friendship_filter a b r = true <-> between a b r /\ rel_type r = friend.
Proof.
  unfold friendship_filter, between, edge.
  rewrite orb_true_iff, !andb_true_iff, !String.eqb_eq, RelationType_eqb_eq.
  tauto.
Qed.

Lemma has_friend_edge_existsb (a b : string) (rels : list IRelation) :
  existsb (friendship_filter a b) rels = true <-> has_kind friend a b rels.
Proof.
  rewrite existsb_exists. unfold has_kind. split.
  - intros (r & Hin & Hf). apply friendship_filter_true in Hf.
    exists r. tauto.
  - intros (r & Hin & Hb & Hty). exists r. split; [exact Hin|].
    apply friendship_filter_true. tauto.
Qed.

Lemma as_received_blocked (t : RelationType) : as_received t = blocked -> t = blocked.
Proof. destruct t; cbn; congruence. Qed.

(** A [blocked] status comes from a [blocked] edge between the two users. *)
Lemma blocked_status_has_edge (w : World) (me : IAuthUser) (userId : string) :
  authUser w = Some me ->
  status_type (RelationService.getRelationStatus userId w) = blocked ->
  has_kind blocked (user_id me) userId (relationsSignal (relationService w)).
Proof.
  intros Hme Hst.
  destruct (getRelationStatus_trichotomy w me userId Hme)
    as [(r & Hin & He & H)|[(_ & r & Hin & He & H)|(_ & _ & H)]];
    rewrite H in Hst; cbn in Hst.
  - exists r. split; [exact Hin|]. split; [left; exact He | congruence].
  - exists r. split; [exact Hin|]. split; [right; exact He|].
    apply as_received_blocked. congruence.
  - discriminate.
Qed.

Lemma not_blocked_checks (userId : string) (w : World) :
  negb (RelationService.isBlockedByMe userId w)
  && negb (RelationService.isBlockedBy userId w) = true
  <-> status_type (RelationService.getRelationStatus userId w) <> blocked.
Proof.
  unfold RelationService.isBlockedByMe, RelationService.isBlockedBy.
  rewrite <- type_eqb_neq.
  destruct (type_eqb _ blocked), (isInitiatedByMe _); cbn; split; congruence.
Qed.

Lemma passes_sound (me : IAuthUser) (w : World) (c : IConversation) :
  passes me w c = true ->
  exists other,
    ConversationService.getOtherParticipant c w = Some other
    /\ status_type (RelationService.getRelationStatus (user_id other) w) <> blocked
    /\ has_kind friend (user_id me) (user_id other) (db_relations (pb w)).
Proof.
  unfold passes. destruct (ConversationService.getOtherParticipant c w) as [other|];
    [|discriminate].
  intros H. apply andb_true_iff in H. destruct H as [H1 H2].
  exists other. split; [reflexivity|]. split.
  - apply not_blocked_checks. exact H1.
  - apply has_friend_edge_existsb. exact H2.
Qed.

Lemma passes_complete (me : IAuthUser) (w : World) (c : IConversation) (other : IAuthUser) :
  authUser w = Some me ->
  ConversationService.getOtherParticipant c w = Some other ->
  ~ has_kind blocked (user_id me) (user_id other) (relationsSignal (relationService w)) ->
  has_kind friend (user_id me) (user_id other) (db_relations (pb w)) ->
  passes me w c = true.
Proof.
  intros Hme Ho Hnb Hf. unfold passes. rewrite Ho.
  apply andb_true_iff. split.
  - apply not_blocked_checks. intros Hst. apply Hnb.
    exact (blocked_status_has_edge w me _ Hme Hst).
  - apply has_friend_edge_existsb. exact Hf.
Qed.

Lemma fetchConversations_run (w : World) (me : IAuthUser) :
  authUser w = Some me ->
  let prev := conversationsSignal (conversationService w) in
  let after := conversationsSignal
                 (conversationService (snd (ConversationService.fetchConversations w))) in
  (hd false (db_faults (pb w)) = true -> after = prev)
  /\ (hd false (db_faults (pb w)) = false ->
      forall c, In c after -> In c (fetched me (pb w)) /\ passes me w c = true)
  /\ (db_faults (pb w) = [] -> after = filter (passes me w) (fetched me (pb w))).
Proof.
  intros Hme. cbv zeta. unfold ConversationService.fetchConversations. mstep.
  rewrite Hme.
  unfold ConversationService.loadingSignal_set, ConversationService.errorSignal_set.
  mstep. rewrite conversations_getList_run.
  set (w0 := with_conversationService (set_conv_error None)
               (with_conversationService (set_conv_loading true) w)).
  assert (Hs0 : authUser w0 = Some me) by exact Hme.
  assert (Hpb : pb w0 = pb w) by reflexivity.
  assert (Hpass0 : forall c, passes me w0 c = passes me w c) by reflexivity.
  rewrite Hpb.
  destruct (hd false (db_faults (pb w))) eqn:Hf.
  { cbn. split; [reflexivity|]. split; [discriminate|].
    intros Hnil. rewrite Hnil in Hf. discriminate. }
  fold (fetched me (pb w)).
  set (w1 := with_pb (arrive (GetList Conversations)) w0).
  assert (Hme1 : authUser w1 = Some me) by exact Hme.
  assert (Hpass1 : forall c, passes me w1 c = passes me w c) by reflexivity.
  destruct (filterConversations_run me (fetched me (pb w)) [] w1 Hme1)
    as (kept & w2 & -> & Hsame & Hin & Hnf).
  cbn. destruct Hsame as (_ & _ & Hcs & _). 
  split; [discriminate|]. split.
  - intros _ c Hc. destruct (Hin c Hc) as [H1 H2]. rewrite Hpass1 in H2. auto.
  - intros Hnil.
    assert (Hnil1 : db_faults (pb w1) = []) by (cbn; rewrite Hnil; reflexivity).
    destruct (Hnf Hnil1) as [-> _]. apply filter_ext. exact Hpass1.
Qed.

(** Without transport failure, the handler of create and update events
    inserts or replaces the re-read record when it passes the test and
    removes it otherwise. *)
Lemma handleConversationCreateOrUpdate_run (w : World) (me : IAuthUser)
      (record c0 : IConversation) :
  authUser w = Some me ->
  db_faults (pb w) = [] ->
  find (fun c => conv_id c =? conv_id record) (db_conversations (pb w)) = Some c0 ->
  let fullRecord := expand_conversation (pb w) c0 in
  conversationsSignal
    (conversationService
       (snd (ConversationService.handleConversationCreateOrUpdate record w)))
  = if passes me w fullRecord
    then upsert fullRecord (conversationsSignal (conversationService w))
    else without (conv_id record) (conversationsSignal (conversationService w)).
Proof.
  intros Hme Hf Hc. cbv zeta.
  unfold ConversationService.handleConversationCreateOrUpdate. mstep.
  rewrite conversations_getOne_run, Hf, Hc. cbn [hd].
  set (full := expand_conversation (pb w) c0).
  assert (Hid : conv_id c0 = conv_id record).
  { apply find_some in Hc. destruct Hc as [_ Hc]. apply String.eqb_eq in Hc. exact Hc. }
  set (w1 := with_pb (arrive (GetOne Conversations (conv_id record))) w).
  assert (Hme1 : authUser w1 = Some me) by exact Hme.
  assert (Hpass : passes me w1 full = passes me w full) by reflexivity.
  rewrite Hme1. rewrite <- Hpass. unfold passes.
  destruct (ConversationService.getOtherParticipant full w1) as [other|];
    [|cbn; rewrite Hid; reflexivity].
  destruct (RelationService.isBlockedByMe (user_id other) w1); cbn [negb andb orb];
    [cbn; rewrite Hid; reflexivity|].
  destruct (RelationService.isBlockedBy (user_id other) w1); cbn [negb andb orb];
    [cbn; rewrite Hid; reflexivity|].
  rewrite relations_getList_run.
  assert (Hf1 : hd false (db_faults (pb w1)) = false) by (cbn; rewrite Hf; reflexivity).
  rewrite Hf1.
  pose proof (friendship_query_nonempty (user_id me) (user_id other) (pb w1)) as Hq.
  destruct (existsb _ (db_relations (pb w1))).
  - destruct (List.length _) as [|n]; [discriminate|]. cbn. reflexivity.
  - destruct (List.length _) as [|n]; [|discriminate]. cbn. rewrite Hid. reflexivity.
Qed.

Lemma in_upsert (full c : IConversation) (l : list IConversation) :
  In c (upsert full l) -> conv_id c = conv_id full -> c = full.
Proof.
  unfold upsert. destruct (existsb _ l) eqn:Hex.
  - intros H Hid. apply in_map_iff in H. destruct H as (x & Hx & _).
    destruct (conv_id x =? conv_id full) eqn:E; [congruence|].
    subst x. apply String.eqb_neq in E. contradiction.
  - intros [H|H] Hid; [congruence|].
    assert (Hall : existsb (fun x => conv_id x =? conv_id full) l = true).
    { apply existsb_exists. exists c. split; [exact H|]. apply String.eqb_eq. exact Hid. }
    congruence.
Qed.

Lemma upsert_in (full : IConversation) (l : list IConversation) : In full (upsert full l).
Proof.
  unfold upsert. destruct (existsb _ l) eqn:Hex; [|left; reflexivity].
  apply existsb_exists in Hex. destruct Hex as (x & Hx & Hid).
  apply in_map_iff. exists x. rewrite Hid. split; [reflexivity | exact Hx].
Qed.

(** With at most one record per ordered pair and no hidden [blocked]
    edge, a computed status other than [blocked] means that the collection
    holds no [blocked] edge between the two users. *)
Lemma unblocked_status_no_edge (w : World) (me : IAuthUser) (userId : string) :
  authUser w = Some me ->
  one_per_pair (relationsSignal (relationService w)) ->
  no_hidden_block (user_id me) userId (relationsSignal (relationService w)) ->
  status_type (RelationService.getRelationStatus userId w) <> blocked ->
  ~ has_kind blocked (user_id me) userId (relationsSignal (relationService w)).
Proof.
  intros Hme Huniq Hnh Hst (b & Hb & Hbetween & Hty). apply Hst.
  destruct (getRelationStatus_trichotomy w me userId Hme)
    as [(r & Hin & He & ->)|[(Hout & r & Hin & He & ->)|(Hout & Hinc & _)]]; cbn.
  - destruct Hbetween as [Hbe|Hbe].
    + assert (b = r) as ->.
      { destruct Hbe as [H1 H2]. destruct He as [H3 H4].
        apply Huniq; [exact Hb | exact Hin | congruence | congruence]. }
      rewrite Hty. reflexivity.
    + rewrite (Hnh r b Hin He Hb Hbe Hty). reflexivity.
  - destruct Hbetween as [Hbe|Hbe]; [exfalso; exact (Hout b Hb Hbe)|].
    assert (b = r) as ->.
    { destruct Hbe as [H1 H2]. destruct He as [H3 H4].
      apply Huniq; [exact Hb | exact Hin | congruence | congruence]. }
    rewrite Hty. reflexivity.
  - exfalso. destruct Hbetween as [He|He]; [exact (Hout b Hb He) | exact (Hinc b Hb He)].
Qed.

(** C1, with a [friend] edge in at least one direction in place of
    mutual friendship.  The block is read from the in-memory relation
    collection and the friendship from the backend.  Where a [blocked]
    edge appears in a conclusion, the statement is about the collections
    with at most one record per ordered pair in which no [blocked] edge of
    the other participant is hidden behind an own edge of another kind
    ([no_hidden_block]), and says nothing about the others.  After
    [fetchConversations] whose list request went through, every
    conversation of the collection is one of the fetched records, its other
    participant is known, the relation collection holds no [blocked] edge
    between the two users and the backend holds a [friend] edge between
    them in at least one direction.  Without transport failure, a fetched
    conversation whose other participant is known is in the collection
    whenever the relation collection holds no [blocked] edge between the
    two users and the backend holds a [friend] edge between them in at
    least one direction: so it is in the collection if and only if these
    two conditions hold.  A create or update event does the same for the
    record it names. *)
Theorem conversation_visibility :
  forall (w : World) (me : IAuthUser),
    authUser w = Some me ->
    let rels := relationsSignal (relationService w) in
    let after := conversationsSignal
                   (conversationService (snd (ConversationService.fetchConversations w))) in
    (hd false (db_faults (pb w)) = false ->
     forall c, In c after ->
       In c (fetched me (pb w))
       /\ exists other,
            ConversationService.getOtherParticipant c w = Some other
            /\ (one_per_pair rels -> no_hidden_block (user_id me) (user_id other) rels ->
                ~ has_kind blocked (user_id me) (user_id other) rels)
            /\ has_kind friend (user_id me) (user_id other) (db_relations (pb w)))
    /\ (db_faults (pb w) = [] ->
        forall c other,
          In c (fetched me (pb w)) ->
          ConversationService.getOtherParticipant c w = Some other ->
          ~ has_kind blocked (user_id me) (user_id other) rels ->
          has_kind friend (user_id me) (user_id other) (db_relations (pb w)) ->
          In c after)
    /\ (forall record c0,
          db_faults (pb w) = [] ->
          find (fun c => conv_id c =? conv_id record) (db_conversations (pb w)) = Some c0 ->
          let fullRecord := expand_conversation (pb w) c0 in
          let after' := conversationsSignal
                          (conversationService
                             (snd (ConversationService.handleConversationCreateOrUpdate
                                     record w))) in
          (forall c, In c after' -> conv_id c = conv_id record ->
             c = fullRecord
             /\ exists other,
                  ConversationService.getOtherParticipant c w = Some other
                  /\ (one_per_pair rels -> no_hidden_block (user_id me) (user_id other) rels ->
                      ~ has_kind blocked (user_id me) (user_id other) rels)
                  /\ has_kind friend (user_id me) (user_id other) (db_relations (pb w)))
          /\ (forall other,
                ConversationService.getOtherParticipant fullRecord w = Some other ->
                ~ has_kind blocked (user_id me) (user_id other) rels ->
                has_kind friend (user_id me) (user_id other) (db_relations (pb w)) ->
                In fullRecord after')
          /\ (forall other,
                ConversationService.getOtherParticipant fullRecord w = Some other ->
                one_per_pair rels ->
                no_hidden_block (user_id me) (user_id other) rels ->
                (In fullRecord after'
                 <-> ~ has_kind blocked (user_id me) (user_id other) rels
                     /\ has_kind friend (user_id me) (user_id other)
                                 (db_relations (pb w)))))
    /\ (db_faults (pb w) = [] ->
        forall c other,
          In c (fetched me (pb w)) ->
          ConversationService.getOtherParticipant c w = Some other ->
          one_per_pair rels ->
          no_hidden_block (user_id me) (user_id other) rels ->
          (In c after
           <-> ~ has_kind blocked (user_id me) (user_id other) rels
               /\ has_kind friend (user_id me) (user_id other) (db_relations (pb w)))).
Proof.
  intros w me Hme rels after.
  destruct (fetchConversations_run w me Hme) as (_ & Hsound & Hfull).
  fold after in Hsound, Hfull.
  assert (Hpass : forall c, passes me w c = true ->
            exists other,
              ConversationService.getOtherParticipant c w = Some other
              /\ (one_per_pair rels -> no_hidden_block (user_id me) (user_id other) rels ->
                  ~ has_kind blocked (user_id me) (user_id other) rels)
              /\ has_kind friend (user_id me) (user_id other) (db_relations (pb w))).
  { intros c Hp. destruct (passes_sound me w c Hp) as (other & Ho & Hst & Hfr).
    exists other. split; [exact Ho|]. split; [|exact Hfr].
    intros Huniq Hnh. exact (unblocked_status_no_edge w me _ Hme Huniq Hnh Hst). }
  assert (H1 : hd false (db_faults (pb w)) = false ->
               forall c, In c after ->
                 In c (fetched me (pb w))
                 /\ exists other,
                      ConversationService.getOtherParticipant c w = Some other
                      /\ (one_per_pair rels -> no_hidden_block (user_id me) (user_id other) rels ->
                          ~ has_kind blocked (user_id me) (user_id other) rels)
                      /\ has_kind friend (user_id me) (user_id other)
                                  (db_relations (pb w))).
  { intros Hf c Hc. destruct (Hsound Hf c Hc) as [Hin Hp].
    split; [exact Hin | exact (Hpass c Hp)]. }
  assert (H2 : db_faults (pb w) = [] ->
               forall c other,
                 In c (fetched me (pb w)) ->
                 ConversationService.getOtherParticipant c w = Some other ->
                 ~ has_kind blocked (user_id me) (user_id other) rels ->
                 has_kind friend (user_id me) (user_id other) (db_relations (pb w)) ->
                 In c after).
  { intros Hf c other Hc Ho Hnb Hfr. rewrite (Hfull Hf).
    apply filter_In. split; [exact Hc|].
    exact (passes_complete me w c other Hme Ho Hnb Hfr). }
  split; [exact H1|]. split; [exact H2|]. split.
  - intros record c0 Hf Hc fullRecord after'.
    pose proof (handleConversationCreateOrUpdate_run w me record c0 Hme Hf Hc) as Hrun.
    fold fullRecord in Hrun. fold after' in Hrun.
    assert (Hid : conv_id fullRecord = conv_id record).
    { apply find_some in Hc. destruct Hc as [_ Hc]. apply String.eqb_eq in Hc. exact Hc. }
    assert (Ha : forall c, In c after' -> conv_id c = conv_id record ->
               c = fullRecord
               /\ exists other,
                    ConversationService.getOtherParticipant c w = Some other
                    /\ (one_per_pair rels -> no_hidden_block (user_id me) (user_id other) rels ->
                        ~ has_kind blocked (user_id me) (user_id other) rels)
                    /\ has_kind friend (user_id me) (user_id other)
                                (db_relations (pb w))).
    { intros c Hin Hcid. rewrite Hrun in Hin.
      destruct (passes me w fullRecord) eqn:Hp.
      - assert (c = fullRecord) as -> by (apply (in_upsert _ _ _ Hin); congruence).
        split; [reflexivity|]. exact (Hpass fullRecord Hp).
      - exfalso. exact (in_without _ _ _ Hin Hcid). }
    assert (Hb : forall other,
               ConversationService.getOtherParticipant fullRecord w = Some other ->
               ~ has_kind blocked (user_id me) (user_id other) rels ->
               has_kind friend (user_id me) (user_id other) (db_relations (pb w)) ->
               In fullRecord after').
    { intros other Ho Hnb Hfr. rewrite Hrun.
      rewrite (passes_complete me w fullRecord other Hme Ho Hnb Hfr).
      apply upsert_in. }
    split; [exact Ha|]. split; [exact Hb|].
    intros other Ho Huniq Hnh. split.
    + intros Hin. destruct (Ha fullRecord Hin Hid) as (_ & other' & Ho' & Hnb & Hfr).
      rewrite Ho in Ho'. injection Ho' as <-. split; [exact (Hnb Huniq Hnh) | exact Hfr].
    + intros [Hnb Hfr]. exact (Hb other Ho Hnb Hfr).
  - intros Hf c other Hc Ho Huniq Hnh. split.
    + intros Hin.
      assert (Hf0 : hd false (db_faults (pb w)) = false) by (rewrite Hf; reflexivity).
      destruct (H1 Hf0 c Hin) as (_ & other' & Ho' & Hnb & Hfr).
      rewrite Ho in Ho'. injection Ho' as <-. split; [exact (Hnb Huniq Hnh) | exact Hfr].
    + intros [Hnb Hfr]. exact (H2 Hf c other Hc Ho Hnb Hfr).
Qed.

Lemma conversation_visibility_witness :
  In Scenario.chat_entry
     (conversationsSignal
        (conversationService (snd (ConversationService.fetchConversations Scenario.friends_chat))))
  /\ In Scenario.chat_entry
        (conversationsSignal
           (conversationService
              (snd (ConversationService.handleConversationCreateOrUpdate
                      Scenario.chat_record Scenario.friends_chat))))
  /\ ~ has_kind blocked "U1" "U2" Scenario.friend_edges
  /\ ~ In Scenario.chat_entry
          (conversationsSignal
             (conversationService
                (snd (ConversationService.fetchConversations Scenario.revoked)))).
Proof.
  assert (Hnh : no_hidden_block "U1" "U2" Scenario.friend_edges).
  { intros out inc _ _ [<-|[<-|[]]] _ Hty; discriminate. }
  assert (Hfr : has_kind friend "U1" "U2" Scenario.friend_edges).
  { exists (Scenario.friend_edge "r1" "U1" "U2").
    split; [left; reflexivity|]. split; [left; split|]; reflexivity. }
  destruct (conversation_visibility Scenario.friends_chat Scenario.alice eq_refl)
    as (Hsound & Hfetch & Hevent & _).
  assert (Hin : In Scenario.chat_entry
                   (conversationsSignal
                      (conversationService
                         (snd (ConversationService.fetchConversations
                                 Scenario.friends_chat)))))
    by (left; reflexivity).
  destruct (Hsound eq_refl Scenario.chat_entry Hin) as (_ & other & Ho & Hnb & _).
  injection Ho as <-. specialize (Hnb friend_edges_one_per_pair Hnh).
  split; [|split; [|split]].
  - apply (Hfetch eq_refl Scenario.chat_entry Scenario.bob).
    + left. reflexivity.
    + reflexivity.
    + exact Hnb.
    + exact Hfr.
  - destruct (Hevent Scenario.chat_record Scenario.chat_record eq_refl eq_refl)
      as (_ & H & _).
    apply (H Scenario.bob).
    + reflexivity.
    + exact Hnb.
    + exact Hfr.
  - exact Hnb.
  - destruct (conversation_visibility Scenario.revoked Scenario.alice eq_refl)
      as (_ & _ & _ & Hiff).
    intros Hlisted.
    apply (Hiff eq_refl Scenario.chat_entry Scenario.bob) in Hlisted.
    + destruct Hlisted as (_ & r & [] & _).
    + left. reflexivity.
    + reflexivity.
    + intros r1 r2 [].
    + intros out inc [].
Defined.

(** C1 does not hold as stated: with a single [friend] edge, from alice
    to bob, the conversation is in the collection after
    [fetchConversations], and after a create event for it, although the two
    users are not mutual friends, neither in alice's collection nor in the
    backend; no [blocked] edge is involved. *)
Lemma one_sided_friendship_shows_conversation :
  In Scenario.chat_entry
     (conversationsSignal
        (conversationService (snd (ConversationService.fetchConversations Scenario.one_sided))))
  /\ In Scenario.chat_entry
        (conversationsSignal
           (conversationService
              (snd (ConversationService.handleConversationCreateOrUpdate
                      Scenario.chat_record Scenario.one_sided))))
  /\ ~ mutual_friends "U1" "U2" (relationsSignal (relationService Scenario.one_sided))
  /\ ~ mutual_friends "U1" "U2" (db_relations (pb Scenario.one_sided))
  /\ ~ has_kind blocked "U1" "U2" (relationsSignal (relationService Scenario.one_sided))
  /\ ~ has_kind blocked "U1" "U2" (db_relations (pb Scenario.one_sided)).
Proof.
  split; [left; reflexivity|]. split; [left; reflexivity|].
  split; [intros [_ (r & [<-|[]] & [Hf _] & _)]; discriminate|].
  split; [intros [_ (r & [<-|[]] & [Hf _] & _)]; discriminate|].
  split; intros (r & [<-|[]] & _ & Hty); discriminate.
Qed.

(** ** Accepting a friend request *)

Lemma insert_sorted_in {A} (before : A -> A -> bool) (x y : A) (l : list A) :
  In x (insert_sorted before y l) <-> x = y \/ In x l.
Proof.
  induction l as [|z l IH]; cbn.
  - intuition congruence.
  - destruct (before y z); cbn; [intuition congruence|].
    rewrite IH. intuition congruence.
Qed.

Lemma insert_sorted_length {A} (before : A -> A -> bool) (y : A) (l : list A) :
  List.length (insert_sorted before y l) = S (List.length l).
Proof.
  induction l as [|z l IH]; cbn; [reflexivity|].
  destruct (before y z); cbn; [reflexivity|]. rewrite IH. reflexivity.
Qed.

Lemma sort_by_in {A} (s : option (A -> A -> bool)) (x : A) (l : list A) :
  In x (sort_by s l) <-> In x l.
Proof.
  destruct s as [before|]; [|reflexivity]. cbn.
  induction l as [|y l IH]; cbn; [reflexivity|].
  rewrite insert_sorted_in, IH. intuition congruence.
Qed.

Lemma sort_by_length {A} (s : option (A -> A -> bool)) (l : list A) :
  List.length (sort_by s l) = List.length l.
Proof.
  destruct s as [before|]; [|reflexivity]. cbn.
  induction l as [|y l IH]; cbn; [reflexivity|].
  rewrite insert_sorted_length, IH. reflexivity.
Qed.

(** A first page that is long enough holds every matching record. *)
Lemma listed_relations_in f s n e (b : Backend) (y : IRelation) :
  List.length (filter f (db_relations b)) <= n ->
  In y (listed_relations f s 1 n e b) <->
  exists x, In x (db_relations b) /\ f x = true /\ y = with_expand e b x.
Proof.
  intros Hlen. unfold listed_relations, page_of. cbn [Nat.sub Nat.mul skipn].
  rewrite firstn_all2 by (rewrite sort_by_length; exact Hlen).
  rewrite in_map_iff. split.
  - intros (x & <- & Hx). apply sort_by_in, filter_In in Hx.
    exists x. tauto.
  - intros (x & Hx & Hf & ->). exists x. split; [reflexivity|].
    apply sort_by_in, filter_In. tauto.
Qed.

(** The only entry that satisfies [p] is the one [find] returns. *)
Lemma find_only (p : IRelation -> bool) (l : list IRelation) (y : IRelation) :
  In y l -> p y = true -> (forall z, In z l -> p z = true -> z = y) ->
  find p l = Some y.
Proof.
  intros Hin Hp Honly. destruct (find p l) as [z|] eqn:Hz.
  - apply find_some in Hz. destruct Hz as [Hzin Hzp]. f_equal. auto.
  - pose proof (find_none _ _ Hz y Hin). congruence.
Qed.

Lemma with_expand_edge e (b : Backend) (r : IRelation) :
  rel_id (with_expand e b r) = rel_id r
  /\ from_user (with_expand e b r) = from_user r
  /\ to_user (with_expand e b r) = to_user r
  /\ rel_type (with_expand e b r) = rel_type r.
Proof. destruct e; repeat split. Qed.

Lemma fetchRelations_run (w : World) (me : IAuthUser) :
  authUser w = Some me ->
  exists w',
    RelationService.fetchRelations w = (Ok tt, w')
    /\ authUser w' = Some me
    /\ db_relations (pb w') = db_relations (pb w)
    /\ db_users (pb w') = db_users (pb w)
    /\ (relationsSignal (relationService w') = relationsSignal (relationService w)
        \/ relationsSignal (relationService w') = fetched_relations (user_id me) (pb w)).
Proof.
  intros Hme. unfold RelationService.fetchRelations. mstep. rewrite Hme.
  unfold RelationService.loadingSignal_set, RelationService.errorSignal_set. mstep.
  rewrite relations_getList_run.
  cbn [pb with_relationService].
  destruct (hd false (db_faults (pb w))).
  - eexists. split; [reflexivity|]. cbn. auto.
  - eexists. split; [reflexivity|]. cbn. auto.
Qed.

Lemma listed_relations_ext f s p n e (b b' : Backend) :
  db_relations b = db_relations b' -> db_users b = db_users b' ->
  listed_relations f s p n e b = listed_relations f s p n e b'.
Proof.
  intros Hr Hu. unfold listed_relations. rewrite Hr.
  apply map_ext. intros r. destruct e; [|reflexivity].
  unfold with_expand, expand_relation, find_user. rewrite Hu. reflexivity.
Qed.

(** With no stored [pending_received], a [pending_received] status is
    the view of the first incoming edge, and there is no outgoing edge. *)
Lemma pending_received_from_incoming (w : World) (me : IAuthUser) (userId : string) :
  authUser w = Some me ->
  never_received (relationsSignal (relationService w)) ->
  status_type (RelationService.getRelationStatus userId w) = pending_received ->
  let rels := relationsSignal (relationService w) in
  find (fun r => (from_user r =? user_id me) && (to_user r =? userId)) rels = None
  /\ exists rel,
       find (fun r => (from_user r =? userId) && (to_user r =? user_id me)) rels = Some rel
       /\ RelationService.getRelationStatus userId w
          = mkStatus pending_received false (Some rel).
Proof.
  intros Hme Hnever. cbv zeta.
  unfold RelationService.getRelationStatus. rewrite Hme.
  unfold RelationService.statusIn.
  destruct (find _ _) as [out|] eqn:Hout.
  - cbn. intros Hty. apply find_edge_some in Hout. destruct Hout as [Hin _].
    exfalso. apply (Hnever out Hin). congruence.
  - destruct (find (fun r => (from_user r =? userId) && _) _) as [inc|]; cbn;
      [|intros H; discriminate H].
    intros Hty. split; [reflexivity|]. exists inc. split; [reflexivity|].
    rewrite Hty. reflexivity.
Qed.

Lemma find_replaced (p : IRelation -> bool) (rel upd : IRelation) (l : list IRelation) :
  find p l = Some rel -> p upd = true ->
  find p (map (fun x => if rel_id x =? rel_id rel then upd else x) l) = Some upd.
Proof.
  intros Hfind Hp. induction l as [|x l IH]; [discriminate|].
  cbn in Hfind. cbn. destruct (p x) eqn:Hx.
  - injection Hfind as ->. rewrite String.eqb_refl, Hp. reflexivity.
  - destruct (rel_id x =? rel_id rel).
    + rewrite Hp. reflexivity.
    + rewrite Hx. exact (IH Hfind).
Qed.

Lemma find_none_replaced (p : IRelation -> bool) (rel upd : IRelation) (l : list IRelation) :
  find p l = None -> p upd = false ->
  find p (map (fun x => if rel_id x =? rel_id rel then upd else x) l) = None.
Proof.
  intros Hfind Hp. induction l as [|x l IH]; [reflexivity|].
  cbn in Hfind. cbn. destruct (p x) eqn:Hx; [discriminate|].
  destruct (rel_id x =? rel_id rel).
  - rewrite Hp. exact (IH Hfind).
  - rewrite Hx. exact (IH Hfind).
Qed.

(** What a successful [acceptFriendRequest] has done, when the request
    came over the incoming edge [rel] stored as [s]. *)
Lemma acceptFriendRequest_ok (w w' : World) (me : IAuthUser) (targetUserId : string)
      (rel : IRelation) :
  let rels := relationsSignal (relationService w) in
  authUser w = Some me ->
  user_id me <> targetUserId ->
  find (fun r => (from_user r =? user_id me) && (to_user r =? targetUserId)) rels = None ->
  RelationService.getRelationStatus targetUserId w
  = mkStatus pending_received false (Some rel) ->
  (forall s, find (fun r => rel_id r =? rel_id rel) (db_relations (pb w)) = Some s ->
             from_user s = targetUserId) ->
  RelationService.acceptFriendRequest targetUserId w = (Ok tt, w') ->
  exists s now id_ now',
    find (fun r => rel_id r =? rel_id rel) (db_relations (pb w)) = Some s
    /\ db_relations (pb w')
       = map (fun x => if rel_id x =? rel_id rel then set_rel_type friend now x else x)
             (db_relations (pb w))
         ++ [mkRelation id_ (user_id me) targetUserId friend now' now' None]
    /\ db_users (pb w') = db_users (pb w)
    /\ authUser w' = Some me
    /\ (relationsSignal (relationService w')
        = map (fun r => if rel_id r =? rel_id rel
                        then with_expand true (pb w) (set_rel_type friend now s) else r)
              rels
        \/ relationsSignal (relationService w') = fetched_relations (user_id me) (pb w')).
Proof.
  intros rels Hme Hneq Hnone Hst Hfrom.
  unfold RelationService.acceptFriendRequest. mstep. rewrite Hme, Hst.
  cbn [relation status_type type_eqb RelationType_eqb negb].
  unfold RelationService.rethrow, RelationService.errorSignal_set. mstep.
  rewrite relations_update_run.
  destruct (hd false (db_faults (pb w))); [discriminate|].
  destruct (find (fun r => rel_id r =? rel_id rel) (db_relations (pb w)))
    as [s|] eqn:Hs; [|discriminate].
  specialize (Hfrom s eq_refl).
  cbn [relationService with_pb with_relationService relationsSignal set_relations].
  set (upd := with_expand true (pb w) (set_rel_type friend (db_clock (pb w)) s)).
  fold rels.
  rewrite (find_none_replaced _ rel upd rels Hnone).
  2:{ subst upd. cbn. rewrite Hfrom.
      assert (Hx : (targetUserId =? user_id me) = false)
        by (apply String.eqb_neq; congruence).
      rewrite Hx. reflexivity. }
  rewrite relations_create_run.
  match goal with |- context [hd false (db_faults (pb ?v))] =>
    destruct (hd false (db_faults (pb v))) end; [discriminate|].
  cbv beta iota zeta.
  match goal with |- context [RelationService.fetchRelations ?v] =>
    set (w4 := v);
    destruct (fetchRelations_run w4 me Hme) as (w5 & Hrun & Hme5 & Hdb5 & Hu5 & Hrels5)
  end.
  rewrite Hrun. intros H. injection H as <-.
  exists s, (db_clock (pb w)).
  eexists. eexists. split; [reflexivity|].
  split; [rewrite Hdb5; reflexivity|].
  split; [rewrite Hu5; reflexivity|].
  split; [exact Hme5|].
  destruct Hrels5 as [H|H]; [left | right]; rewrite H.
  - reflexivity.
  - unfold fetched_relations. apply listed_relations_ext; symmetry; assumption.
Qed.

Lemma unique_ids (l : list IRelation) (x y : IRelation) :
  NoDup (map rel_id l) -> In x l -> In y l -> rel_id x = rel_id y -> x = y.
Proof.
  induction l as [|z l IH]; intros Hnd Hx Hy Hid; [destruct Hx|].
  cbn in Hnd. inversion Hnd as [|? ? Hnotin Hnd']; subst.
  destruct Hx as [->|Hx], Hy as [->|Hy].
  - reflexivity.
  - exfalso. apply Hnotin. rewrite Hid. apply in_map. exact Hy.
  - exfalso. apply Hnotin. rewrite <- Hid. apply in_map. exact Hx.
  - exact (IH Hnd' Hx Hy Hid).
Qed.

Lemma retyped_edge i t now (x : IRelation) :
  rel_id (retyped i t now x) = rel_id x
  /\ from_user (retyped i t now x) = from_user x
  /\ to_user (retyped i t now x) = to_user x.
Proof. unfold retyped. destruct (rel_id x =? i); repeat split. Qed.

Lemma touches_retyped u i t now (x : IRelation) :
  touches u (retyped i t now x) = touches u x.
Proof.
  unfold touches. destruct (retyped_edge i t now x) as (_ & -> & ->). reflexivity.
Qed.

Lemma filter_touches_retyped u i t now (l : list IRelation) :
  List.length (filter (touches u) (map (retyped i t now) l))
  = List.length (filter (touches u) l).
Proof.
  induction l as [|x l IH]; [reflexivity|].
  cbn [map filter]. rewrite touches_retyped.
  destruct (touches u x); cbn [List.length]; rewrite IH; reflexivity.
Qed.

(** One more record keeps the page of [fetchRelations] complete. *)
Lemma page_after_accept u i t now (new : IRelation) (b b' : Backend) :
  fits_page u b ->
  db_relations b' = map (retyped i t now) (db_relations b) ++ [new] ->
  List.length (filter (touches u) (db_relations b')) <= 1000.
Proof.
  unfold fits_page. intros Hfit ->.
  rewrite filter_app, length_app, filter_touches_retyped.
  cbn [filter]. destruct (touches u new); cbn [List.length]; lia.
Qed.

Lemma status_of_only_outgoing (me other : string) (l : list IRelation) (y : IRelation) :
  In y l -> edge me other y ->
  (forall z, In z l -> edge me other z -> z = y) ->
  RelationService.statusIn me l other = mkStatus (rel_type y) true (Some y).
Proof.
  intros Hin [Hf Ht] Honly. unfold RelationService.statusIn.
  rewrite (find_only _ l y Hin).
  - reflexivity.
  - rewrite Hf, Ht, !String.eqb_refl. reflexivity.
  - intros z Hz Hp. apply andb_true_iff in Hp. destruct Hp as [H1 H2].
    apply String.eqb_eq in H1, H2. apply Honly; [exact Hz | split; assumption].
Qed.

(** C3: when the local user's status towards the requester is
    [pending_received] and [acceptFriendRequest] returns, the stored
    incoming edge has kind [friend], a stored edge from the local user to
    the requester has kind [friend], the local user's computed status is
    [friend], and so is the requester's, computed from the page of relations
    their client fetches.  The collection is assumed to mirror the stored
    relations of the local user, identifiers to be unique, each ordered pair
    to have at most one stored record, [pending_received] never to be stored,
    and the relations of either user to fit in one page of
    [fetchRelations]. *)
Theorem acceptFriendRequest_makes_friends :
  forall (w w' : World) (me : IAuthUser) (targetUserId : string),
    let rels := relationsSignal (relationService w) in
    let stored := db_relations (pb w) in
    authUser w = Some me ->
    never_received rels ->
    mirrors (user_id me) rels stored ->
    NoDup (map rel_id stored) ->
    one_per_pair stored ->
    fits_page (user_id me) (pb w) ->
    fits_page targetUserId (pb w) ->
    status_type (RelationService.getRelationStatus targetUserId w) = pending_received ->
    RelationService.acceptFriendRequest targetUserId w = (Ok tt, w') ->
    exists rel,
      relation (RelationService.getRelationStatus targetUserId w) = Some rel
      /\ edge targetUserId (user_id me) rel
      /\ (exists s, In s (db_relations (pb w')) /\ rel_id s = rel_id rel
                    /\ edge targetUserId (user_id me) s /\ rel_type s = friend)
      /\ (exists s, In s (db_relations (pb w'))
                    /\ edge (user_id me) targetUserId s /\ rel_type s = friend)
      /\ status_type (RelationService.getRelationStatus targetUserId w') = friend
      /\ status_type
           (RelationService.statusIn targetUserId
              (fetched_relations targetUserId (pb w')) (user_id me)) = friend.
Proof.
  intros w w' me a rels stored Hme Hnever [Hmir1 Hmir2] Hids Hpair Hfit Hfita Hty Hrun.
  destruct (pending_received_from_incoming w me a Hme Hnever Hty)
    as (Hnone & rel & Hinc & Hst).
  fold rels in Hnone, Hinc.
  pose proof (find_edge_some _ _ _ _ Hinc) as [Hrel Hedge].
  assert (Hneq : user_id me <> a).
  { intros <-. apply (find_edge_none _ _ _ Hnone rel Hrel). exact Hedge. }
  destruct (Hmir1 rel Hrel) as (s0 & Hs0 & Hid0 & Hf0 & Ht0).
  assert (Hstored : forall s,
             find (fun r => rel_id r =? rel_id rel) stored = Some s -> s = s0).
  { intros s Hs. apply find_some in Hs. destruct Hs as [Hs Hid].
    apply String.eqb_eq in Hid. apply (unique_ids stored); congruence. }
  destruct (acceptFriendRequest_ok w w' me a rel Hme Hneq Hnone Hst)
    as (s & now & id_ & now' & Hfind & Hdb & Hu & Hme' & Hmem); [|exact Hrun|].
  { intros s Hs. rewrite (Hstored s Hs). destruct Hedge. congruence. }
  fold stored in Hfind, Hdb. rewrite (Hstored s Hfind) in *. clear s Hfind.
  change (db_relations (pb w')
          = map (retyped (rel_id rel) friend now) stored
            ++ [mkRelation id_ (user_id me) a friend now' now' None]) in Hdb.
  set (new := mkRelation id_ (user_id me) a friend now' now' None) in *.
  set (upd := set_rel_type friend now s0).
  assert (Hupd : retyped (rel_id rel) friend now s0 = upd).
  { unfold retyped. rewrite <- Hid0, String.eqb_refl. reflexivity. }
  assert (Hupd_in : In upd (db_relations (pb w'))).
  { rewrite Hdb. apply in_or_app. left. rewrite <- Hupd. apply in_map. exact Hs0. }
  assert (Hupd_edge : edge a (user_id me) upd).
  { destruct Hedge as [Hf Ht]. split; cbn; congruence. }
  assert (Hnew_in : In new (db_relations (pb w'))).
  { rewrite Hdb. apply in_or_app. right. left. reflexivity. }
  assert (Hnew_edge : edge (user_id me) a new) by (split; reflexivity).
  (* stored edges from the local user to the requester: only the new one *)
  assert (Honly_new : forall x, In x (db_relations (pb w')) ->
                                edge (user_id me) a x -> x = new).
  { intros x Hx [Hxf Hxt]. rewrite Hdb in Hx. apply in_app_iff in Hx.
    destruct Hx as [Hx|[<-|[]]]; [|reflexivity].
    apply in_map_iff in Hx. destruct Hx as (x0 & <- & Hx0).
    destruct (retyped_edge (rel_id rel) friend now x0) as (_ & Hrf & Hrt).
    rewrite Hrf in Hxf. rewrite Hrt in Hxt.
    destruct (Hmir2 x0 Hx0) as (r & Hr & _ & Hrf' & Hrt').
    { unfold touches. rewrite Hxf, String.eqb_refl. reflexivity. }
    exfalso. apply (find_edge_none _ _ _ Hnone r Hr). split; congruence. }
  (* stored edges from the requester to the local user: only the updated one *)
  assert (Honly_upd : forall x, In x (db_relations (pb w')) ->
                                edge a (user_id me) x -> x = upd).
  { intros x Hx [Hxf Hxt]. rewrite Hdb in Hx. apply in_app_iff in Hx.
    destruct Hx as [Hx|[<-|[]]].
    - apply in_map_iff in Hx. destruct Hx as (x0 & <- & Hx0).
      destruct (retyped_edge (rel_id rel) friend now x0) as (_ & Hrf & Hrt).
      rewrite Hrf in Hxf. rewrite Hrt in Hxt.
      assert (x0 = s0) as -> by (destruct Hedge; apply Hpair; congruence).
      exact Hupd.
    - cbn in Hxf. congruence. }
  exists rel. rewrite Hst. split; [reflexivity|]. split; [exact Hedge|].
  split; [exists upd; repeat split; try apply Hupd_edge; [exact Hupd_in | cbn; congruence]|].
  split; [exists new; repeat split; exact Hnew_in|].
  split.
  - (* the local user's status *)
    unfold RelationService.getRelationStatus. rewrite Hme'.
    destruct Hmem as [Hmem|Hmem]; rewrite Hmem.
    + unfold RelationService.statusIn.
      assert (Hout : forall u : IRelation,
                 from_user u = a -> to_user u = user_id me ->
                 ((from_user u =? user_id me) && (to_user u =? a)) = false).
      { intros u -> ->. apply andb_false_iff. left. apply String.eqb_neq. congruence. }
      rewrite (find_none_replaced _ rel _ rels Hnone)
        by (apply Hout; cbn; destruct Hedge; congruence).
      rewrite (find_replaced _ rel _ rels Hinc).
      * reflexivity.
      * cbn. destruct Hedge as [Hf Ht]. rewrite <- Hf0, <- Ht0, Hf, Ht, !String.eqb_refl.
        reflexivity.
    + unfold fetched_relations.
      rewrite (status_of_only_outgoing (user_id me) a _ (with_expand true (pb w') new)).
      * reflexivity.
      * apply listed_relations_in;
          [exact (page_after_accept _ _ _ _ _ _ _ Hfit Hdb)|].
        exists new. split; [exact Hnew_in|]. split; [|reflexivity].
        unfold touches. cbn. rewrite String.eqb_refl. reflexivity.
      * split; reflexivity.
      * intros z Hz [Hzf Hzt].
        apply listed_relations_in in Hz;
          [|exact (page_after_accept _ _ _ _ _ _ _ Hfit Hdb)].
        destruct Hz as (x & Hx & _ & ->).
        destruct (with_expand_edge true (pb w') x) as (_ & Hef & Het & _).
        rewrite (Honly_new x Hx); [reflexivity|]. split; congruence.
  - (* the requester's status *)
    unfold fetched_relations.
    rewrite (status_of_only_outgoing a (user_id me) _ (with_expand true (pb w') upd)).
    + reflexivity.
    + apply listed_relations_in;
        [exact (page_after_accept _ _ _ _ _ _ _ Hfita Hdb)|].
      exists upd. split; [exact Hupd_in|]. split; [|reflexivity].
      unfold touches. destruct Hupd_edge as [-> _]. rewrite String.eqb_refl. reflexivity.
    + destruct Hupd_edge. split; cbn; assumption.
    + intros z Hz [Hzf Hzt].
      apply listed_relations_in in Hz;
        [|exact (page_after_accept _ _ _ _ _ _ _ Hfita Hdb)].
      destruct Hz as (x & Hx & _ & ->).
      destruct (with_expand_edge true (pb w') x) as (_ & Hef & Het & _).
      rewrite (Honly_upd x Hx); [reflexivity|]. split; congruence.
Qed.

Lemma acceptFriendRequest_makes_friends_witness :
  let w' := snd (RelationService.acceptFriendRequest "U1" Scenario.pending) in
  status_type (RelationService.getRelationStatus "U1" w') = friend
  /\ status_type
       (RelationService.statusIn "U1" (fetched_relations "U1" (pb w')) "U2") = friend.
Proof.
  intros w'.
  destruct (acceptFriendRequest_makes_friends Scenario.pending w' Scenario.bob "U1")
    as (rel & _ & _ & _ & _ & Hmine & Htheirs).
  - reflexivity.
  - intros r [<-|[]]. discriminate.
  - split.
    + intros r [<-|[]]. exists Scenario.request_edge.
      split; [left; reflexivity | repeat split].
    + intros s [<-|[]] _. exists Scenario.request_edge.
      split; [left; reflexivity | repeat split].
  - repeat constructor. intros [].
  - intros r1 r2 [<-|[]] [<-|[]] _ _. reflexivity.
  - apply Nat.ltb_lt. vm_compute. reflexivity.
  - apply Nat.ltb_lt. vm_compute. reflexivity.
  - reflexivity.
  - vm_compute. reflexivity.
  - split; [exact Hmine | exact Htheirs].
Defined.

(** * Further properties of the services *)

(** ** Rejecting, cancelling, unblocking *)

(** The try block of the three methods: a failed deletion throws, a
    deletion that went through is followed by the update of the
    collection. *)
Ltac delete_then_drop w :=
  rewrite relations_delete_run;
  unfold RelationService.rethrow, RelationService.errorSignal_set; mstep;
  destruct (hd false (db_faults (pb w)));
  [|destruct (existsb _ (db_relations (pb w)))].

Lemma filter_other_ids_no_edge (a b : string) (rel : IRelation) (rels : list IRelation) :
  one_per_pair rels -> In rel rels -> edge a b rel ->
  forall r, In r (filter (fun x => negb (rel_id x =? rel_id rel)) rels) -> ~ edge a b r.
Proof.
  intros Huniq Hin [Hf Ht] r Hr [Hrf Hrt].
  apply filter_In in Hr. destruct Hr as [Hr Hid].
  assert (r = rel) as -> by (apply Huniq; congruence).
  rewrite String.eqb_refl in Hid. discriminate.
Qed.

Lemma filter_keeps_no_edge (a b : string) (p : IRelation -> bool) (rels : list IRelation) :
  (forall r, In r rels -> ~ edge a b r) ->
  forall r, In r (filter p rels) -> ~ edge a b r.
Proof. intros H r Hr. apply filter_In in Hr. apply H. tauto. Qed.

(** X1: [rejectFriendRequest] throws with the state unchanged unless the
    status is [pending_received]; when it returns, one deletion was sent and
    the record of the status is gone from the stored relations and from the
    collection; with at most one record per ordered pair in the collection,
    the status is then [no_relation]. *)
Theorem rejectFriendRequest_effect :
  forall (w : World) (targetUserId : string),
    (status_type (RelationService.getRelationStatus targetUserId w) <> pending_received ->
     exists e, RelationService.rejectFriendRequest targetUserId w = (Throw e, w))
    /\ (forall w',
          RelationService.rejectFriendRequest targetUserId w = (Ok tt, w') ->
          exists rel,
            RelationService.getRelationStatus targetUserId w
            = mkStatus pending_received (isInitiatedByMe
                                           (RelationService.getRelationStatus targetUserId w))
                       (Some rel)
            /\ db_log (pb w') = db_log (pb w) ++ [Delete Relations (rel_id rel)]
            /\ db_relations (pb w')
               = filter (fun r => negb (rel_id r =? rel_id rel)) (db_relations (pb w))
            /\ relationsSignal (relationService w')
               = filter (fun r => negb (rel_id r =? rel_id rel))
                        (relationsSignal (relationService w))
            /\ (one_per_pair (relationsSignal (relationService w)) ->
                never_received (relationsSignal (relationService w)) ->
                RelationService.getRelationStatus targetUserId w' = no_status)).
Proof.
  intros w targetUserId. unfold RelationService.rejectFriendRequest. mstep.
  destruct (authUser w) as [me|] eqn:Hme.
  2:{ split; [intros _; eexists; reflexivity | intros w' H; discriminate]. }
  destruct (RelationService.getRelationStatus targetUserId w) as [ty init [rel|]] eqn:Hst;
    cbn [relation status_type isInitiatedByMe].
  2:{ split; [intros _; eexists; reflexivity | intros w' H; discriminate]. }
  destruct (type_eqb ty pending_received) eqn:Hty; cbn [negb].
  2:{ split; [intros _; eexists; reflexivity | intros w' H; discriminate]. }
  apply type_eqb_eq in Hty. subst ty.
  split; [intros H; contradiction|].
  delete_then_drop w; intros w' Hrun; try discriminate.
  injection Hrun as <-.
  assert (Hrels : relationsSignal
                    (relationService
                       (with_relationService
                          (fun s => set_relations
                                      (filter (fun r => negb (rel_id r =? rel_id rel))
                                              (relationsSignal s)) s)
                          (with_pb
                             (fun d => tick (set_db_relations
                                               (filter (fun x => negb (rel_id x =? rel_id rel))
                                                       (db_relations d)) d))
                             (with_pb (arrive (Delete Relations (rel_id rel))) w))))
                  = filter (fun r => negb (rel_id r =? rel_id rel))
                           (relationsSignal (relationService w))) by reflexivity.
  exists rel. split; [reflexivity|]. split; [reflexivity|]. split; [reflexivity|].
  split; [exact Hrels|].
  intros Huniq Hnever.
  assert (Hty : status_type (RelationService.getRelationStatus targetUserId w)
                = pending_received) by (rewrite Hst; reflexivity).
  destruct (pending_received_from_incoming w me targetUserId Hme Hnever Hty)
    as (Hnone & rel' & Hinc & Hst').
  rewrite Hst in Hst'. injection Hst' as _ <-.
  pose proof (find_edge_some _ _ _ _ Hinc) as [Hin Hedge].
  apply (status_without_edges _ me); [exact Hme|].
  rewrite Hrels. intros r Hr [He|He].
  - exact (filter_keeps_no_edge _ _ _ _ (find_edge_none _ _ _ Hnone) r Hr He).
  - exact (filter_other_ids_no_edge _ _ rel _ Huniq Hin Hedge r Hr He).
Qed.

Lemma rejectFriendRequest_effect_witness :
  (exists e, RelationService.rejectFriendRequest "U2" Scenario.friends
             = (Throw e, Scenario.friends))
  /\ RelationService.getRelationStatus "U1"
       (snd (RelationService.rejectFriendRequest "U1" Scenario.pending)) = no_status.
Proof.
  split.
  - apply (rejectFriendRequest_effect Scenario.friends "U2"). discriminate.
  - destruct (rejectFriendRequest_effect Scenario.pending "U1") as [_ H].
    destruct (H (snd (RelationService.rejectFriendRequest "U1" Scenario.pending)))
      as (rel & _ & _ & _ & _ & Hst).
    + vm_compute. reflexivity.
    + apply Hst.
      * intros r1 r2 [<-|[]] [<-|[]] _ _. reflexivity.
      * intros r [<-|[]]. discriminate.
Defined.

Lemma filter_all {A} (p : A -> bool) (l : list A) :
  (forall x, In x l -> p x = true) -> filter p l = l.
Proof.
  induction l as [|x l IH]; intros H; [reflexivity|].
  cbn. rewrite (H x (or_introl eq_refl)). f_equal. apply IH.
  intros y Hy. apply H. right. exact Hy.
Qed.

Lemma filter_drops_last (rels : list IRelation) (r r' : IRelation) :
  rel_id r' = rel_id r ->
  (forall x, In x rels -> rel_id x <> rel_id r) ->
  filter (fun x => negb (rel_id x =? rel_id r)) (rels ++ [r']) = rels.
Proof.
  intros Hid Hfresh. rewrite filter_app. cbn. rewrite Hid, String.eqb_refl. cbn.
  rewrite app_nil_r. apply filter_all. intros x Hx.
  apply negb_true_iff, String.eqb_neq. exact (Hfresh x Hx).
Qed.

Lemma find_app_last (p : IRelation -> bool) (l : list IRelation) (r : IRelation) :
  find p l = None -> p r = true -> find p (l ++ [r]) = Some r.
Proof.
  intros Hnone Hp. induction l as [|x l IH]; cbn.
  - rewrite Hp. reflexivity.
  - cbn in Hnone. destruct (p x); [discriminate|]. exact (IH Hnone).
Qed.

(** What a successful [sendFriendRequest] has done. *)
Lemma sendFriendRequest_ok (w w1 : World) (targetUserId : string) (r : IRelation) :
  RelationService.sendFriendRequest targetUserId w = (Ok r, w1) ->
  exists me,
    authUser w = Some me /\ authUser w1 = Some me
    /\ RelationService.getRelationStatus targetUserId w = no_status
    /\ edge (user_id me) targetUserId r /\ rel_type r = pending_sent
    /\ relationsSignal (relationService w1) = relationsSignal (relationService w) ++ [r]
    /\ db_relations (pb w1) = db_relations (pb w) ++ [unexpanded r]
    /\ db_faults (pb w1) = tl (db_faults (pb w)).
Proof.
  unfold RelationService.sendFriendRequest. mstep.
  destruct (authUser w) as [me|] eqn:Hme; [|discriminate].
  destruct (user_id me =? targetUserId); [discriminate|].
  destruct (type_eqb _ no_relation) eqn:Hst; cbn [negb]; [|discriminate].
  apply type_eqb_eq in Hst.
  rewrite relations_create_run.
  unfold RelationService.rethrow, RelationService.errorSignal_set. mstep.
  destruct (hd false (db_faults (pb w))); [discriminate|].
  cbv zeta. intros H. injection H as <- <-.
  exists me. split; [reflexivity|]. split; [exact Hme|]. split.
  - destruct (getRelationStatus_trichotomy w me targetUserId Hme)
      as [(x & _ & _ & H)|[(_ & x & _ & _ & H)|(_ & _ & H)]];
      try exact H; rewrite H in Hst; discriminate.
  - cbn. unfold edge. repeat split.
Qed.

(** X2: Cancelling undoes sending: when the request that was just sent is
    cancelled, and the identifier the backend gave it was not in use, the
    collection and the stored relations are what they were before the
    request, and the status is [no_relation] again. *)
Theorem send_then_cancel :
  forall (w w1 : World) (targetUserId : string) (r : IRelation),
    RelationService.sendFriendRequest targetUserId w = (Ok r, w1) ->
    hd false (db_faults (pb w1)) = false ->
    (forall x, In x (relationsSignal (relationService w)) -> rel_id x <> rel_id r) ->
    (forall x, In x (db_relations (pb w)) -> rel_id x <> rel_id r) ->
    exists w2,
      RelationService.cancelFriendRequest targetUserId w1 = (Ok tt, w2)
      /\ relationsSignal (relationService w2) = relationsSignal (relationService w)
      /\ db_relations (pb w2) = db_relations (pb w)
      /\ RelationService.getRelationStatus targetUserId w2 = no_status.
Proof.
  intros w w1 targetUserId r Hsend Hf Hmem Hdb.
  destruct (sendFriendRequest_ok w w1 targetUserId r Hsend)
    as (me & Hme & Hme1 & Hst & Hedge & Hty & Hrels1 & Hdb1 & _).
  assert (Hnone : find (fun x => (from_user x =? user_id me) && (to_user x =? targetUserId))
                       (relationsSignal (relationService w)) = None).
  { revert Hst. unfold RelationService.getRelationStatus. rewrite Hme.
    unfold RelationService.statusIn. destruct (find _ _); [discriminate | reflexivity]. }
  assert (Hst1 : RelationService.getRelationStatus targetUserId w1
                 = mkStatus pending_sent true (Some r)).
  { unfold RelationService.getRelationStatus. rewrite Hme1, Hrels1.
    unfold RelationService.statusIn.
    rewrite (find_app_last _ _ r Hnone).
    - rewrite Hty. reflexivity.
    - destruct Hedge as [-> ->]. rewrite !String.eqb_refl. reflexivity. }
  unfold RelationService.cancelFriendRequest. mstep. rewrite Hme1, Hst1.
  cbn [relation status_type type_eqb RelationType_eqb negb].
  rewrite relations_delete_run, Hf.
  unfold RelationService.rethrow, RelationService.errorSignal_set. mstep.
  assert (Hex : existsb (fun x => rel_id x =? rel_id r) (db_relations (pb w1)) = true).
  { rewrite Hdb1, existsb_app. cbn. rewrite String.eqb_refl. apply orb_true_iff. right.
    reflexivity. }
  rewrite Hex. eexists. split; [reflexivity|]. cbn.
  assert (Hback : filter (fun x => negb (rel_id x =? rel_id r))
                         (relationsSignal (relationService w1))
                  = relationsSignal (relationService w)).
  { rewrite Hrels1. apply filter_drops_last; [reflexivity | exact Hmem]. }
  split; [exact Hback|]. split.
  - rewrite Hdb1. apply filter_drops_last; [reflexivity | exact Hdb].
  - unfold RelationService.getRelationStatus. cbn. rewrite Hme1, Hback.
    revert Hst. unfold RelationService.getRelationStatus. rewrite Hme. tauto.
Qed.

Lemma send_then_cancel_witness :
  exists w2,
    RelationService.cancelFriendRequest "U2"
      (snd (RelationService.sendFriendRequest "U2"
              (client Scenario.alice Scenario.empty_backend))) = (Ok tt, w2)
    /\ relationsSignal (relationService w2) = []
    /\ db_relations (pb w2) = [].
Proof.
  destruct (send_then_cancel (client Scenario.alice Scenario.empty_backend)
              (snd (RelationService.sendFriendRequest "U2"
                      (client Scenario.alice Scenario.empty_backend)))
              "U2"
              (expand_relation Scenario.empty_backend
                 (mkRelation "rec0" "U1" "U2" pending_sent 0 0 None)))
    as (w2 & Hrun & Hrels & Hdb & _).
  - vm_compute. reflexivity.
  - reflexivity.
  - intros x [].
  - intros x [].
  - exists w2. split; [exact Hrun|]. split; assumption.
Defined.

(** X3: [unblockUser] throws with the state unchanged unless the status is
    [blocked] with [isInitiatedByMe]; when it returns, one deletion was
    sent and the local user's record is gone from the stored relations and
    from the collection, the other records staying; with at most one record
    per ordered pair in the collection, the local user no longer blocks the
    target. *)
Theorem unblockUser_effect :
  forall (w : World) (targetUserId : string),
    (RelationService.isBlockedByMe targetUserId w = false ->
     exists e, RelationService.unblockUser targetUserId w = (Throw e, w))
    /\ (forall w',
          RelationService.unblockUser targetUserId w = (Ok tt, w') ->
          exists rel,
            RelationService.getRelationStatus targetUserId w
            = mkStatus blocked true (Some rel)
            /\ db_log (pb w') = db_log (pb w) ++ [Delete Relations (rel_id rel)]
            /\ db_relations (pb w')
               = filter (fun r => negb (rel_id r =? rel_id rel)) (db_relations (pb w))
            /\ relationsSignal (relationService w')
               = filter (fun r => negb (rel_id r =? rel_id rel))
                        (relationsSignal (relationService w))
            /\ (one_per_pair (relationsSignal (relationService w)) ->
                RelationService.isBlockedByMe targetUserId w' = false)).
Proof.
  intros w targetUserId. unfold RelationService.unblockUser, RelationService.isBlockedByMe.
  mstep.
  destruct (authUser w) as [me|] eqn:Hme.
  2:{ split; [intros _; eexists; reflexivity | intros w' H; discriminate]. }
  destruct (RelationService.getRelationStatus targetUserId w) as [ty init [rel|]] eqn:Hst;
    cbn [relation status_type isInitiatedByMe].
  2:{ split; [intros _; eexists; reflexivity | intros w' H; discriminate]. }
  destruct (type_eqb ty blocked) eqn:Hty; cbn [negb orb andb].
  2:{ split; [intros _; eexists; reflexivity | intros w' H; discriminate]. }
  apply type_eqb_eq in Hty. subst ty.
  destruct init; cbn [negb].
  2:{ split; [intros _; eexists; reflexivity | intros w' H; discriminate]. }
  split; [intros H; discriminate|].
  delete_then_drop w; intros w' Hrun; try discriminate.
  injection Hrun as <-.
  exists rel. split; [reflexivity|]. split; [reflexivity|]. split; [reflexivity|].
  split; [reflexivity|].
  intros Huniq.
  assert (Hout : In rel (relationsSignal (relationService w))
                 /\ edge (user_id me) targetUserId rel).
  { destruct (getRelationStatus_trichotomy w me targetUserId Hme)
      as [(x & Hx & He & H)|[(_ & x & _ & _ & H)|(_ & _ & H)]];
      rewrite Hst in H; try discriminate.
    injection H as _ <-. split; assumption. }
  destruct Hout as [Hin Hedge].
  match goal with |- context [RelationService.getRelationStatus _ ?v] => set (w' := v) end.
  destruct (getRelationStatus_trichotomy w' me targetUserId Hme)
    as [(x & Hx & He & H)|[(_ & x & _ & _ & H)|(_ & _ & H)]]; rewrite H; cbn.
  - exfalso. exact (filter_other_ids_no_edge _ _ rel _ Huniq Hin Hedge x Hx He).
  - apply andb_false_r.
  - reflexivity.
Qed.

Lemma unblockUser_effect_witness :
  (exists e, RelationService.unblockUser "U2" Scenario.blocked_by_bob
             = (Throw e, Scenario.blocked_by_bob))
  /\ RelationService.isBlockedByMe "U1"
       (snd (RelationService.unblockUser "U1" Scenario.bob_blocks)) = false.
Proof.
  split.
  - apply (unblockUser_effect Scenario.blocked_by_bob "U2"). reflexivity.
  - destruct (unblockUser_effect Scenario.bob_blocks "U1") as [_ H].
    destruct (H (snd (RelationService.unblockUser "U1" Scenario.bob_blocks)))
      as (rel & _ & _ & _ & _ & Hst).
    + vm_compute. reflexivity.
    + apply Hst. intros r1 r2 [<-|[]] [<-|[]] _ _. reflexivity.
Defined.

(** ** Failed mutations *)

(** Case analysis on every test and every backend answer of a run. *)
Ltac run_cases :=
  repeat first
    [ rewrite relations_delete_run
    | rewrite relations_create_run
    | rewrite relations_update_run
    | match goal with
      | |- context [if ?b then _ else _] => destruct b eqn:?
      | |- context [match ?x with Some _ => _ | None => _ end] => destruct x eqn:?
      end
    | progress cbv beta iota zeta ].

(** X4: A throw of [sendFriendRequest], [rejectFriendRequest],
    [cancelFriendRequest], [removeFriend] or [unblockUser] leaves the
    relation collection as it was: these methods write the collection only
    after their last request has gone through. *)
Theorem failed_mutation_keeps_collection :
  forall (w w' : World) (targetUserId : string) (e : JsError),
    (RelationService.sendFriendRequest targetUserId w = (Throw e, w')
     \/ RelationService.rejectFriendRequest targetUserId w = (Throw e, w')
     \/ RelationService.cancelFriendRequest targetUserId w = (Throw e, w')
     \/ RelationService.removeFriend targetUserId w = (Throw e, w')
     \/ RelationService.unblockUser targetUserId w = (Throw e, w')) ->
    relationsSignal (relationService w') = relationsSignal (relationService w)
    /\ relationsHistory (relationService w') = relationsHistory (relationService w).
Proof.
  intros w w' targetUserId e.
  unfold RelationService.sendFriendRequest, RelationService.rejectFriendRequest,
    RelationService.cancelFriendRequest, RelationService.removeFriend,
    RelationService.unblockUser, RelationService.rethrow,
    RelationService.errorSignal_set.
  mstep.
  intros [H|[H|[H|[H|H]]]]; revert H; run_cases; intros H;
    try discriminate H; injection H as <- <-; split; reflexivity.
Qed.

Lemma failed_mutation_keeps_collection_witness :
  let run := RelationService.removeFriend "U2"
               (Scenario.faulty Scenario.alice Scenario.friend_edges
                                Scenario.friend_edges [false; true]) in
  relationsSignal (relationService (snd run)) = Scenario.friend_edges
  /\ db_relations (pb (snd run)) = [Scenario.friend_edge "r2" "U2" "U1"].
Proof.
  intros run. split; [|reflexivity].
  apply (failed_mutation_keeps_collection
           (Scenario.faulty Scenario.alice Scenario.friend_edges
                            Scenario.friend_edges [false; true])
           (snd run) "U2" (Error transportFailure.(message))).
  right; right; right; left. vm_compute. reflexivity.
Defined.

(** ** A half-completed accept *)

(** X5: When the first write of [acceptFriendRequest] goes through and the
    second fails, the method throws, yet the incoming edge is already
    [friend] in the stored relations and in the collection, no reciprocal
    edge exists, and the local user's status reads [friend]. *)
Theorem acceptFriendRequest_half_done :
  forall (w : World) (me : IAuthUser) (targetUserId : string)
         (rel s : IRelation) (fs : list bool),
    authUser w = Some me ->
    never_received (relationsSignal (relationService w)) ->
    status_type (RelationService.getRelationStatus targetUserId w) = pending_received ->
    relation (RelationService.getRelationStatus targetUserId w) = Some rel ->
    find (fun r => rel_id r =? rel_id rel) (db_relations (pb w)) = Some s ->
    same_edge rel s ->
    db_faults (pb w) = false :: true :: fs ->
    exists e w',
      RelationService.acceptFriendRequest targetUserId w = (Throw e, w')
      /\ db_relations (pb w')
         = map (retyped (rel_id rel) friend (db_clock (pb w))) (db_relations (pb w))
      /\ db_log (pb w') = db_log (pb w) ++ [Update Relations (rel_id rel); Create Relations]
      /\ status_type (RelationService.getRelationStatus targetUserId w') = friend
      /\ rel_errorSignal (relationService w') = Some (message e).
Proof.
  intros w me a rel s fs Hme Hnever Hty Hrel Hfind (Hid & Hfrom & Hto) Hfaults.
  destruct (pending_received_from_incoming w me a Hme Hnever Hty)
    as (Hnone & rel' & Hinc & Hst).
  rewrite Hst in Hrel. injection Hrel as ->.
  pose proof (find_edge_some _ _ _ _ Hinc) as [Hin [Hef Het]].
  assert (Hneq : user_id me <> a).
  { intros <-. apply (find_edge_none _ _ _ Hnone rel Hin). split; assumption. }
  set (upd := with_expand true (pb w) (set_rel_type friend (db_clock (pb w)) s)).
  assert (Hout : ((from_user upd =? user_id me) && (to_user upd =? a)) = false).
  { cbn. apply andb_false_iff. left. apply String.eqb_neq. congruence. }
  assert (Hincu : ((from_user upd =? a) && (to_user upd =? user_id me)) = true).
  { cbn. rewrite <- Hfrom, <- Hto, Hef, Het, !String.eqb_refl. reflexivity. }
  unfold RelationService.acceptFriendRequest. mstep. rewrite Hme, Hst.
  cbn [relation status_type type_eqb RelationType_eqb negb].
  unfold RelationService.rethrow, RelationService.errorSignal_set. mstep.
  rewrite relations_update_run, Hfaults, Hfind. cbn [hd].
  cbn [relationService with_pb with_relationService relationsSignal set_relations].
  fold upd.
  rewrite (find_none_replaced _ rel upd _ Hnone Hout).
  rewrite relations_create_run. cbn [pb with_pb with_relationService db_faults arrive tick
                                       set_db_relations].
  rewrite Hfaults. cbn [tl hd].
  eexists; eexists. split; [reflexivity|].
  split; [reflexivity|]. split; [cbn; rewrite <- app_assoc; reflexivity|]. split.
  - unfold RelationService.getRelationStatus.
    cbn [relationService with_relationService with_pb authUser relationsSignal
         set_relations set_rel_error].
    rewrite Hme. unfold RelationService.statusIn.
    rewrite (find_none_replaced _ rel upd _ Hnone Hout).
    rewrite (find_replaced _ rel upd _ Hinc Hincu). reflexivity.
  - reflexivity.
Qed.

Lemma acceptFriendRequest_half_done_witness :
  exists e w',
    RelationService.acceptFriendRequest "U1"
      (Scenario.faulty Scenario.bob [Scenario.request_edge] [Scenario.request_edge]
                       [false; true]) = (Throw e, w')
    /\ status_type (RelationService.getRelationStatus "U1" w') = friend
    /\ List.length (db_relations (pb w')) = 1.
Proof.
  destruct (acceptFriendRequest_half_done
              (Scenario.faulty Scenario.bob [Scenario.request_edge] [Scenario.request_edge]
                               [false; true])
              Scenario.bob "U1" Scenario.request_edge Scenario.request_edge [])
    as (e & w' & Hrun & Hdb & _ & Hst & _).
  - reflexivity.
  - intros r [<-|[]]. discriminate.
  - reflexivity.
  - reflexivity.
  - reflexivity.
  - repeat split.
  - reflexivity.
  - exists e, w'. split; [exact Hrun|]. split; [exact Hst|]. rewrite Hdb. reflexivity.
Defined.

(** ** Thrown errors *)

Lemma truthy_nonempty (s : string) : truthy s = true <-> s <> "".
Proof. destruct s; cbn; split; congruence. Qed.

Lemma extractErrorMessage_nonempty (error : JsError) (defaultMessage : string) :
  defaultMessage <> "" -> extractErrorMessage error defaultMessage <> "".
Proof.
  intros Hd. unfold extractErrorMessage.
  destruct (data_message error) as [m|].
  - destruct (truthy m) eqn:Hm; [apply truthy_nonempty; exact Hm|].
    destruct (truthy (message error)) eqn:He; [apply truthy_nonempty; exact He | exact Hd].
  - destruct (truthy (message error)) eqn:He; [apply truthy_nonempty; exact He | exact Hd].
Qed.

(** An error that leaves a try block of [RelationService] carries a
    non-empty message, which is also in the error signal. *)
Lemma rethrow_caught {A} (m : M A) (context defaultMessage : string)
      (w w' : World) (e : JsError) :
  try_catch m (RelationService.rethrow context defaultMessage) w = (Throw e, w') ->
  defaultMessage <> "" ->
  message e <> "" /\ rel_errorSignal (relationService w') = Some (message e).
Proof.
  unfold try_catch. destruct (m w) as [[a|e0] w0]; [discriminate|].
  unfold RelationService.rethrow, RelationService.errorSignal_set, handleError. mstep.
  intros H Hd. injection H as <- <-. cbn.
  split; [apply extractErrorMessage_nonempty; exact Hd | reflexivity].
Qed.

Ltac guard_cases :=
  repeat match goal with
         | |- context [if ?b then _ else _] => destruct b eqn:?
         | |- context [match ?x with Some _ => _ | None => _ end] => destruct x eqn:?
         end.

Ltac thrown :=
  let H := fresh "H" in
  intros H;
  first [ injection H as <- <-; split; [cbn; discriminate | left; reflexivity]
        | apply rethrow_caught in H; [destruct H; split; [assumption | right; assumption]
                                     | discriminate] ].

(** X6: Whatever a mutating method of [RelationService] throws has a
    non-empty message; either a guard threw and the state is untouched, or
    the try block threw and the error signal holds that message. *)
Theorem thrown_errors_have_messages :
  forall (w w' : World) (targetUserId : string) (e : JsError),
    (RelationService.sendFriendRequest targetUserId w = (Throw e, w')
     \/ RelationService.acceptFriendRequest targetUserId w = (Throw e, w')
     \/ RelationService.rejectFriendRequest targetUserId w = (Throw e, w')
     \/ RelationService.cancelFriendRequest targetUserId w = (Throw e, w')
     \/ RelationService.removeFriend targetUserId w = (Throw e, w')
     \/ RelationService.blockUser targetUserId w = (Throw e, w')
     \/ RelationService.unblockUser targetUserId w = (Throw e, w')) ->
    message e <> ""
    /\ (w' = w \/ rel_errorSignal (relationService w') = Some (message e)).
Proof.
  intros w w' targetUserId e.
  unfold RelationService.sendFriendRequest, RelationService.acceptFriendRequest,
    RelationService.rejectFriendRequest, RelationService.cancelFriendRequest,
    RelationService.removeFriend, RelationService.blockUser,
    RelationService.unblockUser.
  cbv [bind user gets throw ret].
  intros [H|[H|[H|[H|[H|[H|H]]]]]]; revert H; guard_cases; thrown.
Qed.

Lemma thrown_errors_have_messages_witness :
  let run := RelationService.blockUser "U2"
               (Scenario.faulty Scenario.alice [] [] [true]) in
  fst run = Throw (Error (message transportFailure))
  /\ message (Error (message transportFailure)) <> "".
Proof.
  intros run. split; [reflexivity|].
  apply (thrown_errors_have_messages (Scenario.faulty Scenario.alice [] [] [true])
           (snd run) "U2").
  do 5 right. left. reflexivity.
Defined.

(** ** Order of the fetched pages *)

Section InsertionSort.

Context {A : Type} (before : A -> A -> bool).
Hypothesis before_total : forall a b, before a b = true \/ before b a = true.
Hypothesis before_trans :
  forall a b c, before a b = true -> before b c = true -> before a c = true.

Let ordered (a b : A) : Prop := before a b = true.

Lemma insert_sorted_ordered (x : A) (l : list A) :
  StronglySorted ordered l -> StronglySorted ordered (insert_sorted before x l).
Proof.
  induction l as [|y l IH]; intros Hs; cbn.
  - constructor; constructor.
  - inversion Hs as [|? ? Hl Hy]; subst.
    destruct (before x y) eqn:Hxy.
    + constructor; [exact Hs|]. constructor; [exact Hxy|].
      apply Forall_forall. intros z Hz.
      apply (before_trans x y z Hxy). exact (proj1 (Forall_forall _ _) Hy z Hz).
    + constructor; [exact (IH Hl)|].
      apply Forall_forall. intros z Hz. apply insert_sorted_in in Hz.
      destruct Hz as [->|Hz].
      * destruct (before_total x y) as [H|H]; [congruence | exact H].
      * exact (proj1 (Forall_forall _ _) Hy z Hz).
Qed.

Lemma sort_by_ordered (l : list A) : StronglySorted ordered (sort_by (Some before) l).
Proof.
  cbn. induction l as [|x l IH]; cbn; [constructor|].
  apply insert_sorted_ordered. exact IH.
Qed.

End InsertionSort.

Lemma in_firstn {A} (n : nat) (l : list A) (x : A) : In x (firstn n l) -> In x l.
Proof.
  revert n. induction l as [|y l IH]; intros [|n] H; cbn in H; try contradiction.
  destruct H as [->|H]; [left; reflexivity | right; exact (IH n H)].
Qed.

Lemma StronglySorted_firstn {A} (R : A -> A -> Prop) (n : nat) (l : list A) :
  StronglySorted R l -> StronglySorted R (firstn n l).
Proof.
  revert n. induction l as [|x l IH]; intros [|n] Hs; cbn; try constructor.
  - inversion Hs; subst. apply IH. assumption.
  - inversion Hs as [|? ? _ Hx]; subst. apply Forall_forall. intros y Hy.
    apply (proj1 (Forall_forall _ _) Hx). exact (in_firstn _ _ _ Hy).
Qed.

Lemma StronglySorted_skipn {A} (R : A -> A -> Prop) (n : nat) (l : list A) :
  StronglySorted R l -> StronglySorted R (skipn n l).
Proof.
  revert l. induction n as [|n IH]; intros [|x l] Hs; cbn; try assumption.
  inversion Hs; subst. apply IH. assumption.
Qed.

Lemma StronglySorted_filter {A} (R : A -> A -> Prop) (p : A -> bool) (l : list A) :
  StronglySorted R l -> StronglySorted R (filter p l).
Proof.
  induction l as [|x l IH]; intros Hs; cbn; [constructor|].
  inversion Hs as [|? ? Hl Hx]; subst.
  destruct (p x); [|exact (IH Hl)].
  constructor; [exact (IH Hl)|]. apply Forall_forall. intros y Hy.
  apply filter_In in Hy. exact (proj1 (Forall_forall _ _) Hx y (proj1 Hy)).
Qed.

Lemma StronglySorted_map {A B} (R : A -> A -> Prop) (S : B -> B -> Prop)
      (f : A -> B) (l : list A) :
  (forall a b, R a b -> S (f a) (f b)) ->
  StronglySorted R l -> StronglySorted S (map f l).
Proof.
  intros Hf. induction l as [|x l IH]; intros Hs; cbn; [constructor|].
  inversion Hs as [|? ? Hl Hx]; subst. constructor; [exact (IH Hl)|].
  apply Forall_forall. intros y Hy. apply in_map_iff in Hy.
  destruct Hy as (a & <- & Ha). apply Hf. exact (proj1 (Forall_forall _ _) Hx a Ha).
Qed.

(** A page of a sorted list request is sorted. *)
Lemma page_ordered {A} (before : A -> A -> bool) (page perPage : nat) (l : list A) :
  (forall a b, before a b = true \/ before b a = true) ->
  (forall a b c, before a b = true -> before b c = true -> before a c = true) ->
  StronglySorted (fun a b => before a b = true)
                 (page_of page perPage (sort_by (Some before) l)).
Proof.
  intros Htotal Htrans. unfold page_of.
  apply StronglySorted_firstn, StronglySorted_skipn.
  apply sort_by_ordered; assumption.
Qed.

(** ** Fetching the relations *)

Lemma created_desc_total (a b : IRelation) :
  created_desc a b = true \/ created_desc b a = true.
Proof. unfold created_desc. rewrite !Nat.leb_le. lia. Qed.

Lemma created_desc_trans (a b c : IRelation) :
  created_desc a b = true -> created_desc b c = true -> created_desc a c = true.
Proof. unfold created_desc. rewrite !Nat.leb_le. lia. Qed.

(** X7: [fetchRelations] never throws and ends with the loading flag down.
    Without a signed-in user it does nothing.  When its request fails the
    collection is kept and the error signal holds a non-empty message.
    When it goes through, the error signal is cleared and the collection is
    the fetched page: at most 1000 records, each touching the local user,
    newest first; and when the stored relations of the user fit in the page,
    each of them is in the collection (with its expansion). *)
Theorem fetchRelations_outcome :
  forall (w : World),
    (authUser w = None -> RelationService.fetchRelations w = (Ok tt, w))
    /\ (forall me,
          authUser w = Some me ->
          exists w',
            RelationService.fetchRelations w = (Ok tt, w')
            /\ rel_loadingSignal (relationService w') = false
            /\ db_log (pb w') = db_log (pb w) ++ [GetList Relations]
            /\ (hd false (db_faults (pb w)) = true ->
                relationsSignal (relationService w') = relationsSignal (relationService w)
                /\ exists msg, rel_errorSignal (relationService w') = Some msg /\ msg <> "")
            /\ (hd false (db_faults (pb w)) = false ->
                let rels := relationsSignal (relationService w') in
                rel_errorSignal (relationService w') = None
                /\ rels = fetched_relations (user_id me) (pb w)
                /\ List.length rels <= 1000
                /\ (forall r, In r rels ->
                              from_user r = user_id me \/ to_user r = user_id me)
                /\ StronglySorted (fun a b => rel_created b <= rel_created a) rels
                /\ (fits_page (user_id me) (pb w) ->
                    forall s, In s (db_relations (pb w)) ->
                              from_user s = user_id me \/ to_user s = user_id me ->
                              In (expand_relation (pb w) s) rels))).
Proof.
  intros w. unfold RelationService.fetchRelations. mstep. split.
  { intros ->. reflexivity. }
  intros me ->.
  unfold RelationService.loadingSignal_set, RelationService.errorSignal_set, handleError.
  mstep. rewrite relations_getList_run.
  cbn [pb with_relationService].
  destruct (hd false (db_faults (pb w))).
  - eexists. split; [reflexivity|]. cbn. split; [reflexivity|]. split; [reflexivity|].
    split; [|discriminate]. intros _. split; [reflexivity|].
    eexists. split; [reflexivity|]. discriminate.
  - eexists. split; [reflexivity|].
    cbn [relationService with_relationService with_pb relationsSignal set_relations
         set_rel_loading set_rel_error rel_loadingSignal rel_errorSignal pb arrive db_log].
    split; [reflexivity|]. split; [reflexivity|]. split; [discriminate|].
    intros _. cbv zeta.
    fold (touches (user_id me)). fold (fetched_relations (user_id me) (pb w)).
    split; [reflexivity|]. split; [reflexivity|].
    unfold fetched_relations, listed_relations.
    split; [rewrite length_map; unfold page_of; apply firstn_le_length|].
    split; [|split].
    + intros r Hr. apply in_map_iff in Hr. destruct Hr as (x & <- & Hx).
      unfold page_of in Hx. apply in_firstn in Hx. cbn [Nat.sub Nat.mul skipn] in Hx.
      apply sort_by_in, filter_In in Hx. destruct Hx as [_ Hx].
      unfold touches in Hx. apply orb_true_iff in Hx. rewrite !String.eqb_eq in Hx.
      exact Hx.
    + apply (StronglySorted_map (fun a b => created_desc a b = true)).
      * intros a b Hab. unfold created_desc in Hab. apply Nat.leb_le in Hab. exact Hab.
      * apply page_ordered;
          [exact created_desc_total | exact created_desc_trans].
    + intros Hfit s Hs Htouch.
      apply (listed_relations_in (touches (user_id me)) (Some created_desc) 1000 true).
      * unfold fits_page in Hfit. lia.
      * exists s. split; [exact Hs|]. split; [|reflexivity].
        unfold touches. apply orb_true_iff. rewrite !String.eqb_eq. exact Htouch.
Qed.

Lemma fetchRelations_outcome_witness :
  exists w',
    RelationService.fetchRelations
      (client Scenario.alice (Scenario.backend_with [Scenario.request_edge] []))
    = (Ok tt, w')
    /\ relationsSignal (relationService w')
       = [expand_relation Scenario.empty_backend Scenario.request_edge].
Proof.
  destruct (fetchRelations_outcome
              (client Scenario.alice (Scenario.backend_with [Scenario.request_edge] [])))
    as [_ H].
  destruct (H Scenario.alice eq_refl) as (w' & Hrun & _ & _ & _ & Hok).
  exists w'. split; [exact Hrun|].
  destruct (Hok eq_refl) as (_ & Hrels & _). rewrite Hrels. reflexivity.
Defined.

(** ** Real-time events on the relations *)

(** What [refetch] can return: the event's record, or the stored record
    with that identifier, expanded. *)
Lemma refetch_result (record : IRelation) (w : World) :
  exists record' w',
    RelationService.refetch record w = (Ok record', w')
    /\ relationService w' = relationService w
    /\ authUser w' = authUser w
    /\ (record' = record
        \/ exists s, In s (db_relations (pb w)) /\ rel_id s = rel_id record
                     /\ record' = expand_relation (pb w) s).
Proof.
  unfold RelationService.refetch.
  destruct (lacks_expand record).
  - mstep. rewrite relations_getOne_run.
    destruct (hd false (db_faults (pb w))).
    + eexists; eexists; repeat split. left. reflexivity.
    + destruct (find _ _) as [s|] eqn:Hs.
      * apply find_some in Hs. destruct Hs as [Hin Hs]. apply String.eqb_eq in Hs.
        eexists; eexists; repeat split. right. exists s. auto.
      * eexists; eexists; repeat split. left. reflexivity.
  - eexists; eexists; repeat split. left. reflexivity.
Qed.

(** X8: An update event never adds, removes or reorders entries and never
    changes an identifier, an endpoint or a creation stamp: it returns,
    entries with another identifier are untouched, and an entry with the
    event's identifier takes the kind of the event's record or of the stored
    record re-read for its expansion. *)
Theorem handleRelationUpdate_patches :
  forall (w : World) (record : IRelation),
    let before := relationsSignal (relationService w) in
    let after := relationsSignal
                   (relationService (snd (RelationService.handleRelationUpdate record w))) in
    fst (RelationService.handleRelationUpdate record w) = Ok tt
    /\ map rel_id after = map rel_id before
    /\ map from_user after = map from_user before
    /\ map to_user after = map to_user before
    /\ map rel_created after = map rel_created before
    /\ (forall r, In r before -> rel_id r <> rel_id record -> In r after)
    /\ (forall r, In r after -> rel_id r = rel_id record ->
          rel_type r = rel_type record
          \/ exists s, In s (db_relations (pb w)) /\ rel_id s = rel_id record
                       /\ rel_type r = rel_type s).
Proof.
  intros w record before after. subst before after.
  unfold RelationService.handleRelationUpdate. mstep.
  destruct (refetch_result record w) as (record' & w' & -> & Hrs & _ & Hrec).
  cbn [fst snd relationService with_relationService relationsSignal set_relations].
  rewrite Hrs.
  assert (Hid : rel_id record' = rel_id record).
  { destruct Hrec as [->|(s & _ & Hs & ->)]; [reflexivity | exact Hs]. }
  set (patch := fun r : IRelation =>
         if rel_id r =? rel_id record'
         then set_relation_fields (rel_type record') (rel_updated record')
                match rel_expand record' with
                | Some e => Some e
                | None => rel_expand r
                end r
         else r).
  split; [reflexivity|].
  assert (Hkeep : forall r, rel_id (patch r) = rel_id r /\ from_user (patch r) = from_user r
                            /\ to_user (patch r) = to_user r
                            /\ rel_created (patch r) = rel_created r).
  { intros r. unfold patch. destruct (rel_id r =? rel_id record'); repeat split. }
  repeat split.
  - rewrite map_map. apply map_ext. intros r. apply Hkeep.
  - rewrite map_map. apply map_ext. intros r. apply Hkeep.
  - rewrite map_map. apply map_ext. intros r. apply Hkeep.
  - rewrite map_map. apply map_ext. intros r. apply Hkeep.
  - intros r Hr Hne. apply in_map_iff. exists r. split; [|exact Hr].
    unfold patch. rewrite Hid.
    apply String.eqb_neq in Hne. rewrite Hne. reflexivity.
  - intros r Hr Hrid. apply in_map_iff in Hr. destruct Hr as (x & <- & Hx).
    unfold patch in *. destruct (rel_id x =? rel_id record') eqn:E.
    + cbn. destruct Hrec as [->|(s & Hs & Hsid & ->)]; [left; reflexivity|].
      right. exists s. repeat split; assumption.
    + apply String.eqb_neq in E. cbn in Hrid. congruence.
Qed.

(** A create event for an identifier the collection does not hold either
    is skipped, while the identifier is being processed, or appends one
    entry with that identifier. *)
Lemma handleRelationCreate_absent (record : IRelation) (w : World) :
  existsb (fun r => rel_id r =? rel_id record) (relationsSignal (relationService w)) = false ->
  let after := relationsSignal
                 (relationService (snd (RelationService.handleRelationCreate record w))) in
  (RelationService.processingIds_has (rel_id record) w = true
   /\ after = relationsSignal (relationService w))
  \/ (RelationService.processingIds_has (rel_id record) w = false
      /\ exists record', rel_id record' = rel_id record
                         /\ after = relationsSignal (relationService w) ++ [record']).
Proof.
  intros Habsent after. subst after.
  unfold RelationService.handleRelationCreate. mstep.
  destruct (RelationService.processingIds_has _ w); [left; split; reflexivity|].
  right. split; [reflexivity|].
  unfold RelationService.processingIds_add at 1. mstep.
  match goal with
  | |- context [RelationService.refetch record ?w1] =>
      destruct (refetch_keeps record w1) as (record' & w' & -> & Hid & Hsame)
  end.
  exists record'. split; [exact Hid|].
  unfold RelationService.processingIds_delete. mstep. rewrite Hid, Hsame.
  assert (Hrels : relationsSignal
                    (relationService
                       (with_relationService
                          (fun s => if existsb (String.eqb (rel_id record)) (processingIds s)
                                    then s
                                    else set_processingIds (processingIds s ++ [rel_id record]) s)
                          w))
                  = relationsSignal (relationService w)).
  { cbn. destruct (existsb _ (processingIds _)); reflexivity. }
  rewrite Hrels, Habsent. cbn. rewrite Hsame. cbn.
  destruct (existsb _ (processingIds _)); reflexivity.
Qed.

(** X9: A create event followed by a delete event for the same record gives
    the collection back, when no entry had that identifier. *)
Theorem create_then_delete_event :
  forall (w : World) (record : IRelation),
    existsb (fun r => rel_id r =? rel_id record)
            (relationsSignal (relationService w)) = false ->
    relationsSignal
      (relationService
         (snd (RelationService.handleRelationDelete record
                 (snd (RelationService.handleRelationCreate record w)))))
    = relationsSignal (relationService w).
Proof.
  intros w record Habsent.
  assert (Hfresh : forall x, In x (relationsSignal (relationService w)) ->
                             rel_id x <> rel_id record).
  { intros x Hx Heq.
    assert (existsb (fun r => rel_id r =? rel_id record)
                    (relationsSignal (relationService w)) = true).
    { apply existsb_exists. exists x. split; [exact Hx|]. apply String.eqb_eq. exact Heq. }
    congruence. }
  assert (Hdel : forall w0,
            relationsSignal (relationService (snd (RelationService.handleRelationDelete record w0)))
            = filter (fun r => negb (rel_id r =? rel_id record))
                     (relationsSignal (relationService w0))).
  { intros w0. reflexivity. }
  rewrite Hdel.
  destruct (handleRelationCreate_absent record w Habsent) as [[_ ->]|[_ (record' & Hid & ->)]].
  - apply filter_all. intros x Hx. apply negb_true_iff, String.eqb_neq. exact (Hfresh x Hx).
  - apply filter_drops_last; [exact Hid | exact Hfresh].
Qed.

Lemma create_then_delete_event_witness :
  relationsSignal
    (relationService
       (snd (RelationService.handleRelationDelete (Scenario.request_edge)
               (snd (RelationService.handleRelationCreate (Scenario.request_edge)
                       (client Scenario.alice Scenario.empty_backend))))))
  = relationsSignal (relationService (client Scenario.alice Scenario.empty_backend)).
Proof.
  apply create_then_delete_event. reflexivity.
Defined.

(** ** The computed lists and the guards *)

(** X10: The lists shown on the friends page agree with the status the guards
    of the mutating methods read.  With at most one record per ordered
    pair: an entry of [blockedUsers] is blocked by me, so [unblockUser]
    passes its guard; an entry of [pendingRequestsSent] has status
    [pending_sent], so [cancelFriendRequest] passes; an entry of
    [pendingRequestsReceived] has status [pending_received], so accepting
    and rejecting pass, provided the local user holds no edge towards the
    sender; an outgoing entry of [friends] makes [areFriends] true. *)
Theorem listed_entries_pass_guards :
  forall (w : World) (me : IAuthUser) (r : IRelation),
    authUser w = Some me ->
    one_per_pair (relationsSignal (relationService w)) ->
    (In r (RelationService.blockedUsers w) ->
     RelationService.getRelationStatus (to_user r) w = mkStatus blocked true (Some r)
     /\ RelationService.isBlockedByMe (to_user r) w = true)
    /\ (In r (RelationService.pendingRequestsSent w) ->
        RelationService.getRelationStatus (to_user r) w
        = mkStatus pending_sent true (Some r))
    /\ (In r (RelationService.pendingRequestsReceived w) ->
        (forall x, In x (relationsSignal (relationService w)) ->
                   ~ edge (user_id me) (from_user r) x) ->
        RelationService.getRelationStatus (from_user r) w
        = mkStatus pending_received false (Some r))
    /\ (In r (RelationService.friends w) -> from_user r = user_id me ->
        RelationService.areFriends (to_user r) w = true).
Proof.
  intros w me r Hme Huniq.
  unfold RelationService.blockedUsers, RelationService.pendingRequestsSent,
    RelationService.pendingRequestsReceived, RelationService.friends,
    RelationService.isBlockedByMe, RelationService.areFriends.
  rewrite Hme. split; [|split; [|split]].
  - intros H. apply filter_In in H. destruct H as [Hin H]. apply andb_true_iff in H.
    destruct H as [Hf Ht]. apply String.eqb_eq in Hf. apply RelationType_eqb_eq in Ht.
    rewrite (status_of_outgoing w me (to_user r) r Hme Huniq Hin (conj Hf eq_refl)).
    rewrite Ht. split; reflexivity.
  - intros H. apply filter_In in H. destruct H as [Hin H]. apply andb_true_iff in H.
    destruct H as [Hf Ht]. apply String.eqb_eq in Hf. apply RelationType_eqb_eq in Ht.
    rewrite (status_of_outgoing w me (to_user r) r Hme Huniq Hin (conj Hf eq_refl)).
    rewrite Ht. reflexivity.
  - intros H Hnone. apply filter_In in H. destruct H as [Hin H].
    apply andb_true_iff in H. destruct H as [H Hty].
    apply andb_true_iff in H. destruct H as [_ Hto].
    apply String.eqb_eq in Hto. apply RelationType_eqb_eq in Hty.
    unfold RelationService.getRelationStatus. rewrite Hme.
    unfold RelationService.statusIn.
    destruct (find (fun x => (from_user x =? user_id me) && _) _) as [out|] eqn:Hout.
    { apply find_edge_some in Hout. destruct Hout as [Ho He].
      exfalso. exact (Hnone out Ho He). }
    rewrite (find_edge_unique (from_user r) (user_id me) _ r Huniq Hin (conj eq_refl Hto)).
    rewrite Hty. reflexivity.
  - intros H Hf. apply filter_In in H. destruct H as [Hin H].
    apply andb_true_iff in H. destruct H as [Hty _]. apply RelationType_eqb_eq in Hty.
    rewrite (status_of_outgoing w me (to_user r) r Hme Huniq Hin (conj Hf eq_refl)).
    rewrite Hty. reflexivity.
Qed.

Lemma listed_entries_pass_guards_witness :
  RelationService.getRelationStatus "U1" Scenario.pending
  = mkStatus pending_received false (Some Scenario.request_edge).
Proof.
  apply (listed_entries_pass_guards Scenario.pending Scenario.bob Scenario.request_edge).
  - reflexivity.
  - intros r1 r2 [<-|[]] [<-|[]] _ _. reflexivity.
  - left. reflexivity.
  - intros x [<-|[]] [H _]. discriminate H.
Defined.

(** X11: Conversely, what the guards accept is on the lists: a user blocked by
    me has an entry in [blockedUsers]; status [pending_sent] initiated by
    me gives an entry of [pendingRequestsSent]; status [pending_received]
    gives an entry of [pendingRequestsReceived], when no stored kind is
    [pending_received]. *)
Theorem guarded_status_is_listed :
  forall (w : World) (me : IAuthUser) (userId : string),
    authUser w = Some me ->
    (RelationService.isBlockedByMe userId w = true ->
     exists r, In r (RelationService.blockedUsers w) /\ to_user r = userId)
    /\ (status_type (RelationService.getRelationStatus userId w) = pending_sent ->
        isInitiatedByMe (RelationService.getRelationStatus userId w) = true ->
        exists r, In r (RelationService.pendingRequestsSent w) /\ to_user r = userId)
    /\ (never_received (relationsSignal (relationService w)) ->
        status_type (RelationService.getRelationStatus userId w) = pending_received ->
        userId <> user_id me
        /\ exists r, In r (RelationService.pendingRequestsReceived w)
                     /\ from_user r = userId
                     /\ RelationService.pendingRequestCount w <> 0).
Proof.
  intros w me userId Hme.
  unfold RelationService.isBlockedByMe, RelationService.blockedUsers,
    RelationService.pendingRequestsSent.
  rewrite Hme.
  destruct (getRelationStatus_trichotomy w me userId Hme)
    as [(x & Hin & [Hf Ht] & Hst)|[(Hno & x & Hin & [Hf Ht] & Hst)|(_ & _ & Hst)]];
    cbv zeta in Hst.
  - split; [|split].
    + rewrite Hst. cbn. rewrite andb_true_r. intros Hty.
      exists x. split; [|exact Ht]. apply filter_In. split; [exact Hin|].
      rewrite Hf, String.eqb_refl. exact Hty.
    + rewrite Hst. cbn. intros Hty _. exists x. split; [|exact Ht].
      apply filter_In. split; [exact Hin|].
      rewrite Hf, String.eqb_refl. cbn. apply RelationType_eqb_eq. congruence.
    + intros Hnever. rewrite Hst. cbn. intros Hty. exfalso. apply (Hnever x Hin). congruence.
  - split; [|split].
    + rewrite Hst. cbn. rewrite andb_false_r. intros H; discriminate H.
    + rewrite Hst. cbn. intros _ H; discriminate H.
    + intros Hnever. rewrite Hst. cbn. intros Hty.
      assert (Hneq : userId <> user_id me).
      { intros ->. apply (Hno x Hin). split; assumption. }
      split; [exact Hneq|].
      assert (Hx : In x (RelationService.pendingRequestsReceived w)).
      { unfold RelationService.pendingRequestsReceived. rewrite Hme.
        apply filter_In. split; [exact Hin|].
        rewrite Hf, Ht, String.eqb_refl.
        apply String.eqb_neq in Hneq. rewrite Hneq. cbn.
        apply RelationType_eqb_eq.
        pose proof (Hnever x Hin) as Hn.
        destruct (rel_type x); cbn in Hty; try discriminate Hty; [reflexivity|].
        exfalso. apply Hn. reflexivity. }
      exists x. split; [exact Hx|]. split; [exact Hf|].
      unfold RelationService.pendingRequestCount.
      destruct (RelationService.pendingRequestsReceived w); [destruct Hx | discriminate].
  - split; [|split].
    + rewrite Hst. cbn. intros H; discriminate H.
    + rewrite Hst. cbn. intros H; discriminate H.
    + intros _. rewrite Hst. cbn. intros H; discriminate H.
Qed.

Lemma guarded_status_is_listed_witness :
  exists r, In r (RelationService.blockedUsers Scenario.bob_blocks) /\ to_user r = "U1".
Proof.
  destruct (guarded_status_is_listed Scenario.bob_blocks Scenario.bob "U1" eq_refl) as [H _].
  apply H. reflexivity.
Defined.

(** ** Sending a message *)

Lemma messages_create_run t u c (w : World) :
  messages_collection.create t u c w =
  if hd false (db_faults (pb w))
  then (Throw transportFailure, with_pb (arrive (Create Messages)) w)
  else
    let m := mkMessage (fresh_id (pb w)) (Some t) u (Some c) None None None None None
                       (db_clock (pb w)) (db_clock (pb w)) None None None in
    (Ok m,
     with_pb (fun d => next_id (tick (set_db_messages (db_messages d ++ [m]) d)))
             (with_pb (arrive (Create Messages)) w)).
Proof.
  unfold messages_collection.create. mstep. rewrite request_run.
  destruct (hd false (db_faults (pb w))); reflexivity.
Qed.

Lemma conversations_update_run i (w : World) :
  conversations_collection.update i w =
  if hd false (db_faults (pb w))
  then (Throw transportFailure, with_pb (arrive (Update Conversations i)) w)
  else match find (fun c => conv_id c =? i) (db_conversations (pb w)) with
       | Some c =>
           (Ok (set_conv_updated (db_clock (pb w)) c),
            with_pb (fun d =>
              tick (set_db_conversations
                      (map (fun x => if conv_id x =? i
                                     then set_conv_updated (db_clock (pb w)) x else x)
                           (db_conversations d)) d))
              (with_pb (arrive (Update Conversations i)) w))
       | None => (Throw notFound, with_pb (arrive (Update Conversations i)) w)
       end.
Proof.
  unfold conversations_collection.update. mstep. rewrite request_run.
  destruct (hd false (db_faults (pb w))); [reflexivity|].
  cbn. destruct (find _ _); reflexivity.
Qed.

(** [checkBlockStatus] sends one request, the read of the conversation,
    and writes nothing; it sends none without a signed-in user. *)
Lemma checkBlockStatus_world (conversationId : string) (w : World) :
  snd (ChatService.checkBlockStatus conversationId w)
  = match authUser w with
    | Some _ => with_pb (arrive (GetOne Conversations conversationId)) w
    | None => w
    end.
Proof.
  unfold ChatService.checkBlockStatus. mstep.
  destruct (authUser w) as [me|]; [|reflexivity].
  unfold ConversationService.getConversationById. mstep.
  rewrite conversations_getOne_run.
  destruct (hd false (db_faults (pb w))); [reflexivity|].
  destruct (find _ (db_conversations (pb w))) as [c|]; [|reflexivity].
  cbv beta iota zeta.
  destruct (find _ (participants _)) as [other|]; [|reflexivity].
  destruct (RelationService.isBlockedByMe _ _); [reflexivity|].
  destruct (RelationService.isBlockedBy _ _); reflexivity.
Qed.

(** When [checkBlockStatus] passes for a signed-in user, the conversation
    is stored. *)
Lemma checkBlockStatus_passed (conversationId : string) (w w1 : World) (me : IAuthUser) :
  authUser w = Some me ->
  ChatService.checkBlockStatus conversationId w = (Ok tt, w1) ->
  exists c, find (fun x => conv_id x =? conversationId) (db_conversations (pb w)) = Some c.
Proof.
  intros Hme. unfold ChatService.checkBlockStatus. mstep. rewrite Hme.
  unfold ConversationService.getConversationById. mstep.
  rewrite conversations_getOne_run.
  destruct (hd false (db_faults (pb w))); [intros H; discriminate H|].
  destruct (find _ (db_conversations (pb w))) as [c|]; [|intros H; discriminate H].
  intros _. exists c. reflexivity.
Qed.

(** X12: [sendMessage] throws with the state unchanged, and sends nothing,
    without a signed-in user or for a text that is blank once trimmed.
    When it returns, it has sent three requests (the read of the
    conversation, the creation, the bump of the conversation); the message
    returned is the one appended to the stored messages, with the trimmed
    text, the local user as author and no file; the identifiers of the
    stored conversations are kept; and the signals of the chat service are
    untouched: the message list is not written, the message arrives by its
    create event. *)
Theorem sendMessage_effect :
  forall (w : World) (conversationId text : string),
    ((authUser w = None \/ trim text = "") ->
     exists e, ChatService.sendMessage conversationId text w = (Throw e, w))
    /\ (forall m w',
          ChatService.sendMessage conversationId text w = (Ok m, w') ->
          exists me,
            authUser w = Some me
            /\ msg_text m = Some (trim text) /\ trim text <> ""
            /\ msg_user m = user_id me
            /\ msg_conversation m = Some conversationId
            /\ msg_file m = None
            /\ db_messages (pb w') = db_messages (pb w) ++ [m]
            /\ db_log (pb w')
               = db_log (pb w) ++ [GetOne Conversations conversationId;
                                   Create Messages;
                                   Update Conversations conversationId]
            /\ map conv_id (db_conversations (pb w'))
               = map conv_id (db_conversations (pb w))
            /\ (exists c, In c (db_conversations (pb w')) /\ conv_id c = conversationId)
            /\ chatService w' = chatService w
            /\ relationService w' = relationService w
            /\ conversationService w' = conversationService w).
Proof.
  intros w conversationId text. unfold ChatService.sendMessage. mstep.
  destruct (authUser w) as [me|] eqn:Hme.
  2:{ split; [intros _; eexists; reflexivity | intros m w' H; discriminate H]. }
  destruct (truthy (trim text)) eqn:Htext; cbn [negb].
  2:{ split; [intros _; eexists; reflexivity | intros m w' H; discriminate H]. }
  assert (Hne : trim text <> "").
  { intros E. rewrite E in Htext. discriminate Htext. }
  split.
  { intros [H|H]; [discriminate H | contradiction]. }
  intros m w'.
  pose proof (checkBlockStatus_world conversationId w) as Hw1.
  pose proof (checkBlockStatus_passed conversationId w) as Hpass.
  destruct (ChatService.checkBlockStatus conversationId w) as [[[]|e] w1] eqn:Hcb.
  2:{ unfold ChatService.errorSignal_set. mstep. intros H; discriminate H. }
  destruct (Hpass w1 me Hme eq_refl) as (c & Hc).
  cbn [snd] in Hw1. rewrite Hme in Hw1. subst w1.
  rewrite messages_create_run. cbn [pb with_pb arrive db_faults hd].
  destruct (hd false (tl (db_faults (pb w)))).
  { unfold ChatService.errorSignal_set. mstep. intros H; discriminate H. }
  cbv beta iota zeta.
  rewrite conversations_update_run.
  cbn [pb with_pb arrive next_id tick set_db_messages db_faults db_conversations db_clock hd].
  destruct (hd false (tl (tl (db_faults (pb w))))).
  { unfold ChatService.errorSignal_set. mstep. intros H; discriminate H. }
  rewrite Hc. intros H. injection H as <- <-.
  exists me. split; [reflexivity|]. split; [reflexivity|]. split; [exact Hne|].
  split; [reflexivity|]. split; [reflexivity|]. split; [reflexivity|].
  split; [reflexivity|].
  split.
  { cbn. rewrite <- !app_assoc. reflexivity. }
  split.
  { cbn. rewrite map_map. apply map_ext. intros x.
    destruct (conv_id x =? conversationId); reflexivity. }
  split.
  { apply find_some in Hc. destruct Hc as [Hin Hid]. apply String.eqb_eq in Hid.
    exists (set_conv_updated (S (db_clock (pb w))) c). split; [|exact Hid].
    cbn. apply in_map_iff. exists c. rewrite Hid, String.eqb_refl. auto. }
  repeat split.
Qed.

Lemma sendMessage_effect_witness :
  (exists e, ChatService.sendMessage "c1" Scenario.blank_text Scenario.friends_chat
             = (Throw e, Scenario.friends_chat))
  /\ (exists m w',
        ChatService.sendMessage "c1" Scenario.padded_text Scenario.friends_chat = (Ok m, w')
        /\ msg_text m = Some "ok"
        /\ db_messages (pb w') = [m]
        /\ messagesSignal (chatService w') = []).
Proof.
  split.
  - destruct (sendMessage_effect Scenario.friends_chat "c1" Scenario.blank_text) as [H _].
    apply H. right. reflexivity.
  - destruct (ChatService.sendMessage "c1" Scenario.padded_text Scenario.friends_chat)
      as [[m|e] w'] eqn:Hrun; [|vm_compute in Hrun; discriminate Hrun].
    destruct (sendMessage_effect Scenario.friends_chat "c1" Scenario.padded_text) as [_ H].
    destruct (H m w' Hrun) as (me & _ & Htext & _ & _ & _ & _ & Hdb & _ & _ & _ & Hchat & _).
    exists m, w'.
    split; [reflexivity|]. split; [exact Htext|]. split; [exact Hdb|].
    rewrite Hchat. reflexivity.
Defined.

(** X13: [sendMessage] is not atomic: when the creation goes through and the
    bump of the conversation fails, the method throws and sets the error
    signal, yet the message is stored. *)
Theorem sendMessage_stored_but_thrown :
  forall (w w1 : World) (me : IAuthUser) (conversationId text : string) (fs : list bool),
    authUser w = Some me ->
    truthy (trim text) = true ->
    ChatService.checkBlockStatus conversationId w = (Ok tt, w1) ->
    db_faults (pb w1) = false :: true :: fs ->
    exists e w' m,
      ChatService.sendMessage conversationId text w = (Throw e, w')
      /\ db_messages (pb w') = db_messages (pb w) ++ [m]
      /\ msg_text m = Some (trim text)
      /\ msg_user m = user_id me
      /\ msg_conversation m = Some conversationId
      /\ db_conversations (pb w') = db_conversations (pb w)
      /\ chat_errorSignal (chatService w') = Some (message e)
      /\ messagesSignal (chatService w') = messagesSignal (chatService w).
Proof.
  intros w w1 me conversationId text fs Hme Htext Hcb Hfaults.
  unfold ChatService.sendMessage. mstep. rewrite Hme, Htext. cbn [negb].
  pose proof (checkBlockStatus_world conversationId w) as Hw1.
  rewrite Hcb in Hw1 |- *. cbn [snd] in Hw1. rewrite Hme in Hw1. subst w1.
  cbn [pb with_pb arrive db_faults] in Hfaults.
  rewrite messages_create_run. cbn [pb with_pb arrive db_faults]. rewrite Hfaults.
  cbn [hd]. cbv beta iota zeta.
  rewrite conversations_update_run.
  cbn [pb with_pb arrive next_id tick set_db_messages db_faults]. rewrite Hfaults.
  cbn [tl hd].
  unfold ChatService.errorSignal_set, handleError. mstep.
  eexists; eexists; eexists. split; [reflexivity|].
  cbn. repeat split.
Qed.

Lemma sendMessage_stored_but_thrown_witness :
  exists e w' m,
    ChatService.sendMessage "c1" "hi"
      (mkWorld (Some Scenario.alice)
               (mkRelationStore Scenario.friend_edges false None [] [])
               (mkConversationStore [] false None)
               (mkChatStore [] false None)
               (mkBackend [Scenario.alice; Scenario.bob] Scenario.friend_edges
                          [Scenario.chat_record] [] 2 0 [false; false; true] []))
    = (Throw e, w')
    /\ db_messages (pb w') = [m]
    /\ msg_text m = Some "hi".
Proof.
  destruct (sendMessage_stored_but_thrown
              (mkWorld (Some Scenario.alice)
                 (mkRelationStore Scenario.friend_edges false None [] [])
                 (mkConversationStore [] false None)
                 (mkChatStore [] false None)
                 (mkBackend [Scenario.alice; Scenario.bob] Scenario.friend_edges
                            [Scenario.chat_record] [] 2 0 [false; false; true] []))
              (snd (ChatService.checkBlockStatus "c1"
                 (mkWorld (Some Scenario.alice)
                    (mkRelationStore Scenario.friend_edges false None [] [])
                    (mkConversationStore [] false None)
                    (mkChatStore [] false None)
                    (mkBackend [Scenario.alice; Scenario.bob] Scenario.friend_edges
                               [Scenario.chat_record] [] 2 0 [false; false; true] []))))
              Scenario.alice "c1" "hi" [] eq_refl eq_refl eq_refl eq_refl)
    as (e & w' & m & Hrun & Hdb & Htext & _).
  exists e, w', m. split; [exact Hrun|]. split; [exact Hdb | exact Htext].
Defined.

(** ** Fetching the messages *)

Lemma messages_getList_run f s p n (w : World) :
  messages_collection.getList f s p n w =
  if hd false (db_faults (pb w))
  then (Throw transportFailure, with_pb (arrive (GetList Messages)) w)
  else (Ok (map (messages_collection.expand_message (pb w))
                (page_of p n (sort_by s (filter f (db_messages (pb w)))))),
        with_pb (arrive (GetList Messages)) w).
Proof.
  unfold messages_collection.getList. mstep. rewrite request_run.
  destruct (hd false (db_faults (pb w))); reflexivity.
Qed.

Lemma created_asc_total (a b : IMessage) :
  ChatService.created_asc a b = true \/ ChatService.created_asc b a = true.
Proof. unfold ChatService.created_asc. rewrite !Nat.leb_le. lia. Qed.

Lemma created_asc_trans (a b c : IMessage) :
  ChatService.created_asc a b = true -> ChatService.created_asc b c = true ->
  ChatService.created_asc a c = true.
Proof. unfold ChatService.created_asc. rewrite !Nat.leb_le. lia. Qed.

Lemma in_firstn_or_skipn {A} (n : nat) (l : list A) (x : A) :
  In x l -> In x (firstn n l) \/ In x (skipn n l).
Proof.
  intros H. rewrite <- (firstn_skipn n l) in H. apply in_app_or in H. exact H.
Qed.

Lemma in_skipn_in {A} (n : nat) (l : list A) (x : A) : In x (skipn n l) -> In x l.
Proof.
  intros H. rewrite <- (firstn_skipn n l). apply in_or_app. right. exact H.
Qed.

(** In a sorted list, the first [n] entries precede the others. *)
Lemma firstn_before_skipn {A} (R : A -> A -> Prop) (n : nat) (l : list A) (x y : A) :
  StronglySorted R l -> In x (firstn n l) -> In y (skipn n l) -> R x y.
Proof.
  revert n. induction l as [|z l IH]; intros [|n] Hs Hx Hy; cbn in Hx, Hy;
    try contradiction.
  inversion Hs as [|? ? Hl Hz]; subst.
  destruct Hx as [->|Hx].
  - apply (proj1 (Forall_forall _ _) Hz). exact (in_skipn_in n l y Hy).
  - exact (IH n Hl Hx Hy).
Qed.

(** X15: [fetchMessages] never throws, sends one list request and ends with
    the loading flag down.  When the request fails the message list is
    kept and the error signal holds a non-empty message.  When it goes
    through, the error is cleared and the list holds at most [perPage]
    messages, all of the conversation and stored, oldest first.  The first
    page is the oldest end of the conversation: a stored message of the
    conversation that is not listed is no older than any listed one. *)
Theorem fetchMessages_outcome :
  forall (w : World) (conversationId : string) (page perPage : nat),
    exists w',
      ChatService.fetchMessages conversationId page perPage w = (Ok tt, w')
      /\ chat_loadingSignal (chatService w') = false
      /\ db_log (pb w') = db_log (pb w) ++ [GetList Messages]
      /\ db_messages (pb w') = db_messages (pb w)
      /\ (hd false (db_faults (pb w)) = true ->
          messagesSignal (chatService w') = messagesSignal (chatService w)
          /\ exists msg, chat_errorSignal (chatService w') = Some msg /\ msg <> "")
      /\ (hd false (db_faults (pb w)) = false ->
          let msgs := messagesSignal (chatService w') in
          chat_errorSignal (chatService w') = None
          /\ List.length msgs <= perPage
          /\ (forall m, In m msgs ->
                msg_conversation m = Some conversationId
                /\ exists s, In s (db_messages (pb w))
                             /\ m = messages_collection.expand_message (pb w) s)
          /\ StronglySorted (fun a b => msg_created a <= msg_created b) msgs
          /\ (page = 1 ->
              forall s, In s (db_messages (pb w)) ->
                        msg_conversation s = Some conversationId ->
                        In (messages_collection.expand_message (pb w) s) msgs
                        \/ forall m, In m msgs -> msg_created m <= msg_created s)).
Proof.
  intros w conversationId page perPage.
  unfold ChatService.fetchMessages, ChatService.loadingSignal_set,
    ChatService.errorSignal_set, handleError.
  mstep. rewrite messages_getList_run. cbn [pb with_chatService].
  destruct (hd false (db_faults (pb w))).
  - eexists. split; [reflexivity|]. cbn. split; [reflexivity|]. split; [reflexivity|].
    split; [reflexivity|]. split; [|discriminate]. intros _. split; [reflexivity|].
    eexists. split; [reflexivity|]. discriminate.
  - eexists. split; [reflexivity|].
    cbn [chatService with_chatService with_pb messagesSignal set_messages
         set_chat_loading set_chat_error chat_loadingSignal chat_errorSignal
         pb arrive db_log db_messages].
    split; [reflexivity|]. split; [reflexivity|]. split; [reflexivity|].
    split; [discriminate|]. intros _. cbv zeta.
    set (own := fun m : IMessage => match msg_conversation m with
                                    | Some c => c =? conversationId
                                    | None => false
                                    end).
    set (sorted := sort_by (Some ChatService.created_asc) (filter own (db_messages (pb w)))).
    assert (Hsorted : StronglySorted (fun a b => ChatService.created_asc a b = true) sorted).
    { apply sort_by_ordered; [exact created_asc_total | exact created_asc_trans]. }
    assert (Hown : forall s, In s sorted ->
                             In s (db_messages (pb w)) /\ msg_conversation s = Some conversationId).
    { intros s Hs. apply sort_by_in, filter_In in Hs. destruct Hs as [Hin Hs].
      split; [exact Hin|]. unfold own in Hs.
      destruct (msg_conversation s) as [c|]; [|discriminate Hs].
      apply String.eqb_eq in Hs. rewrite Hs. reflexivity. }
    split; [reflexivity|].
    split; [rewrite length_map; unfold page_of; apply firstn_le_length|].
    split; [|split].
    + intros m Hm. apply in_map_iff in Hm. destruct Hm as (s & <- & Hs).
      unfold page_of in Hs. apply in_firstn, in_skipn_in in Hs.
      destruct (Hown s Hs) as [Hin Hc].
      split; [exact Hc|]. exists s. split; [exact Hin | reflexivity].
    + apply (StronglySorted_map (fun a b => ChatService.created_asc a b = true)).
      * intros a b Hab. unfold ChatService.created_asc in Hab.
        apply Nat.leb_le in Hab. exact Hab.
      * unfold page_of. apply StronglySorted_firstn, StronglySorted_skipn. exact Hsorted.
    + intros -> s Hs Hc. unfold page_of. cbn [Nat.sub Nat.mul skipn].
      assert (Hin : In s sorted).
      { apply sort_by_in, filter_In. split; [exact Hs|].
        unfold own. rewrite Hc. apply String.eqb_refl. }
      destruct (in_firstn_or_skipn perPage sorted s Hin) as [Hf|Hk].
      * left. apply in_map. exact Hf.
      * right. intros m Hm. apply in_map_iff in Hm. destruct Hm as (x & <- & Hx).
        pose proof (firstn_before_skipn _ perPage sorted x s Hsorted Hx Hk) as Hle.
        unfold ChatService.created_asc in Hle. apply Nat.leb_le in Hle. exact Hle.
Qed.

Lemma fetchMessages_outcome_witness :
  exists w',
    ChatService.fetchMessages "c1" 1 2 Scenario.chat_history = (Ok tt, w')
    /\ List.length (messagesSignal (chatService w')) <= 2
    /\ map msg_id (messagesSignal (chatService w')) = ["m2"; "m1"].
Proof.
  destruct (fetchMessages_outcome Scenario.chat_history "c1" 1 2)
    as (w' & Hrun & _ & _ & _ & _ & Hok).
  exists w'. split; [exact Hrun|].
  destruct (Hok eq_refl) as (_ & Hlen & _). split; [exact Hlen|].
  assert (Hw : w' = snd (ChatService.fetchMessages "c1" 1 2 Scenario.chat_history)).
  { rewrite Hrun. reflexivity. }
  rewrite Hw. vm_compute. reflexivity.
Defined.

(** ** The subscription callbacks *)

Lemma refetch_world (record : IRelation) (w : World) :
  exists record',
    RelationService.refetch record w
    = (Ok record',
       if lacks_expand record
       then with_pb (arrive (GetOne Relations (rel_id record))) w else w)
    /\ rel_id record' = rel_id record.
Proof.
  unfold RelationService.refetch.
  destruct (lacks_expand record); [|exists record; split; reflexivity].
  mstep. rewrite relations_getOne_run.
  destruct (hd false (db_faults (pb w))); [exists record; split; reflexivity|].
  destruct (find _ _) as [r|] eqn:Hr; [|exists record; split; reflexivity].
  apply find_some in Hr. destruct Hr as [_ Hr]. apply String.eqb_eq in Hr.
  eexists. split; [reflexivity|]. rewrite <- Hr. destruct r; reflexivity.
Qed.

(** Removing an identifier that was appended to a list not holding it
    gives the list back. *)
Lemma filter_appended (i : string) (l : list string) :
  existsb (String.eqb i) l = false ->
  filter (fun x => negb (x =? i)) (l ++ [i]) = l.
Proof.
  intros H. rewrite filter_app. cbn. rewrite String.eqb_refl. cbn.
  rewrite app_nil_r. apply filter_all. intros x Hx.
  apply negb_true_iff, String.eqb_neq. intros ->.
  assert (existsb (String.eqb i) l = true).
  { apply existsb_exists. exists i. split; [exact Hx | apply String.eqb_refl]. }
  congruence.
Qed.

(** The callback of the relation subscription never throws, sends read
    requests only, and writes nothing but the relation collection: the
    other services, the error and loading signals and the set of
    identifiers being processed are as before. *)
Lemma onRelationEvent_frame (w : World) (me : IAuthUser) (action : Action)
      (record : IRelation) :
  exists w',
    RelationService.onRelationEvent me action record w = (Ok tt, w')
    /\ reads_only w w'
    /\ conversationService w' = conversationService w
    /\ chatService w' = chatService w
    /\ processingIds (relationService w') = processingIds (relationService w)
    /\ rel_errorSignal (relationService w') = rel_errorSignal (relationService w)
    /\ rel_loadingSignal (relationService w') = rel_loadingSignal (relationService w).
Proof.
  unfold RelationService.onRelationEvent.
  destruct (negb _ && negb _); [exists w; repeat split|].
  destruct action.
  - unfold RelationService.handleRelationCreate. mstep.
    unfold RelationService.processingIds_has.
    destruct (existsb _ (processingIds (relationService w))) eqn:Hbusy;
      [exists w; repeat split|].
    unfold RelationService.processingIds_add. mstep.
    match goal with
    | |- context [RelationService.refetch record ?w1] =>
        destruct (refetch_world record w1) as (record' & -> & Hid)
    end.
    unfold RelationService.processingIds_delete. mstep. rewrite Hid.
    destruct (lacks_expand record);
      cbn [relationService with_relationService with_pb relationsSignal processingIds
           set_processingIds];
      rewrite Hbusy;
      cbn [relationsSignal set_processingIds];
      destruct (negb _); eexists; (split; [reflexivity|]);
      repeat split;
      cbn [processingIds relationService with_relationService with_pb
           set_processingIds set_relations];
      rewrite ?Hbusy;
      first [reflexivity | exact (filter_appended _ _ Hbusy)].
  - unfold RelationService.handleRelationUpdate. mstep.
    destruct (refetch_world record w) as (record' & -> & Hid).
    destruct (lacks_expand record); eexists; (split; [reflexivity|]); repeat split.
  - unfold RelationService.handleRelationDelete. mstep.
    eexists; (split; [reflexivity|]); repeat split.
Qed.

(** The same for the conversation subscription: only the conversation
    collection is written. *)
Lemma onConversationEvent_frame (w : World) (me : IAuthUser) (action : Action)
      (record : IConversation) :
  exists w',
    ConversationService.onConversationEvent me action record w = (Ok tt, w')
    /\ reads_only w w'
    /\ relationService w' = relationService w
    /\ chatService w' = chatService w
    /\ conv_errorSignal (conversationService w') = conv_errorSignal (conversationService w)
    /\ conv_loadingSignal (conversationService w')
       = conv_loadingSignal (conversationService w).
Proof.
  unfold ConversationService.onConversationEvent.
  destruct (negb _); [exists w; repeat split|].
  assert (Hupsert :
    exists w',
      ConversationService.handleConversationCreateOrUpdate record w = (Ok tt, w')
      /\ reads_only w w'
      /\ relationService w' = relationService w
      /\ chatService w' = chatService w
      /\ conv_errorSignal (conversationService w') = conv_errorSignal (conversationService w)
      /\ conv_loadingSignal (conversationService w')
         = conv_loadingSignal (conversationService w)).
  { unfold ConversationService.handleConversationCreateOrUpdate,
      ConversationService.remove_by_id.
    mstep. rewrite conversations_getOne_run.
    destruct (hd false (db_faults (pb w)));
      [eexists; (split; [reflexivity|]); repeat split|].
    destruct (find _ _) as [c|]; [|eexists; (split; [reflexivity|]); repeat split].
    cbn [authUser with_pb].
    destruct (authUser w) as [u|]; [|eexists; (split; [reflexivity|]); repeat split].
    destruct (ConversationService.getOtherParticipant _ _) as [other|];
      [|eexists; (split; [reflexivity|]); repeat split].
    destruct (RelationService.isBlockedByMe _ _);
      [eexists; (split; [reflexivity|]); repeat split|].
    destruct (RelationService.isBlockedBy _ _);
      [eexists; (split; [reflexivity|]); repeat split|].
    cbn [orb]. rewrite relations_getList_run.
    destruct (hd false (db_faults (pb _)));
      [eexists; (split; [reflexivity|]); repeat split|].
    destruct (List.length _ =? 0)%nat; eexists; (split; [reflexivity|]); repeat split. }
  destruct action; [exact Hupsert | exact Hupsert |].
  unfold ConversationService.handleConversationDelete, ConversationService.remove_by_id.
  mstep. eexists; (split; [reflexivity|]); repeat split.
Qed.

(** The same for the message subscription: only the message list is
    written. *)
Lemma onMessageEvent_frame (w : World) (conversationId : string) (action : Action)
      (record : IMessage) :
  exists w',
    ChatService.onMessageEvent conversationId action record w = (Ok tt, w')
    /\ reads_only w w'
    /\ relationService w' = relationService w
    /\ conversationService w' = conversationService w
    /\ chat_errorSignal (chatService w') = chat_errorSignal (chatService w)
    /\ chat_loadingSignal (chatService w') = chat_loadingSignal (chatService w).
Proof.
  unfold ChatService.onMessageEvent.
  destruct (msg_conversation record) as [c|]; [|exists w; repeat split].
  destruct (negb _); [exists w; repeat split|].
  destruct action.
  - unfold ChatService.handleMessageCreate. mstep.
    destruct (msg_expand record).
    + cbv beta iota zeta. destruct (negb _); eexists; (split; [reflexivity|]); repeat split.
    + rewrite users_getOne_run.
      destruct (hd false (db_faults (pb w)));
        [eexists; (split; [reflexivity|]); repeat split|].
      destruct (find_user _ _); [|eexists; (split; [reflexivity|]); repeat split].
      cbv beta iota zeta. destruct (negb _); eexists; (split; [reflexivity|]); repeat split.
  - unfold ChatService.handleMessageUpdate. mstep.
    eexists; (split; [reflexivity|]); repeat split.
  - unfold ChatService.handleMessageDelete. mstep.
    eexists; (split; [reflexivity|]); repeat split.
Qed.

(** X16: No subscription callback ever throws, whatever the event and whatever
    the backend answers to the reads it triggers; each sends read requests
    only and writes only the collection of its own service.  An event that
    does not concern the local user, or the open conversation, changes
    nothing at all. *)
Theorem event_callbacks_never_throw :
  forall (w : World) (me : IAuthUser) (conversationId : string) (action : Action)
         (rel : IRelation) (conv : IConversation) (msg : IMessage),
    let wr := snd (RelationService.onRelationEvent me action rel w) in
    let wc := snd (ConversationService.onConversationEvent me action conv w) in
    let wm := snd (ChatService.onMessageEvent conversationId action msg w) in
    (fst (RelationService.onRelationEvent me action rel w) = Ok tt
     /\ reads_only w wr
     /\ conversationService wr = conversationService w /\ chatService wr = chatService w
     /\ processingIds (relationService wr) = processingIds (relationService w)
     /\ (from_user rel <> user_id me -> to_user rel <> user_id me -> wr = w))
    /\ (fst (ConversationService.onConversationEvent me action conv w) = Ok tt
        /\ reads_only w wc
        /\ relationService wc = relationService w /\ chatService wc = chatService w
        /\ (~ In (user_id me) (participants conv) -> wc = w))
    /\ (fst (ChatService.onMessageEvent conversationId action msg w) = Ok tt
        /\ reads_only w wm
        /\ relationService wm = relationService w
        /\ conversationService wm = conversationService w
        /\ (msg_conversation msg <> Some conversationId -> wm = w)).
Proof.
  intros w me conversationId action rel conv msg wr wc wm. subst wr wc wm.
  assert (Hrel : from_user rel <> user_id me -> to_user rel <> user_id me ->
                 snd (RelationService.onRelationEvent me action rel w) = w).
  { intros Hf Ht. unfold RelationService.onRelationEvent.
    apply String.eqb_neq in Hf, Ht. rewrite Hf, Ht. reflexivity. }
  assert (Hconv : ~ In (user_id me) (participants conv) ->
                  snd (ConversationService.onConversationEvent me action conv w) = w).
  { intros Hnot. unfold ConversationService.onConversationEvent.
    destruct (includes (user_id me) (participants conv)) eqn:E; [|reflexivity].
    exfalso. apply Hnot. unfold includes in E. apply existsb_exists in E.
    destruct E as (x & Hx & E). apply String.eqb_eq in E. subst x. exact Hx. }
  assert (Hmsg : msg_conversation msg <> Some conversationId ->
                 snd (ChatService.onMessageEvent conversationId action msg w) = w).
  { intros Hc. unfold ChatService.onMessageEvent.
    destruct (msg_conversation msg) as [c|]; [|reflexivity].
    destruct (c =? conversationId) eqn:E; [|reflexivity].
    apply String.eqb_eq in E. subst c. contradiction. }
  destruct (onRelationEvent_frame w me action rel) as (w1 & Hr1 & R2 & R3 & R4 & R5 & _).
  destruct (onConversationEvent_frame w me action conv) as (w2 & Hr2 & C2 & C3 & C4 & _).
  destruct (onMessageEvent_frame w conversationId action msg) as (w3 & Hr3 & M2 & M3 & M4 & _).
  rewrite Hr1 in Hrel |- *. rewrite Hr2 in Hconv |- *. rewrite Hr3 in Hmsg |- *.
  cbn [fst snd] in *.
  split; [|split]; repeat (split; [first [reflexivity | assumption]|]); assumption.
Qed.

Lemma event_callbacks_never_throw_witness :
  fst (RelationService.onRelationEvent Scenario.alice create Scenario.request_edge
         (Scenario.faulty Scenario.alice [] [Scenario.request_edge] [true])) = Ok tt
  /\ snd (ChatService.onMessageEvent "c2" create (Scenario.note "m4" 11)
            Scenario.chat_history) = Scenario.chat_history.
Proof.
  destruct (event_callbacks_never_throw
              (Scenario.faulty Scenario.alice [] [Scenario.request_edge] [true])
              Scenario.alice "c1" create Scenario.request_edge Scenario.chat_record
              (Scenario.note "m4" 11)) as [[H _] _].
  split; [exact H|].
  destruct (event_callbacks_never_throw Scenario.chat_history Scenario.alice "c2" create
              Scenario.request_edge Scenario.chat_record (Scenario.note "m4" 11))
    as (_ & _ & _ & _ & _ & _ & H').
  apply H'. discriminate.
Defined.

(** ** Real-time events on the messages *)

(** X17: A create event for an identifier the list does not hold appends one
    message at the end, with the fields of the event's record and the
    collection tags, when the record comes with its author or the author
    can be read; the author read is then the stored user of that
    identifier.  When the record lacks its author and the read fails, by
    transport or because the user is unknown, the message is dropped: the
    list stays as it was and nothing is signalled. *)
Theorem handleMessageCreate_outcome :
  forall (w : World) (record : IMessage),
    existsb (fun m => msg_id m =? msg_id record) (messagesSignal (chatService w)) = false ->
    let before := messagesSignal (chatService w) in
    let w' := snd (ChatService.handleMessageCreate record w) in
    let after := messagesSignal (chatService w') in
    let lost := match msg_expand record with
                | Some _ => false
                | None => hd false (db_faults (pb w))
                          || match find_user (pb w) (msg_user record) with
                             | Some _ => false
                             | None => true
                             end
                end in
    chat_errorSignal (chatService w') = chat_errorSignal (chatService w)
    /\ (lost = true -> after = before)
    /\ (lost = false ->
        exists m, after = before ++ [m]
                  /\ msg_id m = msg_id record
                  /\ msg_text m = msg_text record
                  /\ msg_user m = msg_user record
                  /\ msg_conversation m = msg_conversation record
                  /\ msg_created m = msg_created record
                  /\ msg_collectionId m = Some "messages"
                  /\ msg_collectionName m = Some "messages"
                  /\ (exists u, msg_expand m = Some u)
                  /\ (msg_expand record = None ->
                      exists u, In u (db_users (pb w)) /\ user_id u = msg_user record
                                /\ msg_expand m = Some u)).
Proof.
  intros w record Habsent. cbv zeta.
  unfold ChatService.handleMessageCreate. mstep.
  destruct (msg_expand record) as [u|] eqn:Hexp.
  - cbv beta iota zeta. cbn [msg_id]. rewrite Habsent. cbn [negb].
    split; [reflexivity|]. split; [discriminate|]. intros _.
    eexists. split; [reflexivity|]. cbn. rewrite Hexp.
    repeat split; try reflexivity; [exists u; reflexivity | discriminate].
  - rewrite users_getOne_run.
    destruct (hd false (db_faults (pb w))).
    { split; [reflexivity|]. split; [reflexivity | discriminate]. }
    cbn [orb]. destruct (find_user (pb w) (msg_user record)) as [u|] eqn:Hu.
    2:{ split; [reflexivity|]. split; [reflexivity | discriminate]. }
    cbv beta iota zeta. cbn [msg_id set_expand_user chatService with_pb].
    rewrite Habsent. cbn [negb].
    split; [reflexivity|]. split; [discriminate|]. intros _.
    eexists. split; [reflexivity|]. cbn.
    repeat split; try reflexivity.
    + eexists; reflexivity.
    + intros _. unfold find_user in Hu. apply find_some in Hu. destruct Hu as [Hin Hid].
      apply String.eqb_eq in Hid.
      exists (mkUser (user_id u) (email u) (username u) (avatar u)).
      destruct u; cbn in *. auto.
Qed.

Lemma handleMessageCreate_outcome_witness :
  messagesSignal
    (chatService
       (snd (ChatService.handleMessageCreate (Scenario.note "m4" 11)
               (Scenario.faulty Scenario.alice [] [] [true]))))
  = [].
Proof.
  destruct (handleMessageCreate_outcome (Scenario.faulty Scenario.alice [] [] [true])
              (Scenario.note "m4" 11) eq_refl) as (_ & H & _).
  apply H. reflexivity.
Defined.

Lemma subseq_filter {A} (p : A -> bool) (l : list A) : subseq (filter p l) l.
Proof.
  induction l as [|x l IH]; cbn; [constructor|].
  destruct (p x); constructor; exact IH.
Qed.

(** X18: An update event changes the text and the update stamp of the entries
    with its identifier and nothing else: identifiers, authors, creation
    stamps, files and expansions stay and no entry is added, dropped or
    moved; for an identifier the list does not hold, the list is unchanged.
    A delete event drops exactly the entries with its identifier and keeps
    the others in order. *)
Theorem message_update_delete_events :
  forall (w : World) (record : IMessage),
    let before := messagesSignal (chatService w) in
    let updated := messagesSignal
                     (chatService (snd (ChatService.handleMessageUpdate record w))) in
    let deleted := messagesSignal
                     (chatService (snd (ChatService.handleMessageDelete record w))) in
    (map msg_id updated = map msg_id before
     /\ map msg_user updated = map msg_user before
     /\ map msg_created updated = map msg_created before
     /\ map msg_file updated = map msg_file before
     /\ map msg_expand updated = map msg_expand before
     /\ (forall m, In m updated -> msg_id m = msg_id record ->
                   msg_text m = msg_text record /\ msg_updated m = msg_updated record)
     /\ (forall m, In m before -> msg_id m <> msg_id record -> In m updated)
     /\ (existsb (fun m => msg_id m =? msg_id record) before = false -> updated = before))
    /\ (subseq deleted before
        /\ (forall m, In m deleted <-> In m before /\ msg_id m <> msg_id record)
        /\ (existsb (fun m => msg_id m =? msg_id record) before = false ->
            deleted = before)).
Proof.
  intros w record. cbv zeta.
  unfold ChatService.handleMessageUpdate, ChatService.handleMessageDelete. mstep.
  cbn [snd chatService with_chatService messagesSignal set_messages].
  set (before := messagesSignal (chatService w)).
  set (patch := fun m : IMessage =>
         if msg_id m =? msg_id record
         then set_text (msg_text record) (msg_updated record) m else m).
  assert (Hkeep : forall m, msg_id (patch m) = msg_id m
                            /\ msg_user (patch m) = msg_user m
                            /\ msg_created (patch m) = msg_created m
                            /\ msg_file (patch m) = msg_file m
                            /\ msg_expand (patch m) = msg_expand m).
  { intros m. unfold patch. destruct (msg_id m =? msg_id record); repeat split. }
  assert (Hfresh : existsb (fun m => msg_id m =? msg_id record) before = false ->
                   forall m, In m before -> (msg_id m =? msg_id record) = false).
  { intros Hex m Hm. destruct (msg_id m =? msg_id record) eqn:E; [|reflexivity].
    assert (existsb (fun m => msg_id m =? msg_id record) before = true).
    { apply existsb_exists. exists m. split; assumption. }
    congruence. }
  split.
  - split; [rewrite map_map; apply map_ext; intros m; apply Hkeep|].
    split; [rewrite map_map; apply map_ext; intros m; apply Hkeep|].
    split; [rewrite map_map; apply map_ext; intros m; apply Hkeep|].
    split; [rewrite map_map; apply map_ext; intros m; apply Hkeep|].
    split; [rewrite map_map; apply map_ext; intros m; apply Hkeep|].
    split; [|split].
    + intros m Hm Hid. apply in_map_iff in Hm. destruct Hm as (x & <- & Hx).
      unfold patch in *. destruct (msg_id x =? msg_id record) eqn:E.
      * split; reflexivity.
      * apply String.eqb_neq in E. contradiction.
    + intros m Hm Hne. apply in_map_iff. exists m. split; [|exact Hm].
      unfold patch. apply String.eqb_neq in Hne. rewrite Hne. reflexivity.
    + intros Hex. rewrite <- (map_id before) at 2. apply map_ext_in.
      intros m Hm. unfold patch. rewrite (Hfresh Hex m Hm). reflexivity.
  - split; [apply subseq_filter|]. split.
    + intros m. rewrite filter_In, negb_true_iff, String.eqb_neq. reflexivity.
    + intros Hex. apply filter_all. intros m Hm.
      rewrite (Hfresh Hex m Hm). reflexivity.
Qed.

(** ** Fetching the conversations *)

Lemma subseq_in {A} (k l : list A) (x : A) : subseq k l -> In x k -> In x l.
Proof.
  induction 1 as [|y k l _ IH|y k l _ IH]; intros Hx.
  - exact Hx.
  - right. exact (IH Hx).
  - destruct Hx as [->|Hx]; [left; reflexivity | right; exact (IH Hx)].
Qed.

Lemma subseq_length {A} (k l : list A) : subseq k l -> List.length k <= List.length l.
Proof. induction 1; cbn; lia. Qed.

Lemma subseq_sorted {A} (R : A -> A -> Prop) (k l : list A) :
  subseq k l -> StronglySorted R l -> StronglySorted R k.
Proof.
  induction 1 as [|y k l Hsub IH|y k l Hsub IH]; intros Hs.
  - constructor.
  - inversion Hs; subst. apply IH. assumption.
  - inversion Hs as [|? ? Hl Hy]; subst. constructor; [exact (IH Hl)|].
    apply Forall_forall. intros z Hz.
    exact (proj1 (Forall_forall _ _) Hy z (subseq_in _ _ _ Hsub Hz)).
Qed.

Lemma reads_only_trans (w1 w2 w3 : World) :
  reads_only w1 w2 -> reads_only w2 w3 -> reads_only w1 w3.
Proof.
  unfold reads_only. intros H1 H2. decompose [and] H1. decompose [and] H2.
  repeat split; congruence.
Qed.

(** The loop of [fetchConversations] returns: it appends to the array a
    selection of the items, in their order, sends read requests only and
    writes no signal. *)
Lemma filterConversations_subseq (me : IAuthUser) (items : list IConversation) :
  forall (acc : list IConversation) (w : World),
    exists kept w',
      ConversationService.filterConversations me items acc w = (Ok (acc ++ kept), w')
      /\ subseq kept items
      /\ reads_only w w'
      /\ relationService w' = relationService w
      /\ conversationService w' = conversationService w
      /\ chatService w' = chatService w.
Proof.
  induction items as [|c items IH]; intros acc w.
  - exists [], w. cbn. rewrite app_nil_r. repeat split. constructor.
  - assert (Hskip : forall w1, reads_only w w1 ->
                      relationService w1 = relationService w ->
                      conversationService w1 = conversationService w ->
                      chatService w1 = chatService w ->
                      exists kept w',
                        ConversationService.filterConversations me items acc w1
                        = (Ok (acc ++ kept), w')
                        /\ subseq kept (c :: items)
                        /\ reads_only w w'
                        /\ relationService w' = relationService w
                        /\ conversationService w' = conversationService w
                        /\ chatService w' = chatService w).
    { intros w1 Hr H1 H2 H3.
      destruct (IH acc w1) as (kept & w' & Hrun & Hsub & Hr' & H1' & H2' & H3').
      exists kept, w'. split; [exact Hrun|]. split; [constructor; exact Hsub|].
      split; [exact (reads_only_trans _ _ _ Hr Hr')|]. repeat split; congruence. }
    assert (Hrefl : reads_only w w) by (repeat split).
    cbn [ConversationService.filterConversations]. mstep.
    destruct (ConversationService.getOtherParticipant c w) as [other|];
      [|exact (Hskip w Hrefl eq_refl eq_refl eq_refl)].
    destruct (RelationService.isBlockedByMe (user_id other) w);
      [exact (Hskip w Hrefl eq_refl eq_refl eq_refl)|].
    destruct (RelationService.isBlockedBy (user_id other) w);
      [exact (Hskip w Hrefl eq_refl eq_refl eq_refl)|].
    rewrite relations_getList_run.
    set (w1 := with_pb (arrive (GetList Relations)) w).
    assert (Hr1 : reads_only w w1) by (repeat split).
    destruct (hd false (db_faults (pb w)));
      [exact (Hskip w1 Hr1 eq_refl eq_refl eq_refl)|].
    destruct (0 <? List.length _)%nat;
      [|exact (Hskip w1 Hr1 eq_refl eq_refl eq_refl)].
    destruct (IH (acc ++ [c]) w1) as (kept & w' & Hrun & Hsub & Hr' & H1' & H2' & H3').
    exists (c :: kept), w'. split.
    { rewrite Hrun. rewrite <- app_assoc. reflexivity. }
    split; [constructor; exact Hsub|].
    split; [exact (reads_only_trans _ _ _ Hr1 Hr')|]. repeat split; assumption.
Qed.

Lemma updated_desc_total (a b : IConversation) :
  updated_desc a b = true \/ updated_desc b a = true.
Proof. unfold updated_desc. rewrite !Nat.leb_le. lia. Qed.

Lemma updated_desc_trans (a b c : IConversation) :
  updated_desc a b = true -> updated_desc b c = true -> updated_desc a c = true.
Proof. unfold updated_desc. rewrite !Nat.leb_le. lia. Qed.

(** X19: [fetchConversations] never throws, sends read requests only, leaves
    the relation collection alone and ends with the loading flag down;
    without a signed-in user it does nothing.  When the list request fails
    the collection is kept and the error signal holds a non-empty message.
    When it goes through, the error is cleared, whatever happens to the
    friendship queries (a conversation whose query fails is left out
    without any signal), and the collection is a selection of the fetched
    page in its order: at most 50 conversations, most recently updated
    first. *)
Theorem fetchConversations_outcome :
  forall (w : World),
    (authUser w = None -> ConversationService.fetchConversations w = (Ok tt, w))
    /\ (forall me,
          authUser w = Some me ->
          exists w',
            ConversationService.fetchConversations w = (Ok tt, w')
            /\ conv_loadingSignal (conversationService w') = false
            /\ reads_only w w'
            /\ relationService w' = relationService w
            /\ chatService w' = chatService w
            /\ (hd false (db_faults (pb w)) = true ->
                conversationsSignal (conversationService w')
                = conversationsSignal (conversationService w)
                /\ db_log (pb w') = db_log (pb w) ++ [GetList Conversations]
                /\ exists msg, conv_errorSignal (conversationService w') = Some msg
                               /\ msg <> "")
            /\ (hd false (db_faults (pb w)) = false ->
                let after := conversationsSignal (conversationService w') in
                conv_errorSignal (conversationService w') = None
                /\ subseq after (fetched me (pb w))
                /\ List.length after <= 50
                /\ StronglySorted (fun a b => conv_updated b <= conv_updated a) after)).
Proof.
  intros w. unfold ConversationService.fetchConversations. mstep. split.
  { intros ->. reflexivity. }
  intros me ->.
  unfold ConversationService.loadingSignal_set, ConversationService.errorSignal_set.
  mstep. rewrite conversations_getList_run.
  cbn [pb with_conversationService].
  destruct (hd false (db_faults (pb w))).
  - eexists. split; [reflexivity|]. cbn. split; [reflexivity|].
    split; [repeat split|]. split; [reflexivity|]. split; [reflexivity|].
    split; [|discriminate]. intros _. split; [reflexivity|]. split; [reflexivity|].
    eexists. split; [reflexivity|]. discriminate.
  - fold (fetched me (pb w)).
    match goal with
    | |- context [ConversationService.filterConversations me _ [] ?w1] =>
        destruct (filterConversations_subseq me (fetched me (pb w)) [] w1)
          as (kept & w2 & -> & Hsub & Hr & H1 & H2 & H3)
    end.
    eexists. split; [reflexivity|].
    cbn [conversationService with_conversationService conversationsSignal
         set_conversations set_conv_loading conv_loadingSignal conv_errorSignal
         relationService chatService app].
    split; [reflexivity|].
    split; [exact Hr|]. split; [exact H1|]. split; [exact H3|].
    split; [discriminate|]. intros _. cbv zeta.
    split; [rewrite H2; reflexivity|].
    split; [exact Hsub|].
    assert (Hlen : List.length (fetched me (pb w)) <= 50).
    { unfold fetched, listed_conversations. rewrite length_map. unfold page_of.
      apply firstn_le_length. }
    split; [pose proof (subseq_length _ _ Hsub); lia|].
    apply (subseq_sorted _ _ _ Hsub).
    unfold fetched, listed_conversations.
    apply (StronglySorted_map (fun a b => updated_desc a b = true)).
    + intros a b Hab. unfold updated_desc in Hab. apply Nat.leb_le in Hab. exact Hab.
    + apply page_ordered; [exact updated_desc_total | exact updated_desc_trans].
Qed.

Lemma fetchConversations_outcome_witness :
  exists w',
    ConversationService.fetchConversations
      (Scenario.faulty Scenario.alice Scenario.friend_edges Scenario.friend_edges [true])
    = (Ok tt, w')
    /\ conversationsSignal (conversationService w') = []
    /\ exists msg, conv_errorSignal (conversationService w') = Some msg /\ msg <> "".
Proof.
  destruct (fetchConversations_outcome
              (Scenario.faulty Scenario.alice Scenario.friend_edges
                               Scenario.friend_edges [true])) as [_ H].
  destruct (H Scenario.alice eq_refl) as (w' & Hrun & _ & _ & _ & _ & Hfail & _).
  exists w'. split; [exact Hrun|].
  destruct (Hfail eq_refl) as (Hkeep & _ & Herr). split; [exact Hkeep | exact Herr].
Defined.

(** ** Searching users and opening conversations *)

Lemma users_getList_run f p n (w : World) :
  users_collection.getList f p n w =
  if hd false (db_faults (pb w))
  then (Throw transportFailure, with_pb (arrive (GetList Users)) w)
  else (Ok (page_of p n (filter f (db_users (pb w)))),
        with_pb (arrive (GetList Users)) w).
Proof.
  unfold users_collection.getList. mstep. rewrite request_run.
  destruct (hd false (db_faults (pb w))); reflexivity.
Qed.

Lemma user_eta (u : IAuthUser) :
  mkUser (user_id u) (email u) (username u) (avatar u) = u.
Proof. destruct u; reflexivity. Qed.

(** X20: [searchUsers] never throws and writes no signal.  Without a signed-in
    user, or for a query that is blank once trimmed, it answers the empty
    list without any request.  Otherwise it sends one list request; when
    that fails the answer is the empty list, and nothing tells it from "no
    match"; when it goes through the answer holds at most 10 stored users,
    never the local user, each with a user name containing the query. *)
Theorem searchUsers_outcome :
  forall (w : World) (query : string),
    exists found w',
      ConversationService.searchUsers query w = (Ok found, w')
      /\ reads_only w w'
      /\ relationService w' = relationService w
      /\ conversationService w' = conversationService w
      /\ chatService w' = chatService w
      /\ ((authUser w = None \/ trim query = "") -> found = [] /\ w' = w)
      /\ (authUser w <> None -> trim query <> "" ->
          db_log (pb w') = db_log (pb w) ++ [GetList Users]
          /\ (hd false (db_faults (pb w)) = true -> found = []))
      /\ List.length found <= 10
      /\ (forall u, In u found ->
            In u (db_users (pb w))
            /\ Some (user_id u) <> option_map user_id (authUser w)
            /\ exists n, index 0 query (username u) = Some n).
Proof.
  intros w query. unfold ConversationService.searchUsers. mstep.
  destruct (authUser w) as [me|] eqn:Hme.
  2:{ exists [], w. split; [reflexivity|]. split; [repeat split|].
      split; [reflexivity|]. split; [reflexivity|]. split; [reflexivity|].
      split; [intros _; split; reflexivity|].
      split; [intros Hu; contradiction|].
      split; [cbn; lia|]. intros u []. }
  destruct (truthy (trim query)) eqn:Hq; cbn [negb].
  2:{ exists [], w. split; [reflexivity|]. split; [repeat split|].
      split; [reflexivity|]. split; [reflexivity|]. split; [reflexivity|].
      split; [intros _; split; reflexivity|].
      split; [intros _ Hne; destruct (trim query); [contradiction | discriminate Hq]|].
      split; [cbn; lia|]. intros u []. }
  assert (Hne : trim query <> "") by (intros E; rewrite E in Hq; discriminate Hq).
  rewrite users_getList_run.
  destruct (hd false (db_faults (pb w))).
  - eexists; eexists. split; [reflexivity|]. split; [repeat split|].
    split; [reflexivity|]. split; [reflexivity|]. split; [reflexivity|].
    split; [intros [H|H]; [discriminate H | contradiction]|].
    split; [intros _ _; split; reflexivity|].
    split; [cbn; lia|]. intros u [].
  - eexists; eexists. split; [reflexivity|].
    split; [repeat split|]. split; [reflexivity|]. split; [reflexivity|].
    split; [reflexivity|].
    split; [intros [H|H]; [discriminate H | contradiction]|].
    split; [intros _ _; split; [reflexivity | discriminate]|].
    split; [rewrite length_map; unfold page_of; apply firstn_le_length|].
    intros u Hu. apply in_map_iff in Hu. destruct Hu as (x & <- & Hx).
    rewrite user_eta. unfold page_of in Hx. cbn [Nat.sub Nat.mul skipn] in Hx.
    apply in_firstn, filter_In in Hx. destruct Hx as [Hin Hx].
    apply andb_true_iff in Hx. destruct Hx as [Hname Hid].
    split; [exact Hin|]. split.
    + cbn. apply negb_true_iff, String.eqb_neq in Hid. congruence.
    + destruct (index 0 query (username x)) as [n|]; [exists n; reflexivity | discriminate].
Qed.

Lemma searchUsers_outcome_witness :
  exists found w',
    ConversationService.searchUsers Scenario.blank_text Scenario.friends = (Ok found, w')
    /\ found = [] /\ w' = Scenario.friends.
Proof.
  destruct (searchUsers_outcome Scenario.friends Scenario.blank_text)
    as (found & w' & Hrun & _ & _ & _ & _ & Hblank & _).
  exists found, w'. split; [exact Hrun|]. apply Hblank. right. reflexivity.
Defined.

(** X21: The participant [getOtherParticipant] answers is one of the expanded
    participants and never the local user; it answers none exactly when no
    user is signed in, the record has no expansion, or every expanded
    participant is the local user. *)
Theorem getOtherParticipant_other :
  forall (w : World) (conversation : IConversation),
    (forall p, ConversationService.getOtherParticipant conversation w = Some p ->
               exists me ps, authUser w = Some me
                             /\ conv_expand conversation = Some ps
                             /\ In p ps /\ user_id p <> user_id me)
    /\ (ConversationService.getOtherParticipant conversation w = None <->
        authUser w = None
        \/ conv_expand conversation = None
        \/ exists me ps, authUser w = Some me /\ conv_expand conversation = Some ps
                         /\ forall p, In p ps -> user_id p = user_id me).
Proof.
  intros w conversation. unfold ConversationService.getOtherParticipant.
  destruct (authUser w) as [me|].
  2:{ split; [intros p H; discriminate H|]. split; [left; reflexivity | reflexivity]. }
  destruct (conv_expand conversation) as [ps|].
  2:{ split; [intros p H; discriminate H|].
      split; [right; left; reflexivity | reflexivity]. }
  split.
  - intros p H. apply find_some in H. destruct H as [Hin H].
    apply negb_true_iff, String.eqb_neq in H.
    exists me, ps. auto.
  - split.
    + intros H. right; right. exists me, ps. split; [reflexivity|]. split; [reflexivity|].
      intros p Hp. pose proof (find_none _ _ H p Hp) as Hn. cbv beta in Hn.
      apply negb_false_iff, String.eqb_eq in Hn. exact Hn.
    + intros [H|[H|(me' & ps' & Hme & Hps & Hall)]]; try discriminate H.
      injection Hme as <-. injection Hps as <-.
      destruct (find _ ps) as [p|] eqn:Hf; [|reflexivity].
      apply find_some in Hf. destruct Hf as [Hin Hf].
      apply negb_true_iff, String.eqb_neq in Hf. exfalso. apply Hf. exact (Hall p Hin).
Qed.

Lemma getOtherParticipant_other_witness :
  ConversationService.getOtherParticipant Scenario.chat_entry Scenario.friends
  = Some Scenario.bob
  /\ exists me ps, authUser Scenario.friends = Some me
                   /\ conv_expand Scenario.chat_entry = Some ps
                   /\ In Scenario.bob ps /\ user_id Scenario.bob <> user_id me.
Proof.
  split; [reflexivity|].
  destruct (getOtherParticipant_other Scenario.friends Scenario.chat_entry) as [H _].
  apply H. reflexivity.
Defined.

(** X22: What [getOrCreateConversation] does to the local collection.  Unless
    a user is signed in and the computed status is [friend] it throws with
    the state unchanged, before any request.  Whenever it throws, the
    message is not empty and the collection is untouched.  When it
    returns, either a stored conversation of the two users was found, one
    request was sent and the collection is untouched (the conversation
    found is not added to it); or none was stored, two requests were sent
    and the created conversation was put in front of the collection. *)
Theorem getOrCreateConversation_local_state :
  forall (w : World) (otherUserId : string),
    ((authUser w = None
      \/ status_type (RelationService.getRelationStatus otherUserId w) <> friend) ->
     exists e, ConversationService.getOrCreateConversation otherUserId w = (Throw e, w))
    /\ (forall e w',
          ConversationService.getOrCreateConversation otherUserId w = (Throw e, w') ->
          message e <> ""
          /\ conversationsSignal (conversationService w')
             = conversationsSignal (conversationService w)
          /\ (w' = w \/ conv_errorSignal (conversationService w') = Some (message e)))
    /\ (forall c w',
          ConversationService.getOrCreateConversation otherUserId w = (Ok c, w') ->
          exists me,
            authUser w = Some me
            /\ includes (user_id me) (participants c) = true
            /\ includes otherUserId (participants c) = true
            /\ conv_errorSignal (conversationService w')
               = conv_errorSignal (conversationService w)
            /\ ((existsb (pair_filter (user_id me) otherUserId) (db_conversations (pb w))
                 = true
                 /\ conversationsSignal (conversationService w')
                    = conversationsSignal (conversationService w)
                 /\ db_log (pb w') = db_log (pb w) ++ [GetList Conversations])
                \/ (existsb (pair_filter (user_id me) otherUserId)
                            (db_conversations (pb w)) = false
                    /\ participants c = [user_id me; otherUserId]
                    /\ conversationsSignal (conversationService w')
                       = c :: conversationsSignal (conversationService w)
                    /\ db_log (pb w')
                       = db_log (pb w) ++ [GetList Conversations; Create Conversations]))).
Proof.
  intros w otherUserId.
  unfold ConversationService.getOrCreateConversation. mstep.
  destruct (authUser w) as [me|] eqn:Hme.
  2:{ split; [intros _; eexists; reflexivity|]. split.
      - intros e w' H. injection H as <- <-. split; [discriminate|].
        split; [reflexivity | left; reflexivity].
      - intros c w' H. discriminate H. }
  destruct (type_eqb _ friend) eqn:Hst; cbn [negb].
  2:{ split; [intros _; eexists; reflexivity|]. split.
      - intros e w' H. injection H as <- <-. split; [discriminate|].
        split; [reflexivity | left; reflexivity].
      - intros c w' H. discriminate H. }
  apply type_eqb_eq in Hst.
  split.
  { intros [H|H]; [discriminate H | contradiction]. }
  rewrite conversations_getList_run.
  unfold ConversationService.errorSignal_set. mstep.
  destruct (hd false (db_faults (pb w))) eqn:Hf.
  { split.
    - intros e w' H. injection H as <- <-. split; [discriminate|].
      split; [reflexivity | right; reflexivity].
    - intros c w' H. discriminate H. }
  unfold listed_conversations, page_of, sort_by. cbn [Nat.sub Nat.mul skipn].
  fold (pair_filter (user_id me) otherUserId).
  destruct (filter (pair_filter (user_id me) otherUserId) (db_conversations (pb w)))
    as [|c0 rest] eqn:Hfl; cbn [firstn map].
  - assert (Hex : existsb (pair_filter (user_id me) otherUserId) (db_conversations (pb w))
                  = false).
    { destruct (existsb _ _) eqn:E; [|reflexivity].
      apply existsb_exists in E. destruct E as (x & Hx & Hp).
      assert (In x []) as [].
      rewrite <- Hfl. apply filter_In. split; assumption. }
    rewrite conversations_create_run.
    cbn [pb with_pb arrive db_faults].
    destruct (hd false (tl (db_faults (pb w)))).
    { split.
      - intros e w' H. injection H as <- <-. split; [discriminate|].
        split; [reflexivity | right; reflexivity].
      - intros c w' H. discriminate H. }
    cbv zeta. split; [intros e w' H; discriminate H|].
    intros c w' H. injection H as <- <-.
    exists me. split; [reflexivity|]. cbn [expand_conversation participants].
    rewrite includes_head, includes_second.
    split; [reflexivity|]. split; [reflexivity|]. split; [reflexivity|].
    right. split; [exact Hex|]. split; [reflexivity|]. split; [reflexivity|].
    cbn. rewrite <- app_assoc. reflexivity.
  - split; [intros e w' H; discriminate H|].
    intros c w' H. injection H as <- <-.
    assert (Hin : In c0 (filter (pair_filter (user_id me) otherUserId)
                                (db_conversations (pb w)))).
    { rewrite Hfl. left. reflexivity. }
    apply filter_In in Hin. destruct Hin as [Hin Hp].
    exists me. split; [reflexivity|]. cbn [expand_conversation participants].
    unfold pair_filter in Hp. apply andb_true_iff in Hp. destruct Hp as [Hp1 Hp2].
    split; [exact Hp1|]. split; [exact Hp2|]. split; [reflexivity|].
    left. split; [|split; reflexivity].
    apply existsb_exists. exists c0. split; [exact Hin|].
    unfold pair_filter. rewrite Hp1, Hp2. reflexivity.
Qed.

Lemma getOrCreateConversation_local_state_witness :
  exists e, ConversationService.getOrCreateConversation "U1" Scenario.pending
            = (Throw e, Scenario.pending).
Proof.
  destruct (getOrCreateConversation_local_state Scenario.pending "U1") as [H _].
  apply H. right. discriminate.
Defined.

(** ** File names *)

Lemma split_nonempty (sep : ascii) (s : string) : split sep s <> [].
Proof.
  destruct s as [|c t]; cbn; [discriminate|].
  destruct (Ascii.eqb c sep); [discriminate|].
  destruct (split sep t); discriminate.
Qed.

Lemma split_no_sep (sep : ascii) (s : string) :
  ~ In sep (list_ascii_of_string s) -> split sep s = [s].
Proof.
  induction s as [|c t IH]; intros Hno; [reflexivity|].
  cbn in Hno. cbn [split].
  destruct (Ascii.eqb c sep) eqn:E.
  - apply Ascii.eqb_eq in E. exfalso. apply Hno. left. exact E.
  - rewrite IH; [reflexivity|]. intros H. apply Hno. right. exact H.
Qed.

Lemma split_app (sep : ascii) (a b : string) :
  split sep (a ++ String sep b)%string = split sep a ++ split sep b.
Proof.
  induction a as [|c t IH].
  - cbn. rewrite Ascii.eqb_refl. reflexivity.
  - cbn [String.append split]. rewrite IH.
    destruct (Ascii.eqb c sep); [reflexivity|].
    destruct (split sep t) as [|p ps] eqn:Ht; [|reflexivity].
    exfalso. exact (split_nonempty sep t Ht).
Qed.

Lemma last_app_nonempty {A} (l k : list A) (d : A) : k <> [] -> last (l ++ k) d = last k d.
Proof.
  intros Hk. induction l as [|x l IH]; [reflexivity|].
  cbn [app]. destruct (l ++ k) eqn:E.
  - destruct l; [contradiction | discriminate E].
  - cbn [last]. exact IH.
Qed.

(** X23: The extension is what follows the last dot, in lower case: for a
    name [stem.ext] whose [ext] is made of ASCII characters and has no dot
    it is [ext] lowered, whatever the stem is, dots and other characters
    included, and also when the stem is empty; a name without a dot has the
    empty extension, and so has a name ending in a dot. *)
Theorem getFileExtension_last_part :
  forall (stem ext name : string),
    (ascii_only ext ->
     ~ In "."%char (list_ascii_of_string ext) ->
     getFileExtension (stem ++ String "."%char ext) = toLowerCase ext)
    /\ (~ In "."%char (list_ascii_of_string name) -> getFileExtension name = "")
    /\ getFileExtension (stem ++ ".") = "".
Proof.
  intros stem ext name.
  assert (Hext : forall x, ~ In "."%char (list_ascii_of_string x) ->
                           getFileExtension (stem ++ String "."%char x) = toLowerCase x).
  { intros x Hno. unfold getFileExtension. cbv zeta.
    rewrite split_app, (split_no_sep _ x Hno).
    rewrite last_app_nonempty by discriminate. cbn [last].
    rewrite length_app. cbn [List.length].
    assert (Hlen : List.length (split "."%char stem) <> 0).
    { pose proof (split_nonempty "."%char stem). destruct (split _ stem);
        [contradiction | discriminate]. }
    destruct (1 <? _)%nat eqn:E; [reflexivity|].
    apply Nat.ltb_ge in E. lia. }
  split; [intros _; exact (Hext ext)|]. split.
  - intros Hno. unfold getFileExtension. cbv zeta.
    rewrite (split_no_sep _ name Hno). reflexivity.
  - change (stem ++ ".")%string with (stem ++ String "."%char "")%string.
    rewrite Hext; [reflexivity|]. intros [].
Qed.

Lemma getFileExtension_last_part_witness :
  getFileExtension "archive.tar.GZ" = "gz" /\ getFileExtension "README" = "".
Proof.
  destruct (getFileExtension_last_part "archive.tar" "GZ" "README") as (H1 & H2 & _).
  split.
  - apply H1.
    + intros c [<-|[<-|[]]]; apply Nat.ltb_lt; reflexivity.
    + cbn. intros [H|[H|[]]]; discriminate H.
  - apply H2. cbn. intuition discriminate.
Defined.

(** X24: No image extension is a video or audio extension, and the one
    extension taken both for video and for audio is [ogg]. *)
Theorem file_kinds_overlap_on_ogg :
  forall (fileName : string),
    (isImageFile fileName = true ->
     isVideoFile fileName = false /\ isAudioFile fileName = false)
    /\ (isVideoFile fileName = true /\ isAudioFile fileName = true
        <-> getFileExtension fileName = "ogg").
Proof.
  intros fileName. unfold isImageFile, isVideoFile, isAudioFile, includes.
  generalize (getFileExtension fileName). intros e.
  cbn [existsb].
  split.
  - intros H.
    repeat (apply orb_true_iff in H; destruct H as [H|H]);
      try discriminate H; apply String.eqb_eq in H; subst e; split; reflexivity.
  - split.
    + intros [Hv Ha].
      repeat (apply orb_true_iff in Hv; destruct Hv as [Hv|Hv]);
        try discriminate Hv; apply String.eqb_eq in Hv; subst e;
        first [reflexivity | discriminate Ha].
    + intros ->. split; reflexivity.
Qed.

Lemma file_kinds_overlap_on_ogg_witness :
  isVideoFile "clip.OGG" = true /\ isAudioFile "clip.OGG" = true
  /\ isVideoFile "photo.png" = false.
Proof.
  destruct (file_kinds_overlap_on_ogg "clip.OGG") as [_ [_ H]].
  destruct (H eq_refl) as [Hv Ha]. split; [exact Hv|]. split; [exact Ha|].
  destruct (file_kinds_overlap_on_ogg "photo.png") as [H' _].
  apply H'. reflexivity.
Defined.

Lemma lower_idempotent (c : ascii) : lower (lower c) = lower c.
Proof. destruct c as [[] [] [] [] [] [] [] []]; reflexivity. Qed.

Lemma lower_dot (c : ascii) : Ascii.eqb (lower c) "."%char = Ascii.eqb c "."%char.
Proof. destruct c as [[] [] [] [] [] [] [] []]; reflexivity. Qed.

Lemma toLowerCase_idempotent (s : string) : toLowerCase (toLowerCase s) = toLowerCase s.
Proof.
  induction s as [|c t IH]; [reflexivity|].
  cbn. rewrite lower_idempotent, IH. reflexivity.
Qed.

Lemma split_toLowerCase (s : string) :
  split "."%char (toLowerCase s) = map toLowerCase (split "."%char s).
Proof.
  induction s as [|c t IH]; [reflexivity|].
  cbn [toLowerCase split]. rewrite lower_dot, IH.
  destruct (Ascii.eqb c "."%char); [reflexivity|].
  destruct (split "."%char t); reflexivity.
Qed.

Lemma last_map_toLowerCase (l : list string) :
  last (map toLowerCase l) "" = toLowerCase (last l "").
Proof.
  induction l as [|x l IH]; [reflexivity|].
  cbn [map]. destruct l as [|y l]; [reflexivity|].
  cbn [map last] in *. exact IH.
Qed.

(** X25: Letter case does not matter: a name and its lower-case form have the
    same extension, the same classification as image, video or audio and
    the same icon. *)
Theorem file_utils_ignore_case :
  forall (fileName : string) (fileType : option FileType),
    getFileExtension (toLowerCase fileName) = getFileExtension fileName
    /\ isImageFile (toLowerCase fileName) = isImageFile fileName
    /\ isVideoFile (toLowerCase fileName) = isVideoFile fileName
    /\ isAudioFile (toLowerCase fileName) = isAudioFile fileName
    /\ getFileIcon fileType (Some (toLowerCase fileName))
       = getFileIcon fileType (Some fileName).
Proof.
  intros fileName fileType.
  assert (Hext : getFileExtension (toLowerCase fileName) = getFileExtension fileName).
  { unfold getFileExtension. cbv zeta.
    rewrite split_toLowerCase, length_map, last_map_toLowerCase, toLowerCase_idempotent.
    reflexivity. }
  unfold isImageFile, isVideoFile, isAudioFile. rewrite Hext.
  repeat (split; [reflexivity|]).
  unfold getFileIcon. destruct fileType as [[]|]; try reflexivity.
  unfold getDocumentIcon. rewrite toLowerCase_idempotent.
  destruct fileName; reflexivity.
Qed.

(** ** Removing a friend known by the incoming edge only *)

Lemma find_strengthen {A} (p q : A -> bool) (l : list A) (x : A) :
  find p l = Some x -> q x = true -> find (fun r => p r && q r) l = Some x.
Proof.
  intros Hf Hq. induction l as [|y l IH]; [discriminate Hf|].
  cbn in Hf |- *. destruct (p y) eqn:Hp.
  - injection Hf as ->. rewrite Hq. reflexivity.
  - cbn. exact (IH Hf).
Qed.

Lemma existsb_filter_out (i : string) (l : list IRelation) :
  existsb (fun r => rel_id r =? i) (filter (fun x => negb (rel_id x =? i)) l) = false.
Proof.
  induction l as [|x l IH]; [reflexivity|].
  cbn [filter]. destruct (rel_id x =? i) eqn:E; cbn [negb]; [exact IH|].
  cbn [existsb]. rewrite E, IH. reflexivity.
Qed.

(** X26: When the friendship is known to the local user by the incoming edge
    only (the status is [friend], not initiated by me, as after an accept
    whose second write failed), [removeFriend] always throws: the edge of
    the status is also the reciprocal edge it looks up, so it is deleted
    twice and the second deletion is refused.  The collection is not
    updated and the status still reads [friend], although the record is
    gone from the stored relations when the first deletion went through. *)
Theorem removeFriend_incoming_only :
  forall (w : World) (me : IAuthUser) (targetUserId : string) (inc : IRelation),
    authUser w = Some me ->
    find (fun r => (from_user r =? user_id me) && (to_user r =? targetUserId))
         (relationsSignal (relationService w)) = None ->
    find (fun r => (from_user r =? targetUserId) && (to_user r =? user_id me))
         (relationsSignal (relationService w)) = Some inc ->
    rel_type inc = friend ->
    exists e w',
      RelationService.removeFriend targetUserId w = (Throw e, w')
      /\ relationsSignal (relationService w') = relationsSignal (relationService w)
      /\ RelationService.areFriends targetUserId w' = true
      /\ rel_errorSignal (relationService w') = Some (message e)
      /\ (hd false (db_faults (pb w)) = false ->
          existsb (fun r => rel_id r =? rel_id inc) (db_relations (pb w)) = true ->
          db_relations (pb w')
          = filter (fun r => negb (rel_id r =? rel_id inc)) (db_relations (pb w))
          /\ db_log (pb w')
             = db_log (pb w) ++ [Delete Relations (rel_id inc);
                                 Delete Relations (rel_id inc)]).
Proof.
  intros w me targetUserId inc Hme Hout Hinc Hty.
  assert (Hst : RelationService.getRelationStatus targetUserId w
                = mkStatus friend false (Some inc)).
  { unfold RelationService.getRelationStatus. rewrite Hme.
    unfold RelationService.statusIn. rewrite Hout, Hinc, Hty. reflexivity. }
  assert (Hfriends : forall w', authUser w' = authUser w ->
                                relationsSignal (relationService w')
                                = relationsSignal (relationService w) ->
                                RelationService.areFriends targetUserId w' = true).
  { intros w' Hu Hr. unfold RelationService.areFriends, RelationService.getRelationStatus.
    rewrite Hu, Hme, Hr. unfold RelationService.statusIn. rewrite Hout, Hinc, Hty.
    reflexivity. }
  unfold RelationService.removeFriend. mstep. rewrite Hme, Hst.
  cbn [relation status_type type_eqb RelationType_eqb negb].
  unfold RelationService.rethrow, RelationService.errorSignal_set, handleError. mstep.
  rewrite relations_delete_run.
  destruct (hd false (db_faults (pb w))).
  { eexists; eexists. split; [reflexivity|]. split; [reflexivity|].
    split; [apply Hfriends; reflexivity|]. split; [reflexivity|]. discriminate. }
  destruct (existsb _ (db_relations (pb w))) eqn:Hex.
  2:{ eexists; eexists. split; [reflexivity|]. split; [reflexivity|].
      split; [apply Hfriends; reflexivity|]. split; [reflexivity|].
      intros _ H. discriminate H. }
  cbn [relationService with_pb relationsSignal].
  rewrite (find_strengthen _ (fun r => RelationType_eqb (rel_type r) friend) _ inc Hinc)
    by (rewrite Hty; reflexivity).
  rewrite relations_delete_run.
  cbn [pb with_pb arrive tick set_db_relations db_faults db_relations hd].
  rewrite existsb_filter_out.
  destruct (hd false (tl (db_faults (pb w)))).
  - eexists; eexists. split; [reflexivity|]. split; [reflexivity|].
    split; [apply Hfriends; reflexivity|]. split; [reflexivity|].
    intros _ _. split; [reflexivity|]. cbn. rewrite <- app_assoc. reflexivity.
  - eexists; eexists. split; [reflexivity|]. split; [reflexivity|].
    split; [apply Hfriends; reflexivity|]. split; [reflexivity|].
    intros _ _. split; [reflexivity|]. cbn. rewrite <- app_assoc. reflexivity.
Qed.

Lemma removeFriend_incoming_only_witness :
  exists e w',
    RelationService.removeFriend "U2"
      (Scenario.world Scenario.alice [Scenario.friend_edge "r2" "U2" "U1"] []
                      [Scenario.friend_edge "r2" "U2" "U1"] [])
    = (Throw e, w')
    /\ relationsSignal (relationService w') = [Scenario.friend_edge "r2" "U2" "U1"]
    /\ db_relations (pb w') = [].
Proof.
  destruct (removeFriend_incoming_only
              (Scenario.world Scenario.alice [Scenario.friend_edge "r2" "U2" "U1"] []
                              [Scenario.friend_edge "r2" "U2" "U1"] [])
              Scenario.alice "U2" (Scenario.friend_edge "r2" "U2" "U1")
              eq_refl eq_refl eq_refl eq_refl)
    as (e & w' & Hrun & Hrels & _ & _ & Hdb).
  exists e, w'. split; [exact Hrun|]. split; [exact Hrels|].
  destruct (Hdb eq_refl eq_refl) as [H _]. exact H.
Defined.

(** ** Removing a friend *)

(** X27: [removeFriend] throws with the state unchanged unless the status is
    [friend].  When it returns, the status was [friend] by the local
    user's own edge; that edge is gone from the stored relations; nothing
    was added to the stored relations or to the collection; and, with at
    most one record per ordered pair in the collection, the two users are
    no longer friends for the local user. *)
Theorem removeFriend_effect :
  forall (w : World) (targetUserId : string),
    (status_type (RelationService.getRelationStatus targetUserId w) <> friend ->
     exists e, RelationService.removeFriend targetUserId w = (Throw e, w))
    /\ (forall w',
          RelationService.removeFriend targetUserId w = (Ok tt, w') ->
          exists out,
            RelationService.getRelationStatus targetUserId w
            = mkStatus friend true (Some out)
            /\ (forall s, In s (db_relations (pb w')) ->
                          In s (db_relations (pb w)) /\ rel_id s <> rel_id out)
            /\ (forall r, In r (relationsSignal (relationService w')) ->
                          In r (relationsSignal (relationService w)))
            /\ (one_per_pair (relationsSignal (relationService w)) ->
                RelationService.areFriends targetUserId w' = false)).
Proof.
  intros w targetUserId. unfold RelationService.removeFriend. mstep.
  destruct (authUser w) as [me|] eqn:Hme.
  2:{ split; [intros _; eexists; reflexivity | intros w' H; discriminate H]. }
  destruct (RelationService.getRelationStatus targetUserId w) as [ty init [rel|]] eqn:Hst;
    cbn [relation status_type].
  2:{ split; [intros _; eexists; reflexivity | intros w' H; discriminate H]. }
  destruct (type_eqb ty friend) eqn:Hty; cbn [negb].
  2:{ split; [intros _; eexists; reflexivity | intros w' H; discriminate H]. }
  apply type_eqb_eq in Hty. subst ty.
  split; [intros H; contradiction|].
  intros w'.
  unfold RelationService.rethrow, RelationService.errorSignal_set, handleError. mstep.
  rewrite relations_delete_run.
  destruct (hd false (db_faults (pb w))); [intros H; discriminate H|].
  destruct (existsb _ (db_relations (pb w))); [|intros H; discriminate H].
  cbn [relationService with_pb relationsSignal].
  destruct init.
  2:{ (* the status comes from the incoming edge: the second deletion is refused *)
    assert (Hinit : isInitiatedByMe (RelationService.getRelationStatus targetUserId w) = false)
      by (rewrite Hst; reflexivity).
    assert (Hnot : status_type (RelationService.getRelationStatus targetUserId w)
                   <> no_relation) by (rewrite Hst; discriminate).
    destruct (status_from_incoming w me targetUserId Hme Hinit Hnot)
      as (_ & inc & Hinc & Hst').
    rewrite Hst in Hst'. injection Hst' as Has Hrel. subst inc.
    assert (Hfr : rel_type rel = friend).
    { destruct (rel_type rel); cbn in Has; try discriminate Has; reflexivity. }
    rewrite (find_strengthen _ (fun r => RelationType_eqb (rel_type r) friend) _ rel Hinc)
      by (rewrite Hfr; reflexivity).
    rewrite relations_delete_run.
    cbn [pb with_pb arrive tick set_db_relations db_faults db_relations hd].
    rewrite existsb_filter_out.
    destruct (hd false (tl (db_faults (pb w)))); intros H; discriminate H. }
  (* the status comes from the local user's own edge *)
  assert (Hout : In rel (relationsSignal (relationService w))
                 /\ edge (user_id me) targetUserId rel /\ rel_type rel = friend).
  { destruct (getRelationStatus_trichotomy w me targetUserId Hme)
      as [(x & Hin & He & Hx)|[(_ & x & _ & _ & Hx)|(_ & _ & Hx)]];
      cbv zeta in Hx; rewrite Hst in Hx; try discriminate Hx.
    injection Hx as Ht Hr. subst x. split; [exact Hin|]. split; [exact He|].
    congruence. }
  destruct Hout as (Hin & He & Hfr).
  set (rels := relationsSignal (relationService w)) in *.
  destruct (find (fun r => (from_user r =? targetUserId) && (to_user r =? user_id me)
                           && RelationType_eqb (rel_type r) friend) rels)
    as [rc|] eqn:Hrc.
  - rewrite relations_delete_run.
    cbn [pb with_pb arrive tick set_db_relations db_faults db_relations hd].
    destruct (hd false (tl (db_faults (pb w)))); [intros H; discriminate H|].
    destruct (existsb _ (filter _ (db_relations (pb w)))); [|intros H; discriminate H].
    intros H. injection H as <-.
    exists rel. split; [reflexivity|].
    cbn [pb with_pb with_relationService relationService relationsSignal set_relations
         tick set_db_relations arrive db_relations].
    split.
    { intros s Hs. apply filter_In in Hs. destruct Hs as [Hs _].
      apply filter_In in Hs. destruct Hs as [Hs Hne].
      split; [exact Hs|]. apply negb_true_iff, String.eqb_neq in Hne. exact Hne. }
    split.
    { intros r Hr. apply filter_In in Hr. exact (proj1 Hr). }
    intros Huniq. unfold RelationService.areFriends.
    apply find_some in Hrc. destruct Hrc as [Hrcin Hrc].
    apply andb_true_iff in Hrc. destruct Hrc as [Hrc Hrcfr].
    apply andb_true_iff in Hrc. destruct Hrc as [Hrcf Hrct].
    apply String.eqb_eq in Hrcf, Hrct. apply RelationType_eqb_eq in Hrcfr.
    match goal with |- context [RelationService.getRelationStatus _ ?v] => set (w1 := v) end.
    assert (Hme1 : authUser w1 = Some me) by exact Hme.
    rewrite (status_without_edges w1 me targetUserId Hme1); [reflexivity|].
    subst w1. cbn [relationService with_relationService relationsSignal set_relations].
    fold rels. fold (friendship_removed rel rc rels).
    apply (friendship_removed_clean (user_id me) targetUserId rel rc rels Huniq
             Hin He Hfr Hrcin (conj Hrcf Hrct) Hrcfr).
  - intros H. injection H as <-.
    exists rel. split; [reflexivity|].
    cbn [pb with_pb with_relationService relationService relationsSignal set_relations
         tick set_db_relations arrive db_relations].
    split.
    { intros s Hs. apply filter_In in Hs. destruct Hs as [Hs Hne].
      split; [exact Hs|]. apply negb_true_iff, String.eqb_neq in Hne. exact Hne. }
    split.
    { intros r Hr. apply filter_In in Hr. exact (proj1 Hr). }
    intros Huniq. unfold RelationService.areFriends.
    match goal with |- context [RelationService.getRelationStatus _ ?v] => set (w1 := v) end.
    assert (Hme1 : authUser w1 = Some me) by exact Hme.
    destruct (getRelationStatus_trichotomy w1 me targetUserId Hme1)
      as [(x & Hx & Hxe & Hxs)|[(_ & x & Hx & Hxe & Hxs)|(_ & _ & Hxs)]];
      cbv zeta in Hxs; rewrite Hxs; cbn [status_type].
    + exfalso. subst w1.
      cbn [relationService with_relationService relationsSignal set_relations] in Hx.
      fold rels in Hx. apply filter_In in Hx. destruct Hx as [Hx Hkeep].
      assert (x = rel).
      { destruct Hxe as [Hxf Hxt]. destruct He as [Hf Ht].
        apply Huniq; [exact Hx | exact Hin | congruence | congruence]. }
      subst x. rewrite String.eqb_refl, Hfr in Hkeep. discriminate Hkeep.
    + subst w1.
      cbn [relationService with_relationService relationsSignal set_relations] in Hx.
      fold rels in Hx. apply filter_In in Hx. destruct Hx as [Hx _].
      destruct (rel_type x) eqn:Hxt; try reflexivity.
      exfalso. pose proof (find_none _ _ Hrc x Hx) as Hn. cbv beta in Hn.
      destruct Hxe as [Hxf Hxto]. rewrite Hxf, Hxto, !String.eqb_refl, Hxt in Hn.
      discriminate Hn.
    + reflexivity.
Qed.

Lemma removeFriend_effect_witness :
  (exists e, RelationService.removeFriend "U1" Scenario.pending
             = (Throw e, Scenario.pending))
  /\ (exists w', RelationService.removeFriend "U2" Scenario.friends = (Ok tt, w')
                 /\ RelationService.areFriends "U2" w' = false).
Proof.
  split.
  - destruct (removeFriend_effect Scenario.pending "U1") as [H _].
    apply H. discriminate.
  - destruct (RelationService.removeFriend "U2" Scenario.friends) as [[[]|e] w'] eqn:Hrun;
      [|vm_compute in Hrun; discriminate Hrun].
    exists w'. split; [reflexivity|].
    destruct (removeFriend_effect Scenario.friends "U2") as [_ H].
    destruct (H w' Hrun) as (out & _ & _ & _ & Hafter).
    apply Hafter. exact friend_edges_one_per_pair.
Defined.

(** ** Deleting and editing a message *)

Lemma messages_delete_run i (w : World) :
  messages_collection.delete i w =
  if hd false (db_faults (pb w))
  then (Throw transportFailure, with_pb (arrive (Delete Messages i)) w)
  else if existsb (fun m => msg_id m =? i) (db_messages (pb w))
       then (Ok tt,
             with_pb (fun d =>
               tick (set_db_messages
                       (filter (fun x => negb (msg_id x =? i)) (db_messages d)) d))
               (with_pb (arrive (Delete Messages i)) w))
       else (Throw notFound, with_pb (arrive (Delete Messages i)) w).
Proof.
  unfold messages_collection.delete. mstep. rewrite request_run.
  destruct (hd false (db_faults (pb w))); [reflexivity|].
  cbn. destruct (existsb _ _); reflexivity.
Qed.

Lemma messages_update_run i t (w : World) :
  messages_collection.update i t w =
  if hd false (db_faults (pb w))
  then (Throw transportFailure, with_pb (arrive (Update Messages i)) w)
  else match find (fun m => msg_id m =? i) (db_messages (pb w)) with
       | Some m =>
           let upd := fun x : IMessage =>
             mkMessage (msg_id x) (Some t) (msg_user x) (msg_conversation x)
                       (msg_file x) (msg_fileType x) (msg_fileName x) (msg_fileSize x)
                       (msg_thumbnail x) (msg_created x) (db_clock (pb w)) (msg_expand x)
                       (msg_collectionId x) (msg_collectionName x) in
           (Ok (upd m),
            with_pb (fun d =>
              tick (set_db_messages
                      (map (fun x => if msg_id x =? i then upd x else x) (db_messages d)) d))
              (with_pb (arrive (Update Messages i)) w))
       | None => (Throw notFound, with_pb (arrive (Update Messages i)) w)
       end.
Proof.
  unfold messages_collection.update. mstep. rewrite request_run.
  destruct (hd false (db_faults (pb w))); [reflexivity|].
  cbn. destruct (find _ _); reflexivity.
Qed.

(** X28: [deleteMessage] and [updateMessage] send one request and never write
    the local message list: the change reaches it by the real-time event.
    A deletion that returns has removed the stored messages with that
    identifier; an edit that returns has stored the trimmed text, blank or
    not, under the same identifier, author and creation stamp, and no
    stored message was added or dropped.  When either throws, the stored
    messages are as before, the message of the error is not empty and the
    error signal holds it. *)
Theorem deleteMessage_updateMessage_effect :
  forall (w : World) (messageId text : string),
    (forall w',
        ChatService.deleteMessage messageId w = (Ok tt, w') ->
        existsb (fun m => msg_id m =? messageId) (db_messages (pb w)) = true
        /\ db_messages (pb w')
           = filter (fun m => negb (msg_id m =? messageId)) (db_messages (pb w))
        /\ db_log (pb w') = db_log (pb w) ++ [Delete Messages messageId]
        /\ chatService w' = chatService w)
    /\ (forall m w',
          ChatService.updateMessage messageId text w = (Ok m, w') ->
          msg_id m = messageId /\ msg_text m = Some (trim text)
          /\ In m (db_messages (pb w'))
          /\ map msg_id (db_messages (pb w')) = map msg_id (db_messages (pb w))
          /\ map msg_user (db_messages (pb w')) = map msg_user (db_messages (pb w))
          /\ map msg_created (db_messages (pb w')) = map msg_created (db_messages (pb w))
          /\ db_log (pb w') = db_log (pb w) ++ [Update Messages messageId]
          /\ chatService w' = chatService w)
    /\ (forall e w',
          ChatService.deleteMessage messageId w = (Throw e, w')
          \/ ChatService.updateMessage messageId text w = (Throw e, w') ->
          db_messages (pb w') = db_messages (pb w)
          /\ messagesSignal (chatService w') = messagesSignal (chatService w)
          /\ message e <> ""
          /\ chat_errorSignal (chatService w') = Some (message e)).
Proof.
  intros w messageId text.
  unfold ChatService.deleteMessage, ChatService.updateMessage,
    ChatService.errorSignal_set, handleError.
  mstep. rewrite messages_delete_run, messages_update_run.
  destruct (hd false (db_faults (pb w))).
  { split; [intros w' H; discriminate H|]. split; [intros m w' H; discriminate H|].
    intros e w' [H|H]; injection H as <- <-; cbn; repeat split; discriminate. }
  split; [|split].
  - destruct (existsb _ (db_messages (pb w))); intros w' H; [|discriminate H].
    injection H as <-. cbn. repeat split.
  - destruct (find _ (db_messages (pb w))) as [m0|] eqn:Hm0; intros m w' H;
      [|discriminate H].
    cbv zeta in H. injection H as <- <-.
    apply find_some in Hm0. destruct Hm0 as [Hin Hid]. apply String.eqb_eq in Hid.
    cbn [msg_id msg_text pb with_pb tick set_db_messages arrive db_messages db_log
         chatService].
    split; [exact Hid|]. split; [reflexivity|].
    split.
    { apply in_map_iff. exists m0. rewrite Hid, String.eqb_refl. split; [reflexivity|exact Hin]. }
    split; [rewrite map_map; apply map_ext; intros x;
            destruct (msg_id x =? messageId); reflexivity|].
    split; [rewrite map_map; apply map_ext; intros x;
            destruct (msg_id x =? messageId); reflexivity|].
    split; [rewrite map_map; apply map_ext; intros x;
            destruct (msg_id x =? messageId); reflexivity|].
    split; reflexivity.
  - intros e w' [H|H].
    + destruct (existsb _ (db_messages (pb w))); [discriminate H|].
      injection H as <- <-. cbn. repeat split; discriminate.
    + destruct (find _ (db_messages (pb w))); [discriminate H|].
      injection H as <- <-. cbn. repeat split; discriminate.
Qed.

Lemma deleteMessage_updateMessage_effect_witness :
  exists m w',
    ChatService.updateMessage "m2" Scenario.padded_text Scenario.chat_history = (Ok m, w')
    /\ msg_text m = Some "ok"
    /\ In m (db_messages (pb w')).
Proof.
  destruct (ChatService.updateMessage "m2" Scenario.padded_text Scenario.chat_history)
    as [[m|e] w'] eqn:Hrun; [|vm_compute in Hrun; discriminate Hrun].
  destruct (deleteMessage_updateMessage_effect Scenario.chat_history "m2"
              Scenario.padded_text) as (_ & H & _).
  destruct (H m w' Hrun) as (_ & Htext & Hin & _).
  exists m, w'. split; [reflexivity|]. split; [exact Htext | exact Hin].
Defined.

(** ** The status in memory and the status in the backend *)

Lemma firstn_1_filter {A} (p : A -> bool) (l : list A) :
  firstn 1 (filter p l) = match find p l with Some x => [x] | None => [] end.
Proof.
  induction l as [|x l IH]; [reflexivity|].
  cbn [filter find]. destruct (p x); [reflexivity | exact IH].
Qed.

(** A one-record list request without sort key or expansion answers the
    first stored record that passes the filter. *)
Lemma listed_first f (b : Backend) :
  listed_relations f None 1 1 false b
  = match find f (db_relations b) with Some x => [x] | None => [] end.
Proof.
  unfold listed_relations, page_of, sort_by. cbn [Nat.sub Nat.mul skipn with_expand].
  rewrite map_id. apply firstn_1_filter.
Qed.

(** In the page fetched by [fetchRelations], the edge from [a] to [c], one
    of them being the local user, is the stored edge with its expansion. *)
Lemma find_in_fetched (me a c : string) (b : Backend) :
  one_per_pair (db_relations b) ->
  fits_page me b ->
  a = me \/ c = me ->
  find (fun r => (from_user r =? a) && (to_user r =? c)) (fetched_relations me b)
  = option_map (expand_relation b)
               (find (fun r => (from_user r =? a) && (to_user r =? c)) (db_relations b)).
Proof.
  intros Huniq Hfit Hme.
  assert (Hin : forall y, In y (fetched_relations me b) <->
                          exists x, In x (db_relations b) /\ touches me x = true
                                    /\ y = expand_relation b x).
  { intros y. unfold fetched_relations.
    apply (listed_relations_in (touches me) (Some created_desc) 1000 true).
    unfold fits_page in Hfit. lia. }
  destruct (find _ (db_relations b)) as [s|] eqn:Hs; cbn [option_map].
  - apply find_edge_some in Hs. destruct Hs as [Hsin [Hsf Hst]].
    apply find_only.
    + apply Hin. exists s. split; [exact Hsin|]. split; [|reflexivity].
      unfold touches. apply orb_true_iff. rewrite !String.eqb_eq.
      destruct Hme as [<-|<-]; [left; exact Hsf | right; exact Hst].
    + cbn. rewrite Hsf, Hst, !String.eqb_refl. reflexivity.
    + intros z Hz Hp. apply Hin in Hz. destruct Hz as (x & Hx & _ & ->).
      cbn in Hp. apply andb_true_iff in Hp. destruct Hp as [H1 H2].
      apply String.eqb_eq in H1, H2.
      f_equal. apply Huniq; [exact Hx | exact Hsin | congruence | congruence].
  - destruct (find _ (fetched_relations me b)) as [z|] eqn:Hz; [|reflexivity].
    exfalso. apply find_edge_some in Hz. destruct Hz as [Hzin [Hzf Hzt]].
    apply Hin in Hzin. destruct Hzin as (x & Hx & _ & ->).
    apply (find_edge_none _ _ _ Hs x Hx). split; assumption.
Qed.

(** X29: Right after a fetch that got all of the local user's relations, the
    status computed in memory and the status read from the backend agree
    on the kind, on who initiated and on the record, for every user:
    provided the backend holds at most one record per ordered pair and the
    two queries are not failed by the transport. *)
Theorem fetched_status_agrees_with_db :
  forall (w : World) (me : IAuthUser) (userId : string),
    authUser w = Some me ->
    one_per_pair (db_relations (pb w)) ->
    fits_page (user_id me) (pb w) ->
    relationsSignal (relationService w) = fetched_relations (user_id me) (pb w) ->
    hd false (db_faults (pb w)) = false ->
    hd false (tl (db_faults (pb w))) = false ->
    exists st,
      fst (RelationService.getRelationStatusFromDB userId w) = Ok st
      /\ status_type st = status_type (RelationService.getRelationStatus userId w)
      /\ isInitiatedByMe st
         = isInitiatedByMe (RelationService.getRelationStatus userId w)
      /\ option_map rel_id (relation st)
         = option_map rel_id (relation (RelationService.getRelationStatus userId w)).
Proof.
  intros w me userId Hme Huniq Hfit Hrels Hf1 Hf2.
  unfold RelationService.getRelationStatus, RelationService.statusIn.
  rewrite Hme, Hrels.
  rewrite (find_in_fetched (user_id me) (user_id me) userId (pb w) Huniq Hfit)
    by (left; reflexivity).
  rewrite (find_in_fetched (user_id me) userId (user_id me) (pb w) Huniq Hfit)
    by (right; reflexivity).
  unfold RelationService.getRelationStatusFromDB. mstep. rewrite Hme.
  rewrite relations_getList_run, Hf1, listed_first.
  destruct (find (fun r => (from_user r =? user_id me) && (to_user r =? userId))
                 (db_relations (pb w))) as [out|]; cbn [option_map].
  - eexists. split; [reflexivity|]. repeat split.
  - rewrite relations_getList_run.
    cbn [pb with_pb arrive db_faults]. rewrite Hf2, listed_first.
    cbn [arrive db_relations].
    destruct (find (fun r => (from_user r =? userId) && (to_user r =? user_id me))
                   (db_relations (pb w))) as [inc|]; cbn [option_map].
    + eexists. split; [reflexivity|]. repeat split.
    + eexists. split; [reflexivity|]. repeat split.
Qed.

Lemma fetched_status_agrees_with_db_witness :
  exists st,
    fst (RelationService.getRelationStatusFromDB "U1"
           (Scenario.world Scenario.bob
              (fetched_relations "U2" (pb Scenario.pending)) [] [Scenario.request_edge] []))
    = Ok st
    /\ status_type st = pending_received.
Proof.
  destruct (fetched_status_agrees_with_db
              (Scenario.world Scenario.bob
                 (fetched_relations "U2" (pb Scenario.pending)) [] [Scenario.request_edge] [])
              Scenario.bob "U1" eq_refl) as (st & Hrun & Hty & _).
  - intros r1 r2 [<-|[]] [<-|[]] _ _. reflexivity.
  - unfold fits_page. apply Nat.ltb_lt. vm_compute. reflexivity.
  - reflexivity.
  - reflexivity.
  - reflexivity.
  - exists st. split; [exact Hrun|]. rewrite Hty. reflexivity.
Defined.

(** ** The relation action button *)

(** X30: A click on a button that shows [Add Friend] (its status reads
    [no_relation]), for a signed-in user, another user and a backend that
    answers every request.  The loading flag is down afterwards.  When
    the collection holds no relation with that user and the backend stores
    no edge towards them, the request is stored and the button shows
    [Pending], with the stored record.  When the collection does hold a
    relation, as after an initial read that failed, the click does nothing:
    no request is sent, no signal is written, the button stays as it
    was. *)
Theorem handleAction_add_friend :
  forall (w : World) (me : IAuthUser) (userId : string) (s : ButtonState),
    authUser w = Some me ->
    user_id me <> userId ->
    status_type (btn_relationStatusSignal s) = no_relation ->
    db_faults (pb w) = [] ->
    let s' := fst (RelationActionButtonComponent.handleAction userId s w) in
    let w' := snd (RelationActionButtonComponent.handleAction userId s w) in
    btn_isLoadingSignal s' = false
    /\ (RelationService.getRelationStatus userId w = no_status ->
        (forall r, In r (db_relations (pb w)) -> ~ edge (user_id me) userId r) ->
        exists r,
          btn_relationStatusSignal s' = mkStatus pending_sent true (Some r)
          /\ edge (user_id me) userId r
          /\ db_relations (pb w') = db_relations (pb w) ++ [r]
          /\ RelationActionButtonComponent.buttonLabel s' = "Pending")
    /\ (status_type (RelationService.getRelationStatus userId w) <> no_relation ->
        s' = mkButton false (btn_relationStatusSignal s) /\ w' = w).
Proof.
  intros w me userId s Hme Hneq Hbtn Hf. cbv zeta.
  unfold RelationActionButtonComponent.handleAction,
    RelationActionButtonComponent.dispatch.
  rewrite Hbtn. unfold RelationService.sendFriendRequest. mstep. rewrite Hme.
  apply String.eqb_neq in Hneq. rewrite Hneq.
  destruct (type_eqb (status_type (RelationService.getRelationStatus userId w)) no_relation)
    eqn:Hst; cbn [negb].
  2:{ cbn [fst snd]. split; [reflexivity|]. split.
      - intros Hno. rewrite Hno in Hst. discriminate Hst.
      - intros _. split; reflexivity. }
  apply type_eqb_eq in Hst.
  refine (conj _ (conj _ (fun Hne => False_ind _ (Hne Hst)))); clear Hst;
    destruct w as [au rs cs ch [us rl cv ms ck nid fl lg]];
    cbn in Hme, Hf; subst au fl;
    unfold RelationService.fetchRelations, RelationService.loadingSignal_set,
      RelationService.errorSignal_set, RelationService.getRelationStatusFromDB,
      RelationService.rethrow;
    rewrite relations_create_run; cbn [pb db_faults hd]; cbv zeta;
    mstep; cbn [authUser with_pb with_relationService];
    rewrite relations_getList_run;
    cbn [authUser relationService pb with_pb with_relationService arrive next_id tick
         set_db_relations db_faults db_relations db_users db_conversations db_messages
         db_clock db_nextId db_log tl hd];
    rewrite relations_getList_run;
    cbn [authUser relationService pb with_pb with_relationService arrive next_id tick
         set_db_relations db_faults db_relations db_users db_conversations db_messages
         db_clock db_nextId db_log tl hd];
    rewrite listed_first;
    cbn [arrive next_id tick set_db_relations db_relations];
    set (r := mkRelation _ (user_id me) userId pending_sent ck ck None).
  - destruct (find _ (rl ++ [r])); [reflexivity|].
    rewrite relations_getList_run.
    cbn [pb with_pb with_relationService arrive next_id tick set_db_relations
         db_faults tl hd].
    match goal with
    | |- context [listed_relations ?f None 1 1 false ?b] =>
        destruct (listed_relations f None 1 1 false b)
    end; reflexivity.
  - intros _ Hnone. cbn [pb db_relations] in Hnone.
    assert (Hfind : find (fun x => (from_user x =? user_id me) && (to_user x =? userId))
                         (rl ++ [r]) = Some r).
    { apply find_app_last.
      - destruct (find _ rl) as [x|] eqn:Hx; [|reflexivity].
        apply find_edge_some in Hx. destruct Hx as [Hin He].
        exfalso. exact (Hnone x Hin He).
      - cbn. rewrite !String.eqb_refl. reflexivity. }
    rewrite Hfind. cbn [fst snd pb db_relations].
    exists r. split; [reflexivity|]. split; [split; reflexivity|].
    split; reflexivity.
Qed.

Lemma handleAction_add_friend_witness :
  RelationActionButtonComponent.buttonLabel
    (fst (RelationActionButtonComponent.handleAction "U2" (mkButton false no_status)
            (client Scenario.alice Scenario.empty_backend)))
  = "Pending".
Proof.
  destruct (handleAction_add_friend (client Scenario.alice Scenario.empty_backend)
              Scenario.alice "U2" (mkButton false no_status) eq_refl)
    as (_ & H & _).
  - discriminate.
  - reflexivity.
  - reflexivity.
  - destruct (H eq_refl) as (r & _ & _ & _ & Hlabel).
    + intros r [].
    + exact Hlabel.
Defined.
